(** * Bioloid packet codec and control table: a shallow embedding

    The development follows the C++ sources of the Arduino-Bioloid library:
    - [Bioloid.h]        constants ([ID], [Command], [Error]);
    - [Packet.h/.cpp]    the byte-at-a-time packet parser and serializer;
    - [ControlTable.h/.cpp], [FileStorage.cpp]   the register table.

    Conventions.  Every C++ integer is a [Z]; a conversion to [uint8_t] is
    written [uint8].  A byte buffer reached through a pointer is a [list Z];
    an access outside the buffer, a failed [assert] and any other undefined
    behaviour is the result [None]. *)

From stdpp Require Import base option list numbers.
From Stdlib Require Import ZArith Lia.

Local Open Scope Z_scope.

(** ** Machine integers and raw buffers *)

(** [static_cast<uint8_t>(z)], also the implicit conversion on assignment
    to a [uint8_t] object. *)
Definition uint8 (z : Z) : Z := z mod 256.

(** [~x] assigned to a [uint8_t]: the operand is promoted to [int],
    complemented, and converted back. *)
Definition not8 (x : Z) : Z := uint8 (Z.lnot x).

(** [buf[i]] as an rvalue. *)
Definition load8 (buf : list Z) (i : Z) : option Z :=
  if 0 <=? i then buf !! Z.to_nat i else None.

(** [buf[i] = v]. *)
Definition store8 (buf : list Z) (i v : Z) : option (list Z) :=
  if (0 <=? i) && (i <? Z.of_nat (length buf))
  then Some (<[Z.to_nat i := v]> buf)
  else None.

(** [memcpy(dst, src, n)]. *)
Definition memcpy (dst src : list Z) (n : Z) : option (list Z) :=
  if (0 <=? n) && (n <=? Z.of_nat (length src)) && (n <=? Z.of_nat (length dst))
  then Some (take (Z.to_nat n) src ++ drop (Z.to_nat n) dst)
  else None.

(** [memset(buf, 0, n)]. *)
Definition memset0 (buf : list Z) (n : Z) : option (list Z) :=
  if (0 <=? n) && (n <=? Z.of_nat (length buf))
  then Some (replicate (Z.to_nat n) 0 ++ drop (Z.to_nat n) buf)
  else None.

(** ** Bioloid.h *)

Module ID.
Definition DEFAULT : Z := 0x00.
Definition BROADCAST : Z := 0xFE.
Definition INVALID : Z := 0xFF.
End ID.

Module Command.
Definition PING : Z := 0x01.
Definition READ : Z := 0x02.
Definition WRITE : Z := 0x03.
Definition REG_WRITE : Z := 0x04.
Definition ACTION : Z := 0x05.
Definition RESET : Z := 0x06.
Definition SYNC_WRITE : Z := 0x83.
End Command.

Module Error.
Definition RESERVED : Z := 0x80.
Definition INSTRUCTION : Z := 0x40.
Definition OVERLOAD : Z := 0x20.
Definition CHECKSUM : Z := 0x10.
Definition RANGE : Z := 0x08.
Definition OVERHEATING : Z := 0x04.
Definition ANGLE_LIMIT : Z := 0x02.
Definition INPUT_VOLTAGE : Z := 0x01.
Definition NONE : Z := 0x00.
Definition NOT_DONE : Z := 0x100.
Definition TIMEOUT : Z := 0x101.
Definition TOO_MUCH_DATA : Z := 0x102.
End Error.

(** ** Packet.h / Packet.cpp *)

Module Packet.

(** [enum class State]. *)
Inductive State : Set :=
| IDLE
| FF_1ST_RCVD
| FF_2ND_RCVD
| ID_RCVD
| LENGTH_RCVD
| COMMAND_RCVD.

(** The data members of [class Packet].  [m_params] is the caller's
    parameter storage, which the object only points to. *)
Record t : Type := mk {
  m_state : State;
  m_maxParams : Z;
  m_params : list Z;
  m_id : Z;
  m_length : Z;
  m_cmd : Z;
  m_paramIdx : Z;
  m_checksum : Z
}.

Definition with_state (s : State) (p : t) : t :=
  mk s (m_maxParams p) (m_params p) (m_id p) (m_length p) (m_cmd p)
     (m_paramIdx p) (m_checksum p).
Definition with_params (b : list Z) (p : t) : t :=
  mk (m_state p) (m_maxParams p) b (m_id p) (m_length p) (m_cmd p)
     (m_paramIdx p) (m_checksum p).
Definition with_id (v : Z) (p : t) : t :=
  mk (m_state p) (m_maxParams p) (m_params p) v (m_length p) (m_cmd p)
     (m_paramIdx p) (m_checksum p).
Definition with_length (v : Z) (p : t) : t :=
  mk (m_state p) (m_maxParams p) (m_params p) (m_id p) v (m_cmd p)
     (m_paramIdx p) (m_checksum p).
Definition with_cmd (v : Z) (p : t) : t :=
  mk (m_state p) (m_maxParams p) (m_params p) (m_id p) (m_length p) v
     (m_paramIdx p) (m_checksum p).
Definition with_paramIdx (v : Z) (p : t) : t :=
  mk (m_state p) (m_maxParams p) (m_params p) (m_id p) (m_length p) (m_cmd p)
     v (m_checksum p).
Definition with_checksum (v : Z) (p : t) : t :=
  mk (m_state p) (m_maxParams p) (m_params p) (m_id p) (m_length p) (m_cmd p)
     (m_paramIdx p) v.

(** [static constexpr uint8_t MAX_PARAMS = 0xffu - 2u]. *)
Definition MAX_PARAMS : Z := 0xff - 2.

(** [Packet::Packet()]: no parameter storage at all. *)
Definition new0 : t :=
  mk IDLE 0 [] ID.DEFAULT 2 Command.PING 0 0.

(** [Packet::Packet(size_t maxParams, void* params)]. *)
Definition new (maxParams : Z) (params : list Z) : option t :=
  if maxParams <=? MAX_PARAMS
  then Some (mk IDLE (uint8 maxParams) params ID.DEFAULT 2 Command.PING 0 0)
  else None.

(** Accessors. *)
Definition id (p : t) : Z := m_id p.
Definition length (p : t) : Z := m_length p.
Definition command (p : t) : Z := m_cmd p.
Definition errorCode (p : t) : Z := m_cmd p.
Definition checksum (p : t) : Z := m_checksum p.

Definition numParams (p : t) : Z :=
  if m_length p <=? 2 then 0 else uint8 (m_length p - 2).

(** Mutators [id(ID::Type)], [command(Command::Type)]. *)
Definition set_id (v : Z) (p : t) : t := with_id v p.
Definition set_command (v : Z) (p : t) : t := with_cmd v p.

(** [void Packet::params(size_t numParams)]. *)
Definition params_n (numParams : Z) (p : t) : option t :=
  if numParams <=? m_maxParams p
  then Some (with_length (uint8 (2 + Z.min (uint8 numParams) (m_maxParams p))) p)
  else None.

(** [void Packet::params(size_t numParams, const void* params)]. *)
Definition params (numParams : Z) (src : list Z) (p : t) : option t :=
  if numParams <=? m_maxParams p then
    let numParams := if m_maxParams p <=? numParams then m_maxParams p else numParams in
    buf ← memcpy (m_params p) src numParams;
    Some (with_length (uint8 (2 + Z.min (uint8 numParams) (m_maxParams p)))
            (with_params buf p))
  else None.

(** [void Packet::params(std::initializer_list<uint8_t> p)]. *)
Definition params_il (l : list Z) (p : t) : option t :=
  params (Z.of_nat (List.length l)) l p.

(** The loop of [update_checksum]: [n] iterations remain, [i] is the loop
    counter and [acc] the running [m_checksum]. *)
Fixpoint sum_params (buf : list Z) (i : Z) (n : nat) (acc : Z) : option Z :=
  match n with
  | O => Some acc
  | S n' => v ← load8 buf i; sum_params buf (i + 1) n' (uint8 (acc + v))
  end.

(** [void Packet::update_checksum()]. *)
Definition update_checksum (p : t) : option t :=
  let c := id p in
  let c := uint8 (c + length p) in
  let c := uint8 (c + command p) in
  c ← sum_params (m_params p) 0 (Z.to_nat (numParams p)) c;
  Some (with_checksum (not8 c) p).

(** The output buffer of [data] is modelled by the bytes written so far,
    so that [len] is their number; [data[len++] = v] guarded by
    [len < maxLen] is [emit]. *)
Definition emit (maxLen : Z) (out : list Z) (v : Z) : list Z :=
  if Z.of_nat (List.length out) <? maxLen then out ++ [v] else out.

(** The [for] loop of [data]; the flag tells whether the loop left the
    function through [return len]. *)
Fixpoint data_loop (p : t) (maxLen : Z) (idx : Z) (n : nat) (out : list Z)
  : option (bool * list Z) :=
  match n with
  | O => Some (false, out)
  | S n' =>
      if m_maxParams p <=? idx then Some (true, out)
      else if Z.of_nat (List.length out) <? maxLen then
        v ← load8 (m_params p) idx;
        data_loop p maxLen (idx + 1) n' (out ++ [v])
      else Some (false, out)
  end.

(** [size_t Packet::data(size_t maxLen, void* data)]: the number of bytes
    written together with those bytes. *)
Definition data (maxLen : Z) (p : t) : option (Z * list Z) :=
  let out := emit maxLen [] 0xff in
  let out := emit maxLen out 0xff in
  let out := emit maxLen out (id p) in
  let out := emit maxLen out (length p) in
  let out := emit maxLen out (command p) in
  '(returned, out) ← data_loop p maxLen 0 (Z.to_nat (numParams p)) out;
  if (returned : bool) then Some (Z.of_nat (List.length out), out)
  else
    let out := emit maxLen out (m_checksum p) in
    Some (Z.of_nat (List.length out), out).

(** [Error::Type Packet::processByte(uint8_t byte)]. *)
Definition processByte (byte : Z) (p : t) : option (Z * t) :=
  match m_state p with
  | IDLE =>
      if byte =? 0xFF then Some (Error.NOT_DONE, with_state FF_1ST_RCVD p)
      else Some (Error.NOT_DONE, with_state IDLE p)
  | FF_1ST_RCVD =>
      if byte =? 0xFF then Some (Error.NOT_DONE, with_state FF_2ND_RCVD p)
      else Some (Error.NOT_DONE, with_state IDLE p)
  | FF_2ND_RCVD =>
      if byte =? 0xFF then Some (Error.NOT_DONE, with_state FF_2ND_RCVD p)
      else
        Some (Error.NOT_DONE,
              with_state ID_RCVD (with_checksum byte (with_id byte p)))
  | ID_RCVD =>
      Some (Error.NOT_DONE,
            with_state LENGTH_RCVD
              (with_checksum (uint8 (m_checksum p + byte)) (with_length byte p)))
  | LENGTH_RCVD =>
      Some (Error.NOT_DONE,
            with_state COMMAND_RCVD
              (with_paramIdx 0
                 (with_checksum (uint8 (m_checksum p + byte)) (with_cmd byte p))))
  | COMMAND_RCVD =>
      if numParams p <=? m_paramIdx p then
        let p := with_checksum (not8 (m_checksum p)) p in
        if m_checksum p =? byte then
          if m_paramIdx p <=? m_maxParams p
          then Some (Error.NONE, with_state IDLE p)
          else Some (Error.TOO_MUCH_DATA, with_state IDLE p)
        else
          Some (Error.CHECKSUM, with_state IDLE (with_checksum byte p))
      else
        let p := with_checksum (uint8 (m_checksum p + byte)) p in
        p ← (if m_paramIdx p <? m_maxParams p
             then buf ← store8 (m_params p) (m_paramIdx p) byte;
                  Some (with_params buf p)
             else Some p);
        Some (Error.NOT_DONE,
              with_state COMMAND_RCVD (with_paramIdx (uint8 (m_paramIdx p + 1)) p))
  end.

(** Feeding a byte sequence one byte at a time, keeping every result. *)
Fixpoint feed (p : t) (bytes : list Z) : option (list Z * t) :=
  match bytes with
  | [] => Some ([], p)
  | b :: bs =>
      '(e, p1) ← processByte b p;
      '(es, p2) ← feed p1 bs;
      Some (e :: es, p2)
  end.

(** [PacketTest::parseData] of the test suite: stop at the first result
    other than [NOT_DONE]. *)
Fixpoint parseData (p : t) (stream : list Z) : option (Z * t) :=
  match stream with
  | [] => Some (Error.NOT_DONE, p)
  | b :: bs =>
      '(err, p1) ← processByte b p;
      if err =? Error.NOT_DONE then parseData p1 bs else Some (err, p1)
  end.

(** States reachable from a freshly constructed codec. *)
Inductive reachable (p0 : t) : t -> Prop :=
| reach_init : reachable p0 p0
| reach_step p byte e p' :
    reachable p0 p -> processByte byte p = Some (e, p') -> reachable p0 p'.

End Packet.

(** ** Vocabulary for the statements about the codec *)

(** The values of a [uint8_t]. *)
Definition is_byte (b : Z) : Prop := 0 <= b < 256.

(** The invariant of the parser: the capacity and the storage never
    change, and while parameters are read the index stays within the
    declared count. *)
Definition parser_inv (C : Z) (L : nat) (p : Packet.t) : Prop :=
  Packet.m_maxParams p = C /\
  length (Packet.m_params p) = L /\
  0 <= Packet.m_paramIdx p /\
  (Packet.m_state p = Packet.COMMAND_RCVD ->
   Packet.m_paramIdx p <= Packet.numParams p).

(** The running 8-bit sum over a byte sequence, as both [update_checksum]
    and [processByte] accumulate it. *)
Definition sum8 (acc : Z) (ps : list Z) : Z :=
  fold_left (fun a v => uint8 (a + v)) ps acc.

(** The checksum byte of the frame with the given id, length field,
    command and parameters. *)
Definition frame_checksum (i len c : Z) (ps : list Z) : Z :=
  not8 (sum8 (uint8 (uint8 (i + len) + c)) ps).

(** A frame as a client builds it: construct the packet over [storage],
    set id, command and parameters, then compute the checksum. *)
Definition make_frame (maxParams : Z) (storage : list Z) (i c : Z) (ps : list Z)
  : option Packet.t :=
  p ← Packet.new maxParams storage;
  p ← Packet.params (Z.of_nat (length ps)) ps
        (Packet.set_command c (Packet.set_id i p));
  Packet.update_checksum p.

(** ** ControlTable.h / ControlTable.cpp *)

(** [enum class IControlTableStorage::Error]. *)
Inductive StorageError : Set :=
| STORAGE_NONE
| STORAGE_FAILED.

(** [class IControlTableStorage].  [storage_load s offset numBytes] yields
    the status, the bytes the implementation has put at [data[0]],
    [data[1]], ... and the storage afterwards; [storage_save] is given the
    [numBytes] bytes found at [data].  An implementation is handed a buffer
    of [numBytes] bytes and stays inside it. *)
Class IControlTableStorage (S : Type) : Type := {
  storage_load : S -> Z -> Z -> StorageError * list Z * S;
  storage_save : S -> Z -> Z -> list Z -> StorageError * S;
  storage_load_bound : forall s offset numBytes,
    0 <= numBytes ->
    Z.of_nat (length (storage_load s offset numBytes).1.2) <= numBytes
}.

Module ControlTable.

(** [struct IControlTable::Offset]. *)
Module Offset.
Definition MODEL : Z := 0x00.
Definition VERSION : Z := 0x02.
Definition ID : Z := 0x03.
Definition BAUD : Z := 0x04.
Definition RDT : Z := 0x05.
Definition LED : Z := 0x19.
End Offset.

Definition DEFAULT_DEVICE_ID : Z := 0x00.
Definition DEFAULT_BAUD : Z := 0x01.
Definition DEFAULT_RDT : Z := 250.

(** The integral type [T] of the [get]/[set] templates. *)
Record IntType : Set := { sizeof : Z; is_signed : bool }.
Definition uint8_t : IntType := {| sizeof := 1; is_signed := false |}.
Definition uint16_t : IntType := {| sizeof := 2; is_signed := false |}.
Definition uint32_t : IntType := {| sizeof := 4; is_signed := false |}.
Definition int8_t : IntType := {| sizeof := 1; is_signed := true |}.
Definition int16_t : IntType := {| sizeof := 2; is_signed := true |}.
Definition int32_t : IntType := {| sizeof := 4; is_signed := true |}.

(** Conversion of an integer to [T]. *)
Definition cast (T : IntType) (z : Z) : Z :=
  let m := 2 ^ (8 * sizeof T) in
  if is_signed T then (z + m / 2) mod m - m / 2 else z mod m.

(** What an observer of the table sees happen, in order: calls of the
    two virtual hooks, accesses to [m_ctlBytes], calls made on the port
    and on the storage object. *)
Inductive Event : Set :=
| EvPopulateEntry (offset : Z)
| EvEntryModified (offset : Z)
| EvRead (index : Z)
| EvWrite (index value : Z)
| EvMemset (numBytes : Z)
| EvSetBaudRate (baudRate : Z)
| EvStorageLoad (offset numBytes : Z)
| EvStorageSave (offset numBytes : Z).

Section WithStorage.
Context {S : Type} `{IControlTableStorage S}.

(** The data members of [class IControlTable], the storage object that
    [m_storage] refers to, and the events so far.  [m_port] is taken to
    point to a live port; calls on it are events. *)
Record t : Type := mk {
  m_numCtlBytes : Z;
  m_numPersistentBytes : Z;
  m_ctlBytes : list Z;
  m_storage : S;
  events : list Event
}.

Definition with_ctlBytes (b : list Z) (c : t) : t :=
  mk (m_numCtlBytes c) (m_numPersistentBytes c) b (m_storage c) (events c).
Definition with_storage (s : S) (c : t) : t :=
  mk (m_numCtlBytes c) (m_numPersistentBytes c) (m_ctlBytes c) s (events c).
Definition with_event (e : Event) (c : t) : t :=
  mk (m_numCtlBytes c) (m_numPersistentBytes c) (m_ctlBytes c) (m_storage c)
     (events c ++ [e]).

(** Member functions run in a state-and-failure monad over the object. *)
Definition M (A : Type) : Type := t -> option (A * t).
Definition ret {A} (a : A) : M A := fun c => Some (a, c).
Definition bind {A B} (m : M A) (k : A -> M B) : M B :=
  fun c => match m c with Some (a, c') => k a c' | None => None end.
Definition assert (b : bool) : M unit :=
  fun c => if b then Some (tt, c) else None.
Definition emit (e : Event) : M unit := fun c => Some (tt, with_event e c).
Definition this : M t := fun c => Some (c, c).

Notation "'do' x <- m ; k" := (bind m (fun x => k))
  (at level 10, x name, m at level 100, k at level 200, only parsing).

(** [this->m_ctlBytes[i]] read and written. *)
Definition read (i : Z) : M Z :=
  fun c => match load8 (m_ctlBytes c) i with
           | Some v => Some (v, with_event (EvRead i) c)
           | None => None
           end.
Definition write (i v : Z) : M unit :=
  fun c => match store8 (m_ctlBytes c) i v with
           | Some b => Some (tt, with_ctlBytes b (with_event (EvWrite i v) c))
           | None => None
           end.

(** [IControlTable::IControlTable]; a null [ctlBytes] is [None]. *)
Definition new (numCtlBytes numPersistentBytes : Z)
    (ctlBytes : option (list Z)) (storage : S) : option t :=
  match ctlBytes with
  | Some b => Some (mk numCtlBytes numPersistentBytes b storage [])
  | None => None
  end.

(** [void IControlTable::populateEntry(Offset::Type) const]. *)
Definition populateEntry (offset : Z) : M unit :=
  emit (EvPopulateEntry offset).

(** The [for] loop of the general branch of [get]. *)
Fixpoint get_loop (T : IntType) (n : nat) (offset val : Z) : M Z :=
  match n with
  | O => ret val
  | Datatypes.S n' =>
      let val := cast T (Z.shiftl val 8) in
      let offset := uint8 (offset - 1) in
      do b <- read offset;
      get_loop T n' offset (cast T (Z.lor val b))
  end.

(** [template <typename T> void get(Offset::Type offset, T* val) const]. *)
Definition get (T : IntType) (offset : Z) : M Z :=
  do c <- this;
  do _ <- assert (offset + sizeof T <=? m_numCtlBytes c);
  do _ <- populateEntry offset;
  if sizeof T =? 1 then
    do b <- read offset; ret (cast T b)
  else if sizeof T =? 2 then
    do b <- read (offset + 1);
    let val := cast T b in
    let val := cast T (Z.shiftl val 8) in
    do b <- read offset;
    ret (cast T (Z.lor val b))
  else
    let offset := uint8 (offset + sizeof T) in
    let offset := uint8 (offset - 1) in
    do b <- read offset;
    get_loop T (Z.to_nat (sizeof T - 1)) offset (cast T b).

(** [get_u8] ... [get_i32]: the assertion, then [get]. *)
Definition get_as (T : IntType) (offset : Z) : M Z :=
  do c <- this;
  do _ <- assert (offset + sizeof T <=? m_numCtlBytes c);
  get T offset.
Definition get_u8 := get_as uint8_t.
Definition get_u16 := get_as uint16_t.
Definition get_u32 := get_as uint32_t.
Definition get_i8 := get_as int8_t.
Definition get_i16 := get_as int16_t.
Definition get_i32 := get_as int32_t.

(** [void IControlTable::entryModified(Offset::Type offset)]. *)
Definition entryModified (offset : Z) : M unit :=
  do _ <- emit (EvEntryModified offset);
  if offset =? Offset.BAUD then
    do b <- get_u8 Offset.BAUD;
    let val := cast uint32_t (b + 1) in
    let baudRate := cast uint32_t (2000000 / val) in
    emit (EvSetBaudRate baudRate)
  else ret tt.

(** The [for] loop of the general branch of [set]; it returns the
    final [offset]. *)
Fixpoint set_loop (T : IntType) (n : nat) (offset val : Z) : M Z :=
  match n with
  | O => ret offset
  | Datatypes.S n' =>
      let val := cast T (Z.shiftr val 8) in
      do _ <- write offset (Z.land val 0xff);
      set_loop T n' (uint8 (offset + 1)) val
  end.

(** [template <typename T> void set(Offset::Type offset, T val)]. *)
Definition set (T : IntType) (offset : Z) (val : Z) : M unit :=
  let val := cast T val in
  do c <- this;
  do _ <- assert (offset + sizeof T <=? m_numCtlBytes c);
  do offset <-
    (if sizeof T =? 1 then
       do _ <- write offset (uint8 val);
       ret offset
     else if sizeof T =? 2 then
       do _ <- write offset (Z.land val 0xff);
       let offset := uint8 (offset + 1) in
       let val := cast T (Z.shiftr val 8) in
       do _ <- write offset (Z.land val 0xff);
       ret (uint8 (offset + 1))
     else
       do _ <- write offset (Z.land val 0xff);
       set_loop T (Z.to_nat (sizeof T - 1)) (uint8 (offset + 1)) val);
  entryModified offset.

(** [memset(this->m_ctlBytes, 0, this->m_numCtlBytes)]. *)
Definition memset_ctlBytes : M unit :=
  fun c => match memset0 (m_ctlBytes c) (m_numCtlBytes c) with
           | Some b => Some (tt, with_ctlBytes b
                                   (with_event (EvMemset (m_numCtlBytes c)) c))
           | None => None
           end.

(** [void IControlTable::setToInitialValues()]. *)
Definition setToInitialValues : M unit :=
  do _ <- memset_ctlBytes;
  do _ <- set uint8_t Offset.ID DEFAULT_DEVICE_ID;
  do _ <- set uint8_t Offset.BAUD DEFAULT_BAUD;
  set uint8_t Offset.RDT DEFAULT_RDT.

(** [m_storage.load(offset, numBytes, &m_ctlBytes[0])]: the bytes the
    implementation delivers land at the start of the buffer. *)
Definition call_storage_load (offset numBytes : Z) : M StorageError :=
  fun c =>
    let '(rc, bytes, s) := storage_load (m_storage c) offset numBytes in
    match memcpy (m_ctlBytes c) bytes (Z.of_nat (length bytes)) with
    | Some b =>
        Some (rc, with_storage s
                    (with_ctlBytes b
                       (with_event (EvStorageLoad offset numBytes) c)))
    | None => None
    end.

(** [m_storage.save(offset, numBytes, &m_ctlBytes[0])]. *)
Definition call_storage_save (offset numBytes : Z) : M StorageError :=
  fun c =>
    if (0 <=? numBytes) && (numBytes <=? Z.of_nat (length (m_ctlBytes c)))
    then
      let '(rc, s) := storage_save (m_storage c) offset numBytes
                        (take (Z.to_nat numBytes) (m_ctlBytes c)) in
      Some (rc, with_storage s (with_event (EvStorageSave offset numBytes) c))
    else None.

(** [void IControlTable::load()]. *)
Definition load : M unit :=
  do _ <- memset_ctlBytes;
  do c <- this;
  do rc <- call_storage_load 0 (m_numPersistentBytes c);
  match rc with
  | STORAGE_NONE => ret tt
  | STORAGE_FAILED => setToInitialValues
  end.

(** [IControlTableStorage::Error IControlTable::save()]. *)
Definition save : M StorageError :=
  do c <- this;
  call_storage_save 0 (m_numPersistentBytes c).

(** [const uint8_t* ctlBytes() const]. *)
Definition ctlBytes (c : t) : list Z := m_ctlBytes c.

End WithStorage.

Arguments t S : clear implicits.
Arguments M S : clear implicits.

End ControlTable.

(** ** FileStorage.h / FileStorage.cpp *)

(** What the name [m_fileName] refers to, as far as the system calls made
    by [load] and [save] can tell.  [file] holds the bytes of the file, or
    [None] when no file has that name.  [readable] and [writable] say
    whether the file may be opened for reading and for writing; for a
    missing file [writable] says whether it may be created.  [seekable] is
    false for an object on which [lseek] fails, such as a terminal.  [room]
    is the number of bytes one [write] call can store before the device is
    full. *)
Record FileStorage : Type := {
  file : option (list Z);
  readable : bool;
  writable : bool;
  seekable : bool;
  room : nat
}.

(** [open(m_fileName, O_RDONLY)]: the bytes of the file when a descriptor
    is returned, [None] when the result is negative. *)
Definition sys_open_rdonly (s : FileStorage) : option (list Z) :=
  match file s with
  | Some content => if readable s then Some content else None
  | None => None
  end.

(** [open(m_fileName, O_RDWR | O_CREAT, 0644)]: the storage once the file
    is open, a missing file having been created empty, or [None] when the
    result is negative. *)
Definition sys_open_rdwr_creat (s : FileStorage) : option FileStorage :=
  match file s with
  | Some _ => if readable s && writable s then Some s else None
  | None =>
      if writable s
      then Some {| file := Some []; readable := true; writable := true;
                   seekable := true; room := room s |}
      else None
  end.

(** [lseek(fd, offset, SEEK_SET)]. *)
Definition sys_lseek (s : FileStorage) (offset : Z) : Z :=
  if seekable s && (0 <=? offset) then offset else -1.

(** [read(fd, data, numBytes)] at position [pos]: the count returned and
    the bytes put at [data]. *)
Definition sys_read (content : list Z) (pos numBytes : Z) : Z * list Z :=
  let got := take (Z.to_nat numBytes) (drop (Z.to_nat pos) content) in
  (Z.of_nat (length got), got).

(** A file with [bytes] stored at position [pos]; a gap between the end of
    the file and [pos] reads as zeros, and storing nothing changes
    nothing. *)
Definition store_at (content : list Z) (pos : Z) (bytes : list Z) : list Z :=
  match bytes with
  | [] => content
  | _ :: _ =>
      let o := Z.to_nat pos in
      (take o content ++ replicate (o - length content)%nat 0)
        ++ bytes ++ drop (o + length bytes)%nat content
  end.

(** [write(fd, data, numBytes)] at position [pos]: the count returned, -1
    when bytes were to be written and none could be stored, and the
    storage afterwards. *)
Definition sys_write (s : FileStorage) (pos : Z) (data : list Z) (numBytes : Z)
  : Z * FileStorage :=
  let bytes := take (Z.to_nat numBytes) data in
  let k := (length bytes `min` room s)%nat in
  if (0 <? numBytes) && (k =? 0)%nat then (-1, s)
  else (Z.of_nat k,
        {| file := Some (store_at (default [] (file s)) pos (take k bytes));
           readable := readable s; writable := writable s;
           seekable := seekable s; room := room s |}).

(** [FileStorage::load]: the status, the bytes put at [data], and the
    storage afterwards. *)
Definition FileStorage_load (s : FileStorage) (offset numBytes : Z)
  : StorageError * list Z * FileStorage :=
  match sys_open_rdonly s with
  | None => (STORAGE_FAILED, [], s)
  | Some content =>
      if sys_lseek s offset =? -1 then (STORAGE_FAILED, [], s)
      else
        let '(n, got) := sys_read content offset numBytes in
        if negb (n =? numBytes) then (STORAGE_FAILED, got, s)
        else (STORAGE_NONE, got, s)
  end.

(** [FileStorage::save]: the status and the storage afterwards; [data]
    holds the bytes found at the pointer of that name. *)
Definition FileStorage_save (s : FileStorage) (offset numBytes : Z) (data : list Z)
  : StorageError * FileStorage :=
  match sys_open_rdwr_creat s with
  | None => (STORAGE_FAILED, s)
  | Some s1 =>
      if sys_lseek s1 offset =? -1 then (STORAGE_FAILED, s1)
      else
        let '(n, s2) := sys_write s1 offset data numBytes in
        if negb (n =? numBytes) then (STORAGE_FAILED, s2)
        else (STORAGE_NONE, s2)
  end.

(** A regular file with the given bytes that may be read, written and
    positioned, and a name that refers to no file but may be created. *)
Definition regular_file (content : list Z) : FileStorage :=
  {| file := Some content; readable := true; writable := true;
     seekable := true; room := 255 |}.
Definition missing_file : FileStorage :=
  {| file := None; readable := true; writable := true;
     seekable := true; room := 255 |}.

(** ** Vocabulary for the statements about the control table *)

(** The events recorded by a run of a member function. *)
Definition events_of {S A : Type} (r : option (A * ControlTable.t S))
  : list ControlTable.Event :=
  match r with
  | Some (_, c) => ControlTable.events c
  | None => []
  end.

(** A test table: 32 bytes, 16 of them persistent, every byte nonzero, over
    a file of 16 bytes. *)
Definition test_table : ControlTable.t FileStorage :=
  ControlTable.mk 0x20 0x10 (replicate 32 0x5A)
    (regular_file (Z.of_nat <$> seq 1 16)) [].

(** ** Vocabulary for further statements about the codec *)

(** What [data] writes when the output buffer is large enough: the sync
    bytes and the header, the parameters that are both declared and
    stored, and the checksum unless more parameters are declared than the
    storage holds. *)
Definition serialized (p : Packet.t) : list Z :=
  [0xFF; 0xFF; Packet.id p; Packet.length p; Packet.command p]
    ++ take (Z.to_nat (Z.min (Packet.numParams p) (Packet.m_maxParams p)))
         (Packet.m_params p)
    ++ (if Packet.numParams p <=? Packet.m_maxParams p
        then [Packet.m_checksum p] else []).

(** The sum of a byte sequence, not truncated. *)
Definition byte_sum (l : list Z) : Z := foldr Z.add 0 l.

(** The wire bytes of a frame with the given id, command, parameters and
    checksum byte. *)
Definition frame_bytes (i c : Z) (ps : list Z) (x : Z) : list Z :=
  [0xFF; 0xFF; i; Z.of_nat (length ps) + 2; c] ++ ps ++ [x].

(** Whether a byte sequence contains two [0xFF] bytes in a row. *)
Fixpoint has_sync (s : list Z) : bool :=
  match s with
  | a :: (b :: _) as t => ((a =? 0xFF) && (b =? 0xFF)) || has_sync t
  | _ => false
  end.

(** The wire bytes of a frame with its correct checksum. *)
Definition wire (f : Z * Z * list Z) : list Z :=
  let '(i, c, ps) := f in
  frame_bytes i c ps (frame_checksum i (Z.of_nat (length ps) + 2) c ps).

(** The answers a codec gives to the bytes of a frame it accepts. *)
Definition accepted (f : Z * Z * list Z) : list Z :=
  replicate (5 + length f.2) Error.NOT_DONE ++ [Error.NONE].

(** ** Vocabulary for further statements about the control table *)

(** A buffer with the cells from [offset] on overwritten by [bytes]. *)
Definition splice (buf : list Z) (offset : Z) (bytes : list Z) : list Z :=
  take (Z.to_nat offset) buf ++ bytes
    ++ drop (Z.to_nat offset + length bytes) buf.

(** The [n] low base-256 digits of an integer, lowest first. *)
Fixpoint digits (n : nat) (v : Z) : list Z :=
  match n with
  | O => []
  | S n' => v mod 256 :: digits n' (v / 256)
  end.

(** What the base [entryModified] does after the call itself, given the
    offset it receives and the bytes of the table. *)
Definition hook_tail (h : Z) (buf : list Z) : list ControlTable.Event :=
  if h =? ControlTable.Offset.BAUD then
    match load8 buf ControlTable.Offset.BAUD with
    | Some b =>
        [ControlTable.EvPopulateEntry ControlTable.Offset.BAUD;
         ControlTable.EvRead ControlTable.Offset.BAUD;
         ControlTable.EvSetBaudRate (2000000 / (b mod 256 + 1))]
    | None => []
    end
  else [].

(** The first bytes of a table after [setToInitialValues]. *)
Definition initial_bytes (n : Z) : list Z :=
  [0; 0; 0; ControlTable.DEFAULT_DEVICE_ID; ControlTable.DEFAULT_BAUD;
   ControlTable.DEFAULT_RDT] ++ replicate (Z.to_nat n - 6) 0.

(** The values of type [T]. *)
Definition in_range (T : ControlTable.IntType) (x : Z) : Prop :=
  let M := 2 ^ (8 * ControlTable.sizeof T) in
  if ControlTable.is_signed T then - (M / 2) <= x < M / 2 else 0 <= x < M.

(** One round of the reading loop of [get]: shift the value by a byte and
    bring in the next lower byte. *)
Definition dec_step (T : ControlTable.IntType) (val b : Z) : Z :=
  ControlTable.cast T (Z.lor (ControlTable.cast T (Z.shiftl val 8)) b).

#[global, refine] Instance FileStorage_storage : IControlTableStorage FileStorage :=
  {| storage_load := FileStorage_load; storage_save := FileStorage_save |}.
Proof.
  intros s offset numBytes Hn. unfold FileStorage_load, sys_read.
  destruct (sys_open_rdonly s) as [content|]; simpl; [|lia].
  destruct (_ =? -1); simpl; [lia|].
  assert (Hlen : Z.of_nat (length (take (Z.to_nat numBytes)
                     (drop (Z.to_nat offset) content))) <= numBytes).
  { rewrite length_take. lia. }
  destruct (negb _); simpl; exact Hlen.
Defined.

(** * Facts about the packet codec *)

Ltac pk_simpl :=
  cbv beta iota delta
    [Packet.with_state Packet.with_params Packet.with_id Packet.with_length
     Packet.with_cmd Packet.with_paramIdx Packet.with_checksum
     Packet.m_state Packet.m_maxParams Packet.m_params Packet.m_id
     Packet.m_length Packet.m_cmd Packet.m_paramIdx Packet.m_checksum].

Lemma uint8_small z : 0 <= z < 256 -> uint8 z = z.
Proof. intros. unfold uint8. apply Z.mod_small. lia. Qed.

Lemma uint8_range z : 0 <= uint8 z < 256.
Proof. unfold uint8. apply Z.mod_pos_bound. lia. Qed.

Lemma length_store8 buf i v buf' :
  store8 buf i v = Some buf' -> length buf' = length buf.
Proof.
  unfold store8. destruct (_ && _); [|discriminate].
  intros [= <-]. apply length_insert.
Qed.

Lemma store8_in_range buf i v :
  0 <= i < Z.of_nat (length buf) -> store8 buf i v = Some (<[Z.to_nat i := v]> buf).
Proof.
  intros [H0 H1]. unfold store8.
  destruct (Z.leb_spec 0 i); [|lia]. destruct (Z.ltb_spec i (Z.of_nat (length buf))); [|lia].
  reflexivity.
Qed.

Lemma numParams_range p : 0 <= Packet.numParams p < 256.
Proof.
  unfold Packet.numParams. destruct (_ <=? _); [lia|apply uint8_range].
Qed.

Lemma processByte_inv C L p byte :
  C <= Z.of_nat L -> parser_inv C L p ->
  exists e p', Packet.processByte byte p = Some (e, p') /\
               parser_inv C L p' /\
               drop (Z.to_nat C) (Packet.m_params p') = drop (Z.to_nat C) (Packet.m_params p).
Proof.
  intros HCL (HC & HL & Hidx & Hcmd).
  pose proof (numParams_range p) as Hn.
  destruct p as [st mx buf i len cmd idx cks].
  unfold parser_inv, Packet.processByte, Packet.numParams in *; simpl in *; subst mx.
  set (N := if len <=? 2 then 0 else uint8 (len - 2)) in *.
  destruct st; simpl.
  1-3: destruct (byte =? 255); eexists _, _; (split; [reflexivity|]);
       (split; [|reflexivity]); repeat split; simpl; try done.
  1-2: eexists _, _; (split; [reflexivity|]); (split; [|reflexivity]);
       repeat split; simpl; try done.
  - intros _. generalize (uint8_range (len - 2)). destruct (len <=? 2); lia.
  - specialize (Hcmd eq_refl).
    destruct (Z.leb_spec N idx) as [Hfin|Hmore].
    + destruct (_ =? _); [destruct (idx <=? C)|]; eexists _, _;
        (split; [reflexivity|]); (split; [|reflexivity]); repeat split; simpl; done.
    + assert (Hidx' : uint8 (idx + 1) = idx + 1) by (apply uint8_small; lia).
      destruct (Z.ltb_spec idx C) as [Hlt|Hge].
      * rewrite store8_in_range by lia. simpl.
        eexists _, _; split; [reflexivity|]. split.
        -- repeat split; simpl; try lia. by rewrite length_insert.
        -- simpl. apply drop_insert_lt. lia.
      * simpl. eexists _, _; split; [reflexivity|]. split; [|reflexivity].
        repeat split; simpl; try lia.
Qed.

Lemma feed_inv C L bytes : forall p,
  C <= Z.of_nat L -> parser_inv C L p ->
  exists es p', Packet.feed p bytes = Some (es, p') /\
                parser_inv C L p' /\
                drop (Z.to_nat C) (Packet.m_params p') = drop (Z.to_nat C) (Packet.m_params p).
Proof.
  induction bytes as [|b bs IH]; intros p HCL Hinv.
  - exists [], p. done.
  - destruct (processByte_inv C L p b HCL Hinv) as (e & p1 & Hstep & Hinv1 & Hd1).
    destruct (IH p1 HCL Hinv1) as (es & p2 & Hfeed & Hinv2 & Hd2).
    exists (e :: es), p2. simpl. rewrite Hstep. simpl. rewrite Hfeed. simpl.
    split; [done|]. split; [done|]. congruence.
Qed.

Lemma new_inv C buf :
  0 <= C <= Packet.MAX_PARAMS ->
  exists p0, Packet.new C buf = Some p0 /\ parser_inv C (length buf) p0 /\
             Packet.m_params p0 = buf /\ Packet.m_state p0 = Packet.IDLE.
Proof.
  intros HC. unfold Packet.new, Packet.MAX_PARAMS in *.
  destruct (Z.leb_spec C (255 - 2)); [|lia].
  eexists; split; [reflexivity|]. repeat split; simpl; try done.
  apply uint8_small. lia.
Qed.
Lemma processByte_length_byte p byte e p' :
  is_byte byte -> is_byte (Packet.m_length p) ->
  Packet.processByte byte p = Some (e, p') -> is_byte (Packet.m_length p').
Proof.
  intros Hb Hl. destruct p as [st mx buf i len cmd idx cks].
  unfold Packet.processByte; simpl in *.
  destruct st; simpl; repeat case_match; simpl;
    try (intros [= <- <-]; simpl; done).
  all: destruct (store8 _ _ _); simpl; intros [= <- <-]; simpl; done.
Qed.

Lemma feed_length_byte bytes : forall p es p',
  Forall is_byte bytes -> is_byte (Packet.m_length p) ->
  Packet.feed p bytes = Some (es, p') -> is_byte (Packet.m_length p').
Proof.
  induction bytes as [|b bs IH]; intros p es p' Hall Hl; simpl.
  - intros [= <- <-]. done.
  - inversion Hall as [|? ? Hb Hbs]; subst.
    destruct (Packet.processByte b p) as [[e p1]|] eqn:Hstep; simpl; [|done].
    destruct (Packet.feed p1 bs) as [[es' p2]|] eqn:Hfeed; simpl; [|done].
    intros [= <- <-]. apply (IH p1 es' p2 Hbs); [|exact Hfeed].
    exact (processByte_length_byte p b e p1 Hb Hl Hstep).
Qed.

(** Whatever the state, a call of [processByte] either leaves the
    parameter storage alone or stores the byte at one index below the
    capacity. *)
Lemma processByte_store p byte e p' :
  Packet.processByte byte p = Some (e, p') ->
  Packet.m_params p' = Packet.m_params p \/
  exists i, 0 <= i < Packet.m_maxParams p /\
            Packet.m_params p' = <[Z.to_nat i := byte]> (Packet.m_params p).
Proof.
  destruct p as [st mx buf i len cmd idx cks].
  unfold Packet.processByte. cbn [Packet.m_state].
  destruct st.
  1-5: repeat case_match; intros [= <- <-]; left; reflexivity.
  destruct (Packet.numParams _ <=? _).
  { repeat case_match; intros [= <- <-]; left; reflexivity. }
  pk_simpl.
  destruct (Z.ltb_spec idx mx) as [Hlt|Hge].
  - unfold store8.
    destruct (Z.leb_spec 0 idx) as [H0|]; [|discriminate].
    destruct (idx <? Z.of_nat (length buf)); [|discriminate].
    cbn [andb mbind option_bind]. intros [= <- <-].
    right. exists idx. split; [lia|reflexivity].
  - cbn [mbind option_bind]. intros [= <- <-]. left; reflexivity.
Qed.

(** C3.  When the finalize step of [processByte] finds that the
    complement of the running sum differs from the received byte, the call
    returns [CHECKSUM], the codec is idle again, and id, length, command,
    the parameter storage and the capacity are what they were; the
    checksum register holds the received byte. *)
Theorem C3_checksum_mismatch (p : Packet.t) (byte : Z) :
  Packet.m_state p = Packet.COMMAND_RCVD ->
  Packet.numParams p <= Packet.m_paramIdx p ->
  not8 (Packet.m_checksum p) <> byte ->
  exists p',
    Packet.processByte byte p = Some (Error.CHECKSUM, p') /\
    Packet.m_state p' = Packet.IDLE /\
    Packet.id p' = Packet.id p /\
    Packet.length p' = Packet.length p /\
    Packet.command p' = Packet.command p /\
    Packet.numParams p' = Packet.numParams p /\
    Packet.m_params p' = Packet.m_params p /\
    Packet.m_maxParams p' = Packet.m_maxParams p /\
    Packet.checksum p' = byte.
Proof.
  intros Hst Hfin Hne.
  destruct p as [st mx buf i len cmd idx cks].
  unfold Packet.processByte, Packet.numParams in *; simpl in *; subst st.
  destruct (Z.leb_spec (if len <=? 2 then 0 else uint8 (len - 2)) idx); [|lia].
  destruct (Z.eqb_spec (not8 cks) byte); [done|].
  eexists. repeat split.
Qed.

Lemma C3_checksum_mismatch_witness :
  exists p',
    Packet.processByte 0xEE
      (Packet.mk Packet.COMMAND_RCVD 32 [0x2B; 0x01] 0x01 4 0x02 2 0x33)
    = Some (Error.CHECKSUM, p') /\
    Packet.m_state p' = Packet.IDLE /\
    Packet.id p' = 0x01 /\
    Packet.length p' = 4 /\
    Packet.command p' = 0x02 /\
    Packet.numParams p' = 2 /\
    Packet.m_params p' = [0x2B; 0x01] /\
    Packet.m_maxParams p' = 32 /\
    Packet.checksum p' = 0xEE.
Proof.
  apply (C3_checksum_mismatch
           (Packet.mk Packet.COMMAND_RCVD 32 [0x2B; 0x01] 0x01 4 0x02 2 0x33) 0xEE).
  - reflexivity.
  - vm_compute. discriminate.
  - vm_compute. discriminate.
Defined.
Lemma with_state_same p : Packet.with_state (Packet.m_state p) p = p.
Proof. by destruct p. Qed.

Lemma processByte_id p byte e p' :
  Packet.processByte byte p = Some (e, p') ->
  Packet.m_id p' = Packet.m_id p \/
  (Packet.m_state p = Packet.FF_2ND_RCVD /\ byte <> 0xFF /\ Packet.m_id p' = byte).
Proof.
  destruct p as [st mx buf i len cmd idx cks].
  unfold Packet.processByte; simpl.
  destruct st; simpl.
  3: { destruct (Z.eqb_spec byte 255); intros [= <- <-]; simpl; auto. }
  all: repeat case_match; simpl; try (intros [= <- <-]; simpl; auto).
  all: destruct (store8 _ _ _); simpl; intros [= <- <-]; simpl; auto.
Qed.

Lemma reachable_id_not_FF p0 q :
  Packet.m_id p0 <> 0xFF -> Packet.reachable p0 q -> Packet.m_id q <> 0xFF.
Proof.
  intros H0 Hr. induction Hr as [|p byte e p' Hr IH Hstep]; [done|].
  destruct (processByte_id p byte e p' Hstep) as [->|(_ & Hb & ->)]; done.
Qed.

(** C7.  In every state reached from a freshly constructed codec by calls
    of [processByte] the stored id is not [0xFF]; after the two sync bytes
    a further [0xFF] leaves the codec as it is, any other byte is captured
    as the id, and no call changes the id in any other way. *)
Theorem C7_id_never_FF (p0 q : Packet.t) :
  (p0 = Packet.new0 \/ exists maxParams buf, Packet.new maxParams buf = Some p0) ->
  Packet.reachable p0 q ->
  Packet.id q <> 0xFF /\
  (Packet.m_state q = Packet.FF_2ND_RCVD ->
   Packet.processByte 0xFF q = Some (Error.NOT_DONE, q)) /\
  (forall byte,
      Packet.m_state q = Packet.FF_2ND_RCVD -> byte <> 0xFF ->
      exists q', Packet.processByte byte q = Some (Error.NOT_DONE, q') /\
                 Packet.m_state q' = Packet.ID_RCVD /\ Packet.id q' = byte) /\
  (forall byte e q',
      Packet.processByte byte q = Some (e, q') ->
      Packet.id q' <> Packet.id q ->
      Packet.m_state q = Packet.FF_2ND_RCVD /\ byte <> 0xFF /\ Packet.id q' = byte).
Proof.
  intros Hfresh Hreach.
  assert (H0 : Packet.m_id p0 <> 0xFF).
  { destruct Hfresh as [->|(mx & buf & Hnew)]; [done|].
    unfold Packet.new in Hnew. destruct (_ <=? _); [|done].
    by injection Hnew as <-. }
  split; [exact (reachable_id_not_FF p0 q H0 Hreach)|].
  split; [|split].
  - intros Hst. unfold Packet.processByte. rewrite Hst. simpl.
    by rewrite <- Hst, with_state_same.
  - intros byte Hst Hb. unfold Packet.processByte. rewrite Hst.
    destruct (Z.eqb_spec byte 255); [done|].
    eexists. repeat split.
  - intros byte e q' Hstep Hne. unfold Packet.id in *.
    destruct (processByte_id q byte e q' Hstep) as [?|?]; done.
Qed.

Lemma C7_id_never_FF_witness :
  let q := Packet.mk Packet.FF_2ND_RCVD 0 [] 0 2 1 0 0 in
  Packet.id q <> 0xFF /\
  (Packet.m_state q = Packet.FF_2ND_RCVD ->
   Packet.processByte 0xFF q = Some (Error.NOT_DONE, q)) /\
  (forall byte,
      Packet.m_state q = Packet.FF_2ND_RCVD -> byte <> 0xFF ->
      exists q', Packet.processByte byte q = Some (Error.NOT_DONE, q') /\
                 Packet.m_state q' = Packet.ID_RCVD /\ Packet.id q' = byte) /\
  (forall byte e q',
      Packet.processByte byte q = Some (e, q') ->
      Packet.id q' <> Packet.id q ->
      Packet.m_state q = Packet.FF_2ND_RCVD /\ byte <> 0xFF /\ Packet.id q' = byte).
Proof.
  apply (C7_id_never_FF Packet.new0).
  - left. reflexivity.
  - apply (Packet.reach_step _ (Packet.mk Packet.FF_1ST_RCVD 0 [] 0 2 1 0 0)
             0xFF Error.NOT_DONE); [|reflexivity].
    apply (Packet.reach_step _ Packet.new0 0xFF Error.NOT_DONE); [|reflexivity].
    apply Packet.reach_init.
Defined.

Lemma parseData_noise p noise s :
  Packet.m_state p = Packet.IDLE ->
  Forall (fun b => b <> 0xFF) noise ->
  Packet.parseData p (noise ++ s) = Packet.parseData p s.
Proof.
  intros Hst Hn. induction Hn as [|b bs Hb Hbs IH]; [done|].
  simpl. unfold Packet.processByte at 1. rewrite Hst.
  destruct (Z.eqb_spec b 255); [done|].
  simpl. by rewrite <- Hst, with_state_same.
Qed.

Lemma parseData_sync p k rest :
  Packet.m_state p = Packet.FF_2ND_RCVD ->
  Packet.parseData p (replicate k 0xFF ++ rest) = Packet.parseData p rest.
Proof.
  intros Hst. induction k as [|k IH]; [done|].
  simpl. unfold Packet.processByte at 1. rewrite Hst. simpl.
  by rewrite <- Hst, with_state_same.
Qed.

Lemma parseData_two_FF p rest :
  Packet.m_state p = Packet.IDLE ->
  Packet.parseData p (0xFF :: 0xFF :: rest)
  = Packet.parseData (Packet.with_state Packet.FF_2ND_RCVD p) rest.
Proof.
  intros Hst. destruct p as [st mx buf i len cmd idx cks]; simpl in *; subst st.
  reflexivity.
Qed.

(** C6 (amended).  For a codec in the idle state: leading noise bytes
    that are all different from [0xFF] do not change the outcome of
    parsing any stream, and neither do such noise bytes followed by any
    number of extra [0xFF] bytes in front of a stream that starts with the
    two sync bytes. *)
Theorem C6_leading_noise_ignored (p : Packet.t) (noise : list Z) :
  Packet.m_state p = Packet.IDLE ->
  Forall (fun b => b <> 0xFF) noise ->
  (forall s, Packet.parseData p (noise ++ s) = Packet.parseData p s) /\
  (forall k rest,
      Packet.parseData p (noise ++ replicate k 0xFF ++ 0xFF :: 0xFF :: rest)
      = Packet.parseData p (0xFF :: 0xFF :: rest)).
Proof.
  intros Hst Hn. split.
  - intros s. by apply parseData_noise.
  - intros k rest. rewrite parseData_noise by done.
    replace (replicate k 255 ++ 255 :: 255 :: rest)
      with (255 :: 255 :: replicate k 255 ++ rest).
    2:{ clear. induction k as [|k IH]; [done|]. simpl. rewrite <- IH. done. }
    rewrite !parseData_two_FF by done.
    by rewrite parseData_sync.
Qed.

Lemma C6_leading_noise_ignored_witness :
  (forall s, Packet.parseData Packet.new0 ([0x00; 0x17] ++ s)
             = Packet.parseData Packet.new0 s) /\
  (forall k rest,
      Packet.parseData Packet.new0
        ([0x00; 0x17] ++ replicate k 0xFF ++ 0xFF :: 0xFF :: rest)
      = Packet.parseData Packet.new0 (0xFF :: 0xFF :: rest)).
Proof.
  apply (C6_leading_noise_ignored Packet.new0 [0x00; 0x17]).
  - reflexivity.
  - repeat constructor; discriminate.
Defined.

(** C6 as stated fails.  In front of the well-formed frame
    [FF FF 01 04 02 2B 01 CC] the three noise bytes [FF FF 01] are taken
    for sync bytes and an id, the frame's own bytes for a length, a command
    and parameters, and the result is [NOT_DONE] where the frame alone
    gives [NONE]. *)
Lemma C6_counterexample :
  let parse s := p ← Packet.new 8 (replicate 8 0); fst <$> Packet.parseData p s in
  parse [0xFF; 0xFF; 0x01; 0x04; 0x02; 0x2B; 0x01; 0xCC] = Some Error.NONE /\
  parse ([0xFF; 0xFF; 0x01] ++ [0xFF; 0xFF; 0x01; 0x04; 0x02; 0x2B; 0x01; 0xCC])
  = Some Error.NOT_DONE.
Proof. split; vm_compute; reflexivity. Qed.

Lemma load8_nat buf (k : nat) : load8 buf (Z.of_nat k) = buf !! k.
Proof.
  unfold load8. destruct (Z.leb_spec 0 (Z.of_nat k)); [|lia]. by rewrite Nat2Z.id.
Qed.

Lemma sum_params_spec buf n : forall k acc,
  (k + n <= length buf)%nat ->
  Packet.sum_params buf (Z.of_nat k) n acc = Some (sum8 acc (take n (drop k buf))).
Proof.
  induction n as [|n IH]; intros k acc Hlen; [done|].
  simpl. rewrite load8_nat.
  destruct (lookup_lt_is_Some_2 buf k) as [v Hv]; [lia|].
  rewrite Hv. simpl.
  replace (Z.of_nat k + 1) with (Z.of_nat (S k)) by lia.
  rewrite IH by lia.
  rewrite (drop_S buf v k Hv). done.
Qed.

Lemma data_loop_spec p maxLen n : forall k out,
  Z.of_nat (k + n) <= Packet.m_maxParams p ->
  (k + n <= length (Packet.m_params p))%nat ->
  Z.of_nat (length out + n) <= maxLen ->
  Packet.data_loop p maxLen (Z.of_nat k) n out
  = Some (false, out ++ take n (drop k (Packet.m_params p))).
Proof.
  induction n as [|n IH]; intros k out Hmx Hlen Hout.
  - simpl. by rewrite app_nil_r.
  - simpl. destruct (Z.leb_spec (Packet.m_maxParams p) (Z.of_nat k)); [lia|].
    destruct (Z.ltb_spec (Z.of_nat (length out)) maxLen); [|lia].
    rewrite load8_nat.
    destruct (lookup_lt_is_Some_2 (Packet.m_params p) k) as [v Hv]; [lia|].
    rewrite Hv. simpl.
    replace (Z.of_nat k + 1) with (Z.of_nat (S k)) by lia.
    rewrite IH; [| lia | lia | rewrite length_app; simpl; lia].
    rewrite (drop_S _ v k Hv). simpl. by rewrite <- app_assoc.
Qed.

Lemma emit_room maxLen out v :
  Z.of_nat (length out) < maxLen -> Packet.emit maxLen out v = out ++ [v].
Proof.
  intros H. unfold Packet.emit.
  destruct (Z.ltb_spec (Z.of_nat (length out)) maxLen); [done|lia].
Qed.

(** Serialization of a frame whose parameters fit the storage, into a
    buffer that is large enough. *)
Lemma data_frame p maxLen (N : nat) :
  Packet.numParams p = Z.of_nat N ->
  Z.of_nat N <= Packet.m_maxParams p ->
  (N <= length (Packet.m_params p))%nat ->
  Z.of_nat N + 6 <= maxLen ->
  Packet.data maxLen p
  = Some (Z.of_nat N + 6,
          [0xFF; 0xFF; Packet.id p; Packet.length p; Packet.command p]
            ++ take N (Packet.m_params p) ++ [Packet.checksum p]).
Proof.
  intros HN Hmx Hlen Hmax. unfold Packet.data.
  rewrite (emit_room maxLen []) by (simpl; lia). cbn [app].
  rewrite (emit_room maxLen [_]) by (simpl; lia). cbn [app].
  rewrite (emit_room maxLen [_; _]) by (simpl; lia). cbn [app].
  rewrite (emit_room maxLen [_; _; _]) by (simpl; lia). cbn [app].
  rewrite (emit_room maxLen [_; _; _; _]) by (simpl; lia). cbn [app].
  rewrite HN, Nat2Z.id.
  rewrite (data_loop_spec p maxLen N 0); [| simpl; lia | simpl; lia | simpl; lia].
  rewrite drop_0.
  set (ps := take N (Packet.m_params p)).
  assert (Hps : length ps = N) by (unfold ps; rewrite length_take; lia).
  cbn [mbind option_bind].
  assert (Hl : length ([255; 255; Packet.id p; Packet.length p; Packet.command p]
                         ++ ps) = (5 + N)%nat).
  { rewrite length_app, Hps. done. }
  rewrite emit_room by (rewrite Hl; lia).
  rewrite length_app, Hl. cbn [length].
  rewrite <- app_assoc. do 2 f_equal. lia.
Qed.

Lemma feed_app p a b :
  Packet.feed p (a ++ b)
  = '(ea, p1) ← Packet.feed p a; '(eb, p2) ← Packet.feed p1 b; Some (ea ++ eb, p2).
Proof.
  revert p. induction a as [|x a IH]; intros p; simpl.
  - destruct (Packet.feed p b) as [[eb p2]|]; done.
  - destruct (Packet.processByte x p) as [[e p1]|]; simpl; [|done].
    rewrite IH. destruct (Packet.feed p1 a) as [[ea p2]|]; simpl; [|done].
    destruct (Packet.feed p2 b) as [[eb p3]|]; done.
Qed.

(** Parameter bytes that are all within the declared count and within the
    capacity are stored in order, each answered with [NOT_DONE]. *)
Lemma feed_params ps : forall (k : nat) mx buf i len cmd cks,
  Z.of_nat (k + length ps) <= (if len <=? 2 then 0 else uint8 (len - 2)) ->
  Z.of_nat (k + length ps) <= mx ->
  mx <= Z.of_nat (length buf) ->
  Packet.feed (Packet.mk Packet.COMMAND_RCVD mx buf i len cmd (Z.of_nat k) cks) ps
  = Some (replicate (length ps) Error.NOT_DONE,
          Packet.mk Packet.COMMAND_RCVD mx
            (take k buf ++ ps ++ drop (k + length ps) buf)
            i len cmd (Z.of_nat (k + length ps)) (sum8 cks ps)).
Proof.
  induction ps as [|v ps IH]; intros k mx buf i len cmd cks HN Hmx Hbuf.
  - simpl. rewrite Nat.add_0_r, take_drop. done.
  - simpl in HN, Hmx. simpl Packet.feed.
    unfold Packet.processByte, Packet.numParams. simpl.
    pose proof (uint8_range (len - 2)) as Hu.
    destruct (Z.leb_spec (if len <=? 2 then 0 else uint8 (len - 2)) (Z.of_nat k));
      [lia|].
    destruct (Z.ltb_spec (Z.of_nat k) mx); [|lia].
    rewrite store8_in_range by lia. simpl.
    rewrite Nat2Z.id.
    rewrite (uint8_small (Z.of_nat k + 1)) by (destruct (len <=? 2); lia).
    replace (Z.of_nat k + 1) with (Z.of_nat (S k)) by lia.
    pk_simpl.
    rewrite IH; [| rewrite ?length_insert; simpl in *; lia ..].
    cbn [mbind option_bind]. do 2 f_equal.
    assert (Hk : (k < length buf)%nat) by lia.
    f_equal.
    + rewrite (take_S_r (<[k:=v]> buf) k v) by (by apply list_lookup_insert_eq).
      rewrite take_insert_ge by lia.
      rewrite <- app_assoc. cbn [app].
      rewrite drop_insert_lt by lia.
      replace (S k + length ps)%nat with (k + S (length ps))%nat by lia. done.
    + f_equal. lia.
Qed.
Lemma declared_count (N : nat) :
  Z.of_nat N <= 253 ->
  (if Z.of_nat N + 2 <=? 2 then 0 else uint8 (Z.of_nat N + 2 - 2)) = Z.of_nat N.
Proof.
  intros HN. destruct (Z.leb_spec (Z.of_nat N + 2) 2); [lia|].
  rewrite uint8_small; lia.
Qed.

Lemma processByte_capture_id mx buf i0 len0 cmd0 idx0 cks0 i :
  i <> 0xFF ->
  Packet.processByte i (Packet.mk Packet.FF_2ND_RCVD mx buf i0 len0 cmd0 idx0 cks0)
  = Some (Error.NOT_DONE, Packet.mk Packet.ID_RCVD mx buf i len0 cmd0 idx0 i).
Proof.
  intros Hi. unfold Packet.processByte. cbn [Packet.m_state].
  destruct (Z.eqb_spec i 255); done.
Qed.

(** An idle codec fed the two sync bytes and a header. *)
Lemma feed_header mx buf i0 len0 cmd0 idx0 cks0 i len c :
  i <> 0xFF ->
  Packet.feed (Packet.mk Packet.IDLE mx buf i0 len0 cmd0 idx0 cks0)
    [0xFF; 0xFF; i; len; c]
  = Some (replicate 5 Error.NOT_DONE,
          Packet.mk Packet.COMMAND_RCVD mx buf i len c 0
            (uint8 (uint8 (i + len) + c))).
Proof.
  intros Hi.
  change [255; 255; i; len; c] with ([255; 255] ++ [i] ++ [len; c]).
  rewrite feed_app.
  replace (Packet.feed (Packet.mk Packet.IDLE mx buf i0 len0 cmd0 idx0 cks0) [255; 255])
    with (Some ([Error.NOT_DONE; Error.NOT_DONE],
                Packet.mk Packet.FF_2ND_RCVD mx buf i0 len0 cmd0 idx0 cks0))
    by reflexivity.
  cbn [mbind option_bind]. rewrite feed_app.
  cbn [Packet.feed]. rewrite processByte_capture_id by done.
  reflexivity.
Qed.

(** An idle codec fed a well-formed frame whose parameters fit. *)
Lemma feed_frame mx buf i0 len0 cmd0 idx0 cks0 i c ps :
  i <> 0xFF ->
  Z.of_nat (length ps) <= 253 ->
  Z.of_nat (length ps) <= mx ->
  mx <= Z.of_nat (length buf) ->
  Packet.feed (Packet.mk Packet.IDLE mx buf i0 len0 cmd0 idx0 cks0)
    ([0xFF; 0xFF; i; Z.of_nat (length ps) + 2; c] ++ ps
       ++ [frame_checksum i (Z.of_nat (length ps) + 2) c ps])
  = Some (replicate (5 + length ps) Error.NOT_DONE ++ [Error.NONE],
          Packet.mk Packet.IDLE mx (ps ++ drop (length ps) buf) i
            (Z.of_nat (length ps) + 2) c (Z.of_nat (length ps))
            (frame_checksum i (Z.of_nat (length ps) + 2) c ps)).
Proof.
  intros Hi HN Hmx Hbuf.
  set (N := length ps) in *.
  rewrite feed_app, feed_header by done.
  cbn [mbind option_bind].
  rewrite feed_app.
  rewrite (feed_params ps 0); fold N;
    [| rewrite declared_count by lia; lia | lia | lia].
  cbn [mbind option_bind Nat.add take app].
  cbn [Packet.feed].
  unfold Packet.processByte, Packet.numParams. pk_simpl.
  rewrite declared_count by lia.
  rewrite Z.leb_refl.
  unfold frame_checksum. rewrite Z.eqb_refl.
  destruct (Z.leb_spec (Z.of_nat N) mx); [|lia].
  reflexivity.
Qed.

Lemma make_frame_spec C storage i c ps :
  0 <= C <= Packet.MAX_PARAMS ->
  Z.of_nat (length ps) <= C ->
  C <= Z.of_nat (length storage) ->
  make_frame C storage i c ps
  = Some (Packet.mk Packet.IDLE C (ps ++ drop (length ps) storage) i
            (Z.of_nat (length ps) + 2) c 0
            (frame_checksum i (Z.of_nat (length ps) + 2) c ps)).
Proof.
  intros HC HN Hst. unfold Packet.MAX_PARAMS in HC.
  set (N := length ps) in *.
  unfold make_frame, Packet.new, Packet.MAX_PARAMS.
  destruct (Z.leb_spec C (255 - 2)); [|lia].
  rewrite (uint8_small C) by lia.
  cbn [mbind option_bind].
  unfold Packet.params, Packet.set_command, Packet.set_id. pk_simpl. fold N.
  destruct (Z.leb_spec (Z.of_nat N) C); [|lia].
  assert (Hsel : (if C <=? Z.of_nat N then C else Z.of_nat N) = Z.of_nat N).
  { destruct (Z.leb_spec C (Z.of_nat N)); lia. }
  rewrite Hsel.
  unfold memcpy. fold N.
  destruct (Z.leb_spec 0 (Z.of_nat N)); [|lia].
  destruct (Z.leb_spec (Z.of_nat N) (Z.of_nat N)); [|lia].
  destruct (Z.leb_spec (Z.of_nat N) (Z.of_nat (length storage))); [|lia].
  cbn [andb mbind option_bind]. rewrite Nat2Z.id.
  rewrite (take_ge ps N) by (unfold N; lia). pk_simpl.
  rewrite (uint8_small (Z.of_nat N)) by lia.
  rewrite Z.min_l by lia.
  rewrite (uint8_small (2 + Z.of_nat N)) by lia.
  unfold Packet.update_checksum, Packet.numParams, Packet.id, Packet.length,
    Packet.command. pk_simpl.
  replace (2 + Z.of_nat N) with (Z.of_nat N + 2) by lia.
  rewrite declared_count by lia. rewrite Nat2Z.id.
  rewrite (sum_params_spec _ N 0).
  2:{ rewrite length_app, length_drop. fold N. lia. }
  rewrite drop_0. unfold N. rewrite take_app_length.
  reflexivity.
Qed.
(** C1 (amended).  For an id other than [0xFF]: a frame built with that
    id, a command and [N] parameter bytes that fit the capacity, with its
    checksum updated and serialized into a buffer of at least [N + 6]
    bytes, is [N + 6] bytes long; a fresh codec whose capacity is at least
    [N] answers [NOT_DONE] to every byte but the last, [NONE] to the last,
    and then holds the same id, command and parameter bytes. *)
Theorem C1_roundtrip (C : Z) (storage : list Z) (i c : Z) (ps : list Z)
    (C' : Z) (storage' : list Z) (maxLen : Z) :
  is_byte i -> i <> ID.INVALID -> is_byte c -> Forall is_byte ps ->
  Z.of_nat (length ps) <= C <= Packet.MAX_PARAMS ->
  C <= Z.of_nat (length storage) ->
  Z.of_nat (length ps) <= C' <= Packet.MAX_PARAMS ->
  C' <= Z.of_nat (length storage') ->
  Z.of_nat (length ps) + 6 <= maxLen ->
  exists p out q0 q,
    make_frame C storage i c ps = Some p /\
    Packet.data maxLen p = Some (Z.of_nat (length ps) + 6, out) /\
    Packet.new C' storage' = Some q0 /\
    Packet.feed q0 out
    = Some (replicate (length ps + 5) Error.NOT_DONE ++ [Error.NONE], q) /\
    Packet.id q = i /\
    Packet.command q = c /\
    Packet.numParams q = Z.of_nat (length ps) /\
    take (length ps) (Packet.m_params q) = ps.
Proof.
  intros _ Hi _ _ [HN HC] Hst [HN' HC'] Hst' Hmax.
  unfold Packet.MAX_PARAMS in *.
  assert (HC0 : 0 <= C) by lia. assert (HC0' : 0 <= C') by lia.
  eexists _, _, _, _.
  split. { apply make_frame_spec; unfold Packet.MAX_PARAMS; lia. }
  split.
  { apply data_frame.
    - unfold Packet.numParams. pk_simpl. apply declared_count. lia.
    - pk_simpl. lia.
    - pk_simpl. rewrite length_app. lia.
    - lia. }
  split.
  { unfold Packet.new, Packet.MAX_PARAMS.
    destruct (Z.leb_spec C' (255 - 2)); [|lia].
    rewrite (uint8_small C') by lia. reflexivity. }
  unfold Packet.id, Packet.length, Packet.command, Packet.checksum. pk_simpl.
  rewrite take_app_length.
  split.
  { rewrite feed_frame by (done || lia).
    replace (length ps + 5)%nat with (5 + length ps)%nat by lia. reflexivity. }
  unfold Packet.numParams. pk_simpl.
  rewrite declared_count by lia. rewrite take_app_length. done.
Qed.

Lemma C1_roundtrip_witness :
  exists p out q0 q,
    make_frame 8 (replicate 8 0) 0xFE Command.WRITE [0x03; 0x01] = Some p /\
    Packet.data 20 p = Some (Z.of_nat (length [0x03; 0x01]) + 6, out) /\
    Packet.new 2 [0; 0] = Some q0 /\
    Packet.feed q0 out
    = Some (replicate (length [0x03; 0x01] + 5) Error.NOT_DONE ++ [Error.NONE], q) /\
    Packet.id q = 0xFE /\
    Packet.command q = Command.WRITE /\
    Packet.numParams q = Z.of_nat (length [0x03; 0x01]) /\
    take (length [0x03; 0x01]) (Packet.m_params q) = [0x03; 0x01].
Proof.
  apply (C1_roundtrip 8 (replicate 8 0) 0xFE Command.WRITE [0x03; 0x01]
           2 [0; 0] 20).
  - unfold is_byte. lia.
  - discriminate.
  - unfold is_byte, Command.WRITE. lia.
  - repeat constructor; discriminate.
  - simpl. unfold Packet.MAX_PARAMS. lia.
  - simpl. lia.
  - simpl. unfold Packet.MAX_PARAMS. lia.
  - simpl. lia.
  - simpl. lia.
Defined.

(** C1 as stated fails for the id [0xFF].  The frame with id [0xFF],
    command [WRITE] and parameters [03 01] serializes to
    [FF FF FF 04 03 03 01 F5]; the codec absorbs the third [0xFF], takes
    the length byte for the id, and answers the last byte with [CHECKSUM]. *)
Lemma C1_counterexample :
  (p ← make_frame 8 (replicate 8 0) 0xFF Command.WRITE [0x03; 0x01];
   '(len, out) ← Packet.data 20 p;
   q0 ← Packet.new 8 (replicate 8 0);
   '(es, q) ← Packet.feed q0 out;
   Some (out, es, Packet.id q, Packet.command q))
  = Some ([0xFF; 0xFF; 0xFF; 0x04; 0x03; 0x03; 0x01; 0xF5],
          replicate 7 Error.NOT_DONE ++ [Error.CHECKSUM],
          0x04, 0x03).
Proof. vm_compute. reflexivity. Qed.

(** C4.  A fresh codec of capacity at least 2 fed
    [FF FF FE 04 03 03 01 F6] answers [NOT_DONE] seven times and then
    [NONE], and holds id [0xFE], length 4, command [0x03], the parameters
    [03 01] and the checksum [0xF6]. *)
Theorem C4_scenario_set_id (C : Z) (storage : list Z) :
  2 <= C <= Packet.MAX_PARAMS ->
  C <= Z.of_nat (length storage) ->
  exists p0 q,
    Packet.new C storage = Some p0 /\
    Packet.feed p0 [0xFF; 0xFF; 0xFE; 0x04; 0x03; 0x03; 0x01; 0xF6]
    = Some (replicate 7 Error.NOT_DONE ++ [Error.NONE], q) /\
    Packet.id q = 0xFE /\
    Packet.length q = 4 /\
    Packet.command q = 0x03 /\
    Packet.numParams q = 2 /\
    take 2 (Packet.m_params q) = [0x03; 0x01] /\
    Packet.checksum q = 0xF6.
Proof.
  intros [H2 HC] Hst. unfold Packet.MAX_PARAMS in *.
  eexists _, _. split.
  { unfold Packet.new, Packet.MAX_PARAMS.
    destruct (Z.leb_spec C (255 - 2)); [|lia].
    rewrite (uint8_small C) by lia. reflexivity. }
  split.
  { apply (feed_frame C storage _ _ _ _ _ 0xFE 0x03 [0x03; 0x01]);
      [discriminate | simpl; lia ..]. }
  repeat split.
Qed.

Lemma C4_scenario_set_id_witness :
  exists p0 q,
    Packet.new 32 (replicate 32 0) = Some p0 /\
    Packet.feed p0 [0xFF; 0xFF; 0xFE; 0x04; 0x03; 0x03; 0x01; 0xF6]
    = Some (replicate 7 Error.NOT_DONE ++ [Error.NONE], q) /\
    Packet.id q = 0xFE /\
    Packet.length q = 4 /\
    Packet.command q = 0x03 /\
    Packet.numParams q = 2 /\
    take 2 (Packet.m_params q) = [0x03; 0x01] /\
    Packet.checksum q = 0xF6.
Proof.
  apply (C4_scenario_set_id 32 (replicate 32 0)).
  - unfold Packet.MAX_PARAMS. lia.
  - simpl. lia.
Defined.

(** C5.  A codec of capacity 1 fed [FF FF 01 04 02 2B 01 CC] answers the
    last byte with [TOO_MUCH_DATA]; of the two parameters only the first is
    stored, at index 0, the rest of the storage being untouched; and
    [data] with room for at least 8 bytes then writes the 6 bytes
    [FF FF 01 04 02 2B]. *)
Theorem C5_scenario_too_much_data (storage : list Z) (maxLen : Z) :
  1 <= Z.of_nat (length storage) ->
  8 <= maxLen ->
  exists p0 q,
    Packet.new 1 storage = Some p0 /\
    Packet.feed p0 [0xFF; 0xFF; 0x01; 0x04; 0x02; 0x2B; 0x01; 0xCC]
    = Some (replicate 7 Error.NOT_DONE ++ [Error.TOO_MUCH_DATA], q) /\
    Packet.m_params q = <[0%nat := 0x2B]> storage /\
    Packet.m_params q !! 0%nat = Some 0x2B /\
    Packet.data maxLen q = Some (6, [0xFF; 0xFF; 0x01; 0x04; 0x02; 0x2B]).
Proof.
  intros Hst Hmax.
  destruct storage as [|a rest]; [simpl in Hst; lia|].
  exists (Packet.mk Packet.IDLE 1 (a :: rest) 0 2 1 0 0),
         (Packet.mk Packet.IDLE 1 (0x2B :: rest) 1 4 2 2 0xCC).
  split; [vm_compute; reflexivity|].
  split; [vm_compute; reflexivity|].
  split; [reflexivity|].
  split; [reflexivity|].
  unfold Packet.data, Packet.id, Packet.length, Packet.command. pk_simpl.
  rewrite (emit_room maxLen []) by (simpl; lia). cbn [app].
  rewrite (emit_room maxLen [_]) by (simpl; lia). cbn [app].
  rewrite (emit_room maxLen [_; _]) by (simpl; lia). cbn [app].
  rewrite (emit_room maxLen [_; _; _]) by (simpl; lia). cbn [app].
  rewrite (emit_room maxLen [_; _; _; _]) by (simpl; lia). cbn [app].
  change (Z.to_nat (Packet.numParams _)) with 2%nat.
  cbn [Packet.data_loop]. pk_simpl.
  change (1 <=? 0) with false. cbn [length].
  destruct (Z.ltb_spec (Z.of_nat 5) maxLen); [|lia].
  reflexivity.
Qed.

Lemma C5_scenario_too_much_data_witness :
  exists p0 q,
    Packet.new 1 (replicate 32 0) = Some p0 /\
    Packet.feed p0 [0xFF; 0xFF; 0x01; 0x04; 0x02; 0x2B; 0x01; 0xCC]
    = Some (replicate 7 Error.NOT_DONE ++ [Error.TOO_MUCH_DATA], q) /\
    Packet.m_params q = <[0%nat := 0x2B]> (replicate 32 0) /\
    Packet.m_params q !! 0%nat = Some 0x2B /\
    Packet.data 20 q = Some (6, [0xFF; 0xFF; 0x01; 0x04; 0x02; 0x2B]).
Proof.
  apply (C5_scenario_too_much_data (replicate 32 0) 20).
  - simpl. lia.
  - lia.
Defined.

(** ** The cases of PacketTest.cpp *)

Example ConstructPacketNoParams :
  (p ← Packet.params_n 0 (Packet.set_command Command.PING (Packet.set_id 1 Packet.new0));
   p ← Packet.update_checksum p;
   d ← Packet.data 20 p;
   Some (Packet.checksum p, d))
  = Some (0xFB, (6, [0xFF; 0xFF; 0x01; 0x02; 0x01; 0xFB])).
Proof. vm_compute. reflexivity. Qed.

Example SetIdTo1 :
  (p ← Packet.new 32 (replicate 32 0);
   '(e, q) ← Packet.parseData p [0xFF; 0xFF; 0xFE; 0x04; 0x03; 0x03; 0x01; 0xF6];
   d ← Packet.data 20 q;
   Some (e, Packet.id q, Packet.length q, Packet.command q,
         take 2 (Packet.m_params q), Packet.checksum q, d))
  = Some (Error.NONE, 0xFE, 4, 0x03, [0x03; 0x01], 0xF6,
          (8, [0xFF; 0xFF; 0xFE; 0x04; 0x03; 0x03; 0x01; 0xF6])).
Proof. vm_compute. reflexivity. Qed.

Example TruncatedData :
  (p ← Packet.new 32 (replicate 32 0);
   '(_, q) ← Packet.parseData p [0xFF; 0xFF; 0xFE; 0x04; 0x03; 0x03; 0x01; 0xF6];
   mapM (fun dataLen => Packet.data dataLen q) (seqZ 0 8))
  = Some ((fun n => (Z.of_nat n, take n [0xFF; 0xFF; 0xFE; 0x04; 0x03; 0x03; 0x01; 0xF6]))
            <$> seq 0 8).
Proof. vm_compute. reflexivity. Qed.

Example NoSecondFF :
  fst <$> Packet.parseData Packet.new0 [0xFF; 0x00] = Some Error.NOT_DONE.
Proof. vm_compute. reflexivity. Qed.

Example Noise :
  (p ← Packet.new 32 (replicate 32 0);
   '(e, q) ← Packet.parseData p
               [0x00; 0xFF; 0xFF; 0xFF; 0x01; 0x04; 0x02; 0x2B; 0x01; 0xCC];
   Some (e, Packet.id q, Packet.length q, Packet.command q,
         take 2 (Packet.m_params q), Packet.checksum q))
  = Some (Error.NONE, 0x01, 4, Command.READ, [0x2B; 0x01], 0xCC).
Proof. vm_compute. reflexivity. Qed.

Example Checksum :
  (p ← Packet.new 32 (replicate 32 0);
   '(e, q) ← Packet.parseData p [0xFF; 0xFF; 0x01; 0x04; 0x02; 0x2B; 0x01; 0xEE];
   d ← Packet.data 20 q;
   Some (e, Packet.checksum q, d))
  = Some (Error.CHECKSUM, 0xEE,
          (8, [0xFF; 0xFF; 0x01; 0x04; 0x02; 0x2B; 0x01; 0xEE])).
Proof. vm_compute. reflexivity. Qed.

(** * Facts about the control table *)

Section ControlTableFacts.
Context {S : Type} `{IControlTableStorage S}.
Import ControlTable.

Implicit Types c : ControlTable.t S.

Ltac ct_simpl :=
  unfold with_ctlBytes, with_storage, with_event;
  cbn [m_numCtlBytes m_numPersistentBytes m_ctlBytes m_storage events].

Lemma seqZ_1 m : seqZ m 1 = [m].
Proof. rewrite (seqZ_cons m 1) by lia. reflexivity. Qed.

Lemma seqZ_2 m : seqZ m 2 = [m; m + 1].
Proof.
  rewrite (seqZ_cons m 2) by lia. change (Z.pred 2) with 1.
  rewrite seqZ_1. f_equal.
Qed.

Lemma seqZ_snoc m n : 0 <= n -> seqZ m (n + 1) = seqZ m n ++ [m + n].
Proof. intros Hn. rewrite seqZ_app by lia. by rewrite seqZ_1. Qed.

Lemma load8_in_range buf i :
  0 <= i < Z.of_nat (length buf) -> exists v, load8 buf i = Some v.
Proof.
  intros [H0 H1]. unfold load8. destruct (Z.leb_spec 0 i); [|lia].
  destruct (lookup_lt_is_Some_2 buf (Z.to_nat i)) as [v Hv]; [lia|]. eauto.
Qed.

Lemma read_spec c i :
  0 <= i < Z.of_nat (length (m_ctlBytes c)) ->
  exists v, load8 (m_ctlBytes c) i = Some v /\
            read i c = Some (v, with_event (EvRead i) c).
Proof.
  intros Hi. destruct (load8_in_range _ _ Hi) as [v Hv].
  exists v. split; [done|]. unfold read. by rewrite Hv.
Qed.

Lemma write_spec c i v :
  0 <= i < Z.of_nat (length (m_ctlBytes c)) ->
  write i v c
  = Some (tt, with_ctlBytes (<[Z.to_nat i := v]> (m_ctlBytes c))
                (with_event (EvWrite i v) c)).
Proof. intros Hi. unfold write. by rewrite store8_in_range. Qed.

(** The loop of [get] reads downwards, one cell per iteration, and
    leaves the table alone. *)
Lemma get_loop_spec T n : forall offset val c,
  Z.of_nat n <= offset <= 256 ->
  offset <= Z.of_nat (length (m_ctlBytes c)) ->
  exists v,
    get_loop T n offset val c
    = Some (v, mk (m_numCtlBytes c) (m_numPersistentBytes c) (m_ctlBytes c)
                  (m_storage c)
                  (events c ++ (EvRead <$> reverse (seqZ (offset - Z.of_nat n) (Z.of_nat n))))).
Proof.
  induction n as [|n IH]; intros offset val c Hoff Hlen.
  - exists val. simpl. unfold ret. rewrite app_nil_r. by destruct c.
  - cbn [get_loop]. unfold bind.
    rewrite (uint8_small (offset - 1)) by lia.
    destruct (read_spec c (offset - 1)) as (b & _ & ->); [lia|].
    destruct (IH (offset - 1) (cast T (Z.lor (cast T (Z.shiftl val 8)) b))
                (with_event (EvRead (offset - 1)) c)) as [v Hv];
      [lia | simpl; lia |].
    exists v. rewrite Hv. simpl. do 3 f_equal.
    rewrite <- app_assoc. f_equal.
    replace (Z.of_nat (Datatypes.S n)) with (Z.of_nat n + 1) by lia.
    rewrite seqZ_app by lia. rewrite reverse_app. simpl.
    replace (offset - (Z.of_nat n + 1) + Z.of_nat n) with (offset - 1) by lia.
    replace (offset - 1 - Z.of_nat n) with (offset - (Z.of_nat n + 1)) by lia.
    done.
Qed.

(** The loop of [set] writes upwards, one cell per iteration. *)
Lemma set_loop_spec T n : forall offset val c,
  0 <= offset -> offset + Z.of_nat n <= 255 ->
  offset + Z.of_nat n <= Z.of_nat (length (m_ctlBytes c)) ->
  exists bytes buf,
    length bytes = n /\ length buf = length (m_ctlBytes c) /\
    set_loop T n offset val c
    = Some (offset + Z.of_nat n,
            mk (m_numCtlBytes c) (m_numPersistentBytes c) buf (m_storage c)
               (events c ++ zip_with EvWrite (seqZ offset (Z.of_nat n)) bytes)).
Proof.
  induction n as [|n IH]; intros offset val c H0 H255 Hlen.
  - exists [], (m_ctlBytes c). split; [done|]. split; [done|].
    simpl. unfold ret. rewrite app_nil_r, Z.add_0_r. by destruct c.
  - cbn [set_loop]. unfold bind.
    rewrite write_spec by lia.
    rewrite (uint8_small (offset + 1)) by lia.
    set (v := cast T (Z.shiftr val 8)).
    destruct (IH (offset + 1) v
                (with_ctlBytes (<[Z.to_nat offset := Z.land v 255]> (m_ctlBytes c))
                   (with_event (EvWrite offset (Z.land v 255)) c)))
      as (bytes & buf & Hb & Hbuf & Hloop);
      [lia | lia | simpl; rewrite length_insert; lia |].
    exists (Z.land v 255 :: bytes), buf.
    split; [simpl; lia|].
    split; [rewrite Hbuf; simpl; by rewrite length_insert|].
    rewrite Hloop. ct_simpl. do 2 f_equal; [lia|].
    f_equal. rewrite <- app_assoc. f_equal.
    replace (Z.of_nat (Datatypes.S n)) with (Z.succ (Z.of_nat n)) by lia.
    rewrite (seqZ_cons offset) by lia. cbn [zip_with app].
    replace (Z.succ offset) with (offset + 1) by lia.
    replace (Z.pred (Z.succ (Z.of_nat n))) with (Z.of_nat n) by lia. done.
Qed.

Lemma cast_unsigned_small T z :
  is_signed T = false -> 0 <= z < 2 ^ (8 * sizeof T) -> cast T z = z.
Proof. intros Hs Hz. unfold cast. rewrite Hs. by apply Z.mod_small. Qed.

Ltac ct_cbn :=
  unfold bind, this, assert, emit, ret, populateEntry,
    with_ctlBytes, with_storage, with_event;
  cbv beta iota;
  cbn [m_numCtlBytes m_numPersistentBytes m_ctlBytes m_storage events].
Ltac ct_leb :=
  match goal with
  | |- context [?a <=? ?b] => destruct (Z.leb_spec a b); [|lia]
  end; ct_cbn.
Ltac ct_read b Hb :=
  match goal with
  | |- context [read ?i ?st] =>
      destruct (read_spec st i) as (b & Hb & ->); [ct_cbn; lia|]
  end; ct_cbn.
Ltac ct_write :=
  match goal with
  | |- context [write ?i ?v ?st] =>
      rewrite (write_spec st i v) by (ct_cbn; rewrite ?length_insert; lia)
  end; ct_cbn.

(** [get]: the hook first, with the offset it was given, then the reads
    from the highest cell down; the table is not modified. *)
Lemma get_spec T offset c :
  1 <= sizeof T -> 0 <= offset ->
  offset + sizeof T <= m_numCtlBytes c <= 255 ->
  m_numCtlBytes c <= Z.of_nat (length (m_ctlBytes c)) ->
  exists v,
    get T offset c
    = Some (v, mk (m_numCtlBytes c) (m_numPersistentBytes c) (m_ctlBytes c)
                  (m_storage c)
                  (events c ++ EvPopulateEntry offset
                     :: (EvRead <$> reverse (seqZ offset (sizeof T))))).
Proof.
  intros Hw H0 [Hend H255] Hlen.
  unfold get. ct_cbn. ct_leb.
  destruct (Z.eqb_spec (sizeof T) 1) as [E1|N1].
  { ct_cbn. ct_read b Hb. rewrite E1, seqZ_1. eexists.
    by rewrite <- app_assoc. }
  destruct (Z.eqb_spec (sizeof T) 2) as [E2|N2].
  { ct_cbn. ct_read b1 Hb1. ct_read b0 Hb0. rewrite E2, seqZ_2. eexists.
    by rewrite <- !app_assoc. }
  rewrite (uint8_small (offset + sizeof T)) by lia.
  rewrite (uint8_small (offset + sizeof T - 1)) by lia.
  ct_cbn. ct_read b Hb.
  match goal with
  | |- context [get_loop T ?n ?o ?v ?st] =>
      destruct (get_loop_spec T n o v st) as [r ->]; [lia | ct_cbn; lia |]
  end.
  exists r. ct_cbn. do 3 f_equal. rewrite <- !app_assoc. cbn [app]. do 2 f_equal.
  rewrite Z2Nat.id by lia.
  replace (offset + sizeof T - 1 - (sizeof T - 1)) with offset by lia.
  replace (sizeof T) with ((sizeof T - 1) + 1) at 3 by lia.
  rewrite seqZ_snoc by lia. rewrite reverse_app.
  replace (offset + (sizeof T - 1)) with (offset + sizeof T - 1) by lia. done.
Qed.

(** The base [entryModified]: nothing but the call itself, unless the
    offset is [BAUD], when the divisor is read back through [get_u8] and
    the port is told the bit rate. *)
Lemma entryModified_spec h c :
  Offset.BAUD + 1 <= m_numCtlBytes c ->
  m_numCtlBytes c <= Z.of_nat (length (m_ctlBytes c)) ->
  exists tail,
    entryModified h c
    = Some (tt, mk (m_numCtlBytes c) (m_numPersistentBytes c) (m_ctlBytes c)
                   (m_storage c) (events c ++ EvEntryModified h :: tail)) /\
    ((h <> Offset.BAUD /\ tail = []) \/
     (h = Offset.BAUD /\
      exists b, load8 (m_ctlBytes c) Offset.BAUD = Some b /\
        tail = [EvPopulateEntry Offset.BAUD; EvRead Offset.BAUD;
                EvSetBaudRate
                  (cast uint32_t (2000000 / cast uint32_t (cast uint8_t b + 1)))])).
Proof.
  intros HB Hlen.
  unfold entryModified, Offset.BAUD in *. ct_cbn.
  destruct (Z.eqb_spec h 4) as [->|Hne].
  - unfold get_u8, get_as, get. change (sizeof uint8_t) with 1. ct_cbn.
    ct_leb. ct_leb. change (1 =? 1) with true. ct_cbn.
    ct_read b Hb. unfold with_event in Hb; cbn [m_ctlBytes] in Hb.
    eexists. split.
    + rewrite <- !app_assoc. cbn [app]. reflexivity.
    + right. split; [done|]. exists b. split; [exact Hb|done].
  - exists []. split; [|left; done]. ct_cbn. reflexivity.
Qed.

(** [set]: the writes from the lowest cell up, then the hook. *)
Lemma set_spec T offset val c :
  1 <= sizeof T -> 0 <= offset ->
  offset + sizeof T <= m_numCtlBytes c <= 255 ->
  Offset.BAUD + 1 <= m_numCtlBytes c ->
  m_numCtlBytes c <= Z.of_nat (length (m_ctlBytes c)) ->
  exists bytes buf tail,
    length bytes = Z.to_nat (sizeof T) /\
    length buf = length (m_ctlBytes c) /\
    set T offset val c
    = Some (tt, mk (m_numCtlBytes c) (m_numPersistentBytes c) buf (m_storage c)
                   (events c ++ zip_with EvWrite (seqZ offset (sizeof T)) bytes
                      ++ EvEntryModified
                           (if sizeof T =? 1 then offset else offset + sizeof T)
                      :: tail)) /\
    (tail = [] \/
     exists r, tail = [EvPopulateEntry Offset.BAUD; EvRead Offset.BAUD;
                       EvSetBaudRate r]).
Proof.
  intros Hw H0 [Hend H255] HB Hlen.
  unfold set. ct_cbn. ct_leb.
  set (v := cast T val).
  destruct (Z.eqb_spec (sizeof T) 1) as [E1|N1].
  { ct_cbn. ct_write.
    match goal with
    | |- context [entryModified ?h ?st] =>
        destruct (entryModified_spec h st) as (tail & -> & Htail);
        [ct_cbn; lia | ct_cbn; rewrite ?length_insert; lia |]
    end.
    eexists [_], _, tail. rewrite E1, seqZ_1. ct_cbn.
    split; [done|]. split; [|split].
    2:{ rewrite <- !app_assoc. reflexivity. }
    - by rewrite length_insert.
    - destruct Htail as [[_ ->]|(_ & b & _ & ->)]; eauto. }
  destruct (Z.eqb_spec (sizeof T) 2) as [E2|N2].
  { ct_cbn. ct_write.
    rewrite (uint8_small (offset + 1)) by lia. ct_write.
    rewrite (uint8_small (offset + 1 + 1)) by lia.
    match goal with
    | |- context [entryModified ?h ?st] =>
        destruct (entryModified_spec h st) as (tail & -> & Htail);
        [ct_cbn; lia | ct_cbn; rewrite ?length_insert; lia |]
    end.
    eexists [_; _], _, tail. rewrite E2, seqZ_2. ct_cbn.
    split; [done|]. split; [|split].
    2:{ rewrite <- !app_assoc. cbn [app zip_with].
        replace (offset + 1 + 1) with (offset + 2) by lia. reflexivity. }
    - by rewrite !length_insert.
    - destruct Htail as [[_ ->]|(_ & b & _ & ->)]; eauto. }
  ct_cbn. ct_write.
  rewrite (uint8_small (offset + 1)) by lia.
  match goal with
  | |- context [set_loop T ?n ?o ?x ?st] =>
      destruct (set_loop_spec T n o x st) as (bytes & buf & Hb & Hbuf & ->);
      [lia | lia | ct_cbn; rewrite ?length_insert; lia |]
  end.
  ct_cbn. unfold with_ctlBytes, with_event in Hbuf; cbn [m_ctlBytes] in Hbuf.
  rewrite length_insert in Hbuf.
  match goal with
  | |- context [entryModified ?h ?st] =>
      destruct (entryModified_spec h st) as (tail & -> & Htail);
      [ct_cbn; lia | ct_cbn; lia |]
  end.
  exists (Z.land v 255 :: bytes), buf, tail. ct_cbn.
  split; [cbn [length]; lia|]. split; [done|]. split.
  - rewrite Z2Nat.id by lia. do 3 f_equal.
    + rewrite <- !app_assoc. cbn [app]. f_equal.
      rewrite (seqZ_cons offset (sizeof T)) by lia. cbn [zip_with].
      replace (Z.succ offset) with (offset + 1) by lia.
      replace (Z.pred (sizeof T)) with (sizeof T - 1) by lia.
      cbn [app]. do 4 f_equal. lia.
  - destruct Htail as [[_ ->]|(_ & b & _ & ->)]; eauto.
Qed.

(** C8 (amended).  On a table that holds the base registers, every
    in-bounds [get] calls [populateEntry] exactly once, before any byte is
    read, with the offset of the field; every in-bounds [set] calls
    [entryModified] exactly once, after all bytes are written, and a
    one-byte [set] hands it the offset of the field.  What follows the
    call of [entryModified] is the body of the base hook: nothing, or the
    read-back of the baud divisor and the notification of the port. *)
Theorem C8_hook_calls (T : IntType) (offset val : Z) (c : ControlTable.t S) :
  1 <= sizeof T -> 0 <= offset ->
  offset + sizeof T <= m_numCtlBytes c <= 255 ->
  Offset.BAUD + 1 <= m_numCtlBytes c ->
  m_numCtlBytes c <= Z.of_nat (length (m_ctlBytes c)) ->
  (exists v c',
      get T offset c = Some (v, c') /\
      m_ctlBytes c' = m_ctlBytes c /\
      events c'
      = events c ++ EvPopulateEntry offset
          :: (EvRead <$> reverse (seqZ offset (sizeof T)))) /\
  (exists bytes h tail c',
      set T offset val c = Some (tt, c') /\
      length bytes = Z.to_nat (sizeof T) /\
      events c'
      = events c ++ zip_with EvWrite (seqZ offset (sizeof T)) bytes
          ++ EvEntryModified h :: tail /\
      (sizeof T = 1 -> h = offset) /\
      (tail = [] \/
       exists r, tail = [EvPopulateEntry Offset.BAUD; EvRead Offset.BAUD;
                         EvSetBaudRate r])).
Proof.
  intros Hw H0 Hend HB Hlen. split.
  - destruct (get_spec T offset c Hw H0 Hend Hlen) as [v Hget].
    eexists v, _. split; [exact Hget|]. split; reflexivity.
  - destruct (set_spec T offset val c Hw H0 Hend HB Hlen)
      as (bytes & buf & tail & Hb & _ & Hset & Htail).
    eexists bytes, _, tail, _. split; [exact Hset|]. split; [exact Hb|].
    split; [reflexivity|]. split; [|exact Htail].
    intros ->. reflexivity.
Qed.

(** A one-byte [set] at the baud-divisor offset: the store, the hook, the
    read-back through [get_u8], and the call on the port. *)
Lemma baud_write_spec (b : Z) (c : ControlTable.t S) :
  is_byte b ->
  Offset.BAUD + 1 <= m_numCtlBytes c ->
  m_numCtlBytes c <= Z.of_nat (length (m_ctlBytes c)) ->
  set uint8_t Offset.BAUD b c
  = Some (tt, mk (m_numCtlBytes c) (m_numPersistentBytes c)
                 (<[Z.to_nat Offset.BAUD := b]> (m_ctlBytes c)) (m_storage c)
                 (events c ++ [EvWrite Offset.BAUD b; EvEntryModified Offset.BAUD;
                               EvPopulateEntry Offset.BAUD; EvRead Offset.BAUD;
                               EvSetBaudRate (2000000 / (b + 1))])).
Proof.
  intros Hb HB Hlen. unfold is_byte, Offset.BAUD in *.
  assert (Hc8 : cast uint8_t b = b).
  { apply cast_unsigned_small; [done|]. change (2 ^ (8 * sizeof uint8_t)) with 256. lia. }
  unfold set. rewrite Hc8. change (sizeof uint8_t) with 1.
  change (1 =? 1) with true. ct_cbn. ct_leb.
  rewrite (uint8_small b) by lia. ct_write.
  match goal with
  | |- context [entryModified ?h ?st] =>
      destruct (entryModified_spec h st) as (tail & -> & Htail);
      [ct_cbn; unfold Offset.BAUD; lia | ct_cbn; rewrite length_insert; lia |]
  end.
  destruct Htail as [[Hne _]|(_ & b' & Hb' & ->)]; [done|].
  ct_cbn. cbn [m_ctlBytes] in Hb'. unfold Offset.BAUD, load8 in Hb'.
  change (0 <=? 4) with true in Hb'. cbv iota in Hb'.
  rewrite list_lookup_insert_eq in Hb' by lia. injection Hb' as <-.
  rewrite Hc8.
  assert (Hc32 : cast uint32_t (b + 1) = b + 1).
  { apply cast_unsigned_small; [done|].
    change (2 ^ (8 * sizeof uint32_t)) with 4294967296. lia. }
  rewrite Hc32.
  assert (Hq : 0 <= 2000000 / (b + 1) <= 2000000).
  { split; [apply Z.div_pos; lia|].
    apply Z.div_le_upper_bound; nia. }
  rewrite (cast_unsigned_small uint32_t (2000000 / (b + 1)));
    [| done | change (2 ^ (8 * sizeof uint32_t)) with 4294967296; lia].
  by rewrite <- !app_assoc.
Qed.

(** C9.  A one-byte [set] of [0x01] at the baud-divisor offset makes
    exactly one call of the port's [setBaudRate], with the argument
    [1000000]; and a one-byte [set] of any byte [b] there stores [b] and
    makes exactly one such call, with the argument [2000000 / (b + 1)]. *)
Theorem C9_baud_write (c : ControlTable.t S) :
  Offset.BAUD + 1 <= m_numCtlBytes c ->
  m_numCtlBytes c <= Z.of_nat (length (m_ctlBytes c)) ->
  (exists c',
      set uint8_t Offset.BAUD 0x01 c = Some (tt, c') /\
      events c'
      = events c ++ [EvWrite Offset.BAUD 0x01; EvEntryModified Offset.BAUD;
                     EvPopulateEntry Offset.BAUD; EvRead Offset.BAUD;
                     EvSetBaudRate 1000000]) /\
  (forall b, is_byte b ->
     exists c',
       set uint8_t Offset.BAUD b c = Some (tt, c') /\
       m_ctlBytes c' = <[Z.to_nat Offset.BAUD := b]> (m_ctlBytes c) /\
       events c'
       = events c ++ [EvWrite Offset.BAUD b; EvEntryModified Offset.BAUD;
                      EvPopulateEntry Offset.BAUD; EvRead Offset.BAUD;
                      EvSetBaudRate (2000000 / (b + 1))]).
Proof.
  intros HB Hlen. split.
  - eexists. split; [apply baud_write_spec; [unfold is_byte; lia|done..]|].
    reflexivity.
  - intros b Hb. eexists. split; [by apply baud_write_spec|].
    split; reflexivity.
Qed.

(** C10.  When the storage object reports success, [load] first clears
    all [m_numCtlBytes] bytes and then hands the buffer to the storage
    object: afterwards the first [m_numCtlBytes] bytes are the loaded
    bytes followed by zeros, and every byte from [m_numPersistentBytes]
    up to [m_numCtlBytes] is zero. *)
Theorem C10_load_clears_volatile (c : ControlTable.t S) :
  0 <= m_numPersistentBytes c <= m_numCtlBytes c ->
  m_numCtlBytes c <= Z.of_nat (length (m_ctlBytes c)) ->
  (storage_load (m_storage c) 0 (m_numPersistentBytes c)).1.1 = STORAGE_NONE ->
  exists c',
    load c = Some (tt, c') /\
    events c'
    = events c ++ [EvMemset (m_numCtlBytes c);
                   EvStorageLoad 0 (m_numPersistentBytes c)] /\
    (let bytes := (storage_load (m_storage c) 0 (m_numPersistentBytes c)).1.2 in
     take (Z.to_nat (m_numCtlBytes c)) (m_ctlBytes c')
     = bytes ++ replicate (Z.to_nat (m_numCtlBytes c) - length bytes) 0) /\
    (forall i, m_numPersistentBytes c <= i < m_numCtlBytes c ->
               m_ctlBytes c' !! Z.to_nat i = Some 0).
Proof.
  intros [Hp0 Hpn] Hlen Hrc.
  pose proof (storage_load_bound (m_storage c) 0 (m_numPersistentBytes c) Hp0) as Hbound.
  set (n := m_numCtlBytes c) in *. set (np := m_numPersistentBytes c) in *.
  unfold load, memset_ctlBytes, call_storage_load. ct_cbn. fold n np.
  unfold memset0.
  destruct (Z.leb_spec 0 n); [|lia].
  destruct (Z.leb_spec n (Z.of_nat (length (m_ctlBytes c)))); [|lia].
  cbn [andb]. cbv beta iota. ct_cbn. fold n np.
  destruct (storage_load (m_storage c) 0 np) as [[rc bytes] s'] eqn:Eload.
  cbn [fst snd] in Hrc, Hbound. subst rc.
  set (zeroed := replicate (Z.to_nat n) 0 ++ drop (Z.to_nat n) (m_ctlBytes c)).
  assert (Hz : length zeroed = length (m_ctlBytes c)).
  { unfold zeroed. rewrite length_app, length_replicate, length_drop. lia. }
  unfold memcpy. rewrite Hz.
  destruct (Z.leb_spec 0 (Z.of_nat (length bytes))); [|lia].
  destruct (Z.leb_spec (Z.of_nat (length bytes)) (Z.of_nat (length bytes))); [|lia].
  destruct (Z.leb_spec (Z.of_nat (length bytes)) (Z.of_nat (length (m_ctlBytes c))));
    [|lia].
  cbn [andb]. cbv beta iota. rewrite Nat2Z.id, firstn_all.
  eexists. split; [reflexivity|]. ct_cbn.
  split; [by rewrite <- !app_assoc|].
  assert (Hdrop : drop (length bytes) zeroed
                  = replicate (Z.to_nat n - length bytes) 0
                      ++ drop (Z.to_nat n) (m_ctlBytes c)).
  { unfold zeroed. rewrite drop_app_le by (rewrite length_replicate; lia).
    by rewrite drop_replicate. }
  rewrite Hdrop. split.
  - cbn [fst snd]. rewrite app_assoc. apply take_app_length'.
    rewrite length_app, length_replicate. lia.
  - intros i Hi.
    rewrite lookup_app_r by lia.
    rewrite lookup_app_l by (rewrite length_replicate; lia).
    apply lookup_replicate_2. lia.
Qed.

End ControlTableFacts.

Lemma C8_hook_calls_witness :
  (exists v c',
      ControlTable.get ControlTable.uint8_t 0x05 test_table = Some (v, c') /\
      ControlTable.m_ctlBytes c' = ControlTable.m_ctlBytes test_table /\
      ControlTable.events c'
      = ControlTable.events test_table ++ ControlTable.EvPopulateEntry 0x05
          :: (ControlTable.EvRead
                <$> reverse (seqZ 0x05 (ControlTable.sizeof ControlTable.uint8_t)))) /\
  (exists bytes h tail c',
      ControlTable.set ControlTable.uint8_t 0x05 0xFA test_table = Some (tt, c') /\
      length bytes = Z.to_nat (ControlTable.sizeof ControlTable.uint8_t) /\
      ControlTable.events c'
      = ControlTable.events test_table
          ++ zip_with ControlTable.EvWrite
               (seqZ 0x05 (ControlTable.sizeof ControlTable.uint8_t)) bytes
          ++ ControlTable.EvEntryModified h :: tail /\
      (ControlTable.sizeof ControlTable.uint8_t = 1 -> h = 0x05) /\
      (tail = [] \/
       exists r, tail = [ControlTable.EvPopulateEntry ControlTable.Offset.BAUD;
                         ControlTable.EvRead ControlTable.Offset.BAUD;
                         ControlTable.EvSetBaudRate r])).
Proof.
  apply (C8_hook_calls ControlTable.uint8_t 0x05 0xFA test_table).
  - simpl. lia.
  - lia.
  - simpl. lia.
  - simpl. unfold ControlTable.Offset.BAUD. lia.
  - simpl. lia.
Defined.

(** C8 as stated fails: the two-byte [get] at offset [0x0A] hands
    [populateEntry] the offset [0x0A], not [0x0C], and the one-byte [set]
    at offset [0x05] hands [entryModified] the offset [0x05], not [0x06]. *)
Lemma C8_counterexample :
  events_of (ControlTable.get ControlTable.uint16_t 0x0A test_table)
  = [ControlTable.EvPopulateEntry 0x0A; ControlTable.EvRead 0x0B;
     ControlTable.EvRead 0x0A] /\
  0x0A <> 0x0A + ControlTable.sizeof ControlTable.uint16_t /\
  events_of (ControlTable.set ControlTable.uint8_t 0x05 0xFA test_table)
  = [ControlTable.EvWrite 0x05 0xFA; ControlTable.EvEntryModified 0x05] /\
  0x05 <> 0x05 + ControlTable.sizeof ControlTable.uint8_t.
Proof. repeat split; (vm_compute; reflexivity) || discriminate. Qed.

Lemma C9_baud_write_witness :
  (exists c',
      ControlTable.set ControlTable.uint8_t ControlTable.Offset.BAUD 0x01 test_table
      = Some (tt, c') /\
      ControlTable.events c'
      = ControlTable.events test_table
          ++ [ControlTable.EvWrite ControlTable.Offset.BAUD 0x01;
              ControlTable.EvEntryModified ControlTable.Offset.BAUD;
              ControlTable.EvPopulateEntry ControlTable.Offset.BAUD;
              ControlTable.EvRead ControlTable.Offset.BAUD;
              ControlTable.EvSetBaudRate 1000000]) /\
  (forall b, is_byte b ->
     exists c',
       ControlTable.set ControlTable.uint8_t ControlTable.Offset.BAUD b test_table
       = Some (tt, c') /\
       ControlTable.m_ctlBytes c'
       = <[Z.to_nat ControlTable.Offset.BAUD := b]> (ControlTable.m_ctlBytes test_table) /\
       ControlTable.events c'
       = ControlTable.events test_table
           ++ [ControlTable.EvWrite ControlTable.Offset.BAUD b;
               ControlTable.EvEntryModified ControlTable.Offset.BAUD;
               ControlTable.EvPopulateEntry ControlTable.Offset.BAUD;
               ControlTable.EvRead ControlTable.Offset.BAUD;
               ControlTable.EvSetBaudRate (2000000 / (b + 1))]).
Proof.
  apply (C9_baud_write test_table).
  - simpl. unfold ControlTable.Offset.BAUD. lia.
  - simpl. lia.
Defined.

Lemma C10_load_clears_volatile_witness :
  exists c',
    ControlTable.load test_table = Some (tt, c') /\
    ControlTable.events c'
    = ControlTable.events test_table
        ++ [ControlTable.EvMemset (ControlTable.m_numCtlBytes test_table);
            ControlTable.EvStorageLoad 0 (ControlTable.m_numPersistentBytes test_table)] /\
    (let bytes := (storage_load (ControlTable.m_storage test_table) 0
                     (ControlTable.m_numPersistentBytes test_table)).1.2 in
     take (Z.to_nat (ControlTable.m_numCtlBytes test_table)) (ControlTable.m_ctlBytes c')
     = bytes ++ replicate (Z.to_nat (ControlTable.m_numCtlBytes test_table)
                             - length bytes) 0) /\
    (forall i, ControlTable.m_numPersistentBytes test_table <= i
               < ControlTable.m_numCtlBytes test_table ->
               ControlTable.m_ctlBytes c' !! Z.to_nat i = Some 0).
Proof.
  apply (C10_load_clears_volatile test_table).
  - simpl. lia.
  - simpl. lia.
  - reflexivity.
Defined.

Example load_test_table :
  match ControlTable.load test_table with
  | Some (_, c') => ControlTable.ctlBytes c'
  | None => []
  end = (Z.of_nat <$> seq 1 16) ++ replicate 16 0.
Proof. vm_compute. reflexivity. Qed.

Example InitialValue :
  match ControlTable.setToInitialValues test_table with
  | Some (_, c') => take 6 (ControlTable.ctlBytes c')
  | None => []
  end = [0; 0; 0; ControlTable.DEFAULT_DEVICE_ID; ControlTable.DEFAULT_BAUD;
         ControlTable.DEFAULT_RDT].
Proof. vm_compute. reflexivity. Qed.

(** * Further facts about the packet codec *)

Lemma emit_take maxLen pre v :
  Packet.emit maxLen (take (Z.to_nat maxLen) pre) v
  = take (Z.to_nat maxLen) (pre ++ [v]).
Proof.
  unfold Packet.emit. rewrite length_take.
  destruct (Z.ltb_spec (Z.of_nat (Z.to_nat maxLen `min` length pre)) maxLen) as [Hlt|Hge].
  - rewrite !take_ge by (rewrite ?length_app; simpl; lia). reflexivity.
  - rewrite take_app_le by lia. reflexivity.
Qed.

(** The loop of [data] followed by the conditional store of the checksum. *)
Lemma data_loop_finish p maxLen n : forall (k : nat) pre,
  0 <= Packet.m_maxParams p ->
  (k <= Z.to_nat (Packet.m_maxParams p))%nat ->
  (k + (n `min` (Z.to_nat (Packet.m_maxParams p) - k)) <= length (Packet.m_params p))%nat ->
  (Packet.data_loop p maxLen (Z.of_nat k) n (take (Z.to_nat maxLen) pre)
     ≫= fun '(returned, out) =>
          Some (if (returned : bool) then out
                else Packet.emit maxLen out (Packet.m_checksum p)))
  = Some (take (Z.to_nat maxLen)
            (pre ++ take (n `min` (Z.to_nat (Packet.m_maxParams p) - k))
                      (drop k (Packet.m_params p))
                 ++ (if (n <=? Z.to_nat (Packet.m_maxParams p) - k)%nat
                     then [Packet.m_checksum p] else []))).
Proof.
  set (mx := Packet.m_maxParams p). set (m := Z.to_nat maxLen).
  induction n as [|n IH]; intros k pre Hmx Hk Hrd.
  - cbn [Packet.data_loop mbind option_bind]. rewrite emit_take. reflexivity.
  - cbn [Packet.data_loop]. fold mx.
    destruct (Z.leb_spec mx (Z.of_nat k)) as [Hcap|Hcap].
    + cbn [mbind option_bind].
      replace (Z.to_nat mx - k)%nat with 0%nat by lia.
      rewrite Nat.min_0_r. cbn [take Nat.leb app]. by rewrite app_nil_r.
    + rewrite length_take. fold m.
      destruct (Z.ltb_spec (Z.of_nat (m `min` length pre)) maxLen) as [Hroom|Hfull].
      * rewrite load8_nat.
        destruct (lookup_lt_is_Some_2 (Packet.m_params p) k) as [v Hv]; [lia|].
        rewrite Hv. cbn [mbind option_bind].
        replace (Z.of_nat k + 1) with (Z.of_nat (S k)) by lia.
        assert (Hpre : take m pre ++ [v] = take m (pre ++ [v])).
        { rewrite !take_ge by (rewrite ?length_app; simpl; lia). reflexivity. }
        rewrite Hpre. rewrite IH by lia.
        replace (Z.to_nat mx - k)%nat with (S (Z.to_nat mx - S k)) by lia.
        rewrite <- Nat.succ_min_distr. cbn [Nat.leb].
        rewrite (drop_S _ v k Hv). cbn [take].
        by rewrite <- !app_assoc.
      * cbn [mbind option_bind]. rewrite emit_take.
        rewrite !take_app_le by lia. reflexivity.
Qed.

(** X1.  [data] writes the first [maxLen] bytes of the serialization and
    returns how many it wrote, for every [maxLen]: a frame that came with
    more parameters than the storage holds is cut after the stored
    parameters and gets no checksum byte. *)
Theorem X1_data_is_prefix (p : Packet.t) (maxLen : Z) :
  0 <= Packet.m_maxParams p ->
  Z.min (Packet.numParams p) (Packet.m_maxParams p)
    <= Z.of_nat (length (Packet.m_params p)) ->
  Packet.data maxLen p
  = Some (Z.min (Z.max 0 maxLen) (Z.of_nat (length (serialized p))),
          take (Z.to_nat maxLen) (serialized p)).
Proof.
  intros Hmx Hrd.
  pose proof (numParams_range p) as HN.
  unfold Packet.data.
  pose proof (emit_take maxLen [] 255) as E0. rewrite take_nil in E0.
  rewrite E0, !emit_take. cbn [app].
  pose proof (data_loop_finish p maxLen (Z.to_nat (Packet.numParams p)) 0
                [255; 255; Packet.id p; Packet.length p; Packet.command p]
                Hmx ltac:(lia) ltac:(lia)) as Hloop.
  change (Z.of_nat 0) with 0 in Hloop.
  destruct (Packet.data_loop p maxLen 0 (Z.to_nat (Packet.numParams p)) _)
    as [[returned out]|]; [|discriminate].
  cbn [mbind option_bind] in Hloop |- *.
  injection Hloop as Hout.
  rewrite Nat.sub_0_r, drop_0 in Hout.
  replace (Z.to_nat (Packet.numParams p) `min` Z.to_nat (Packet.m_maxParams p))%nat
    with (Z.to_nat (Z.min (Packet.numParams p) (Packet.m_maxParams p))) in Hout by lia.
  assert (Hflag : (Z.to_nat (Packet.numParams p) <=? Z.to_nat (Packet.m_maxParams p))%nat
                  = (Packet.numParams p <=? Packet.m_maxParams p)).
  { destruct (Z.leb_spec (Packet.numParams p) (Packet.m_maxParams p));
      [apply Nat.leb_le|apply Nat.leb_gt]; lia. }
  rewrite Hflag in Hout. fold (serialized p) in Hout.
  assert (Hlen : forall o, o = take (Z.to_nat maxLen) (serialized p) ->
            Z.of_nat (length o)
            = Z.min (Z.max 0 maxLen) (Z.of_nat (length (serialized p)))).
  { intros o ->. rewrite length_take. lia. }
  destruct returned; cbv zeta; rewrite Hout; do 2 f_equal; by apply Hlen.
Qed.

Lemma X1_data_is_prefix_witness :
  Packet.data 7 (Packet.mk Packet.IDLE 1 [0x2B; 0] 0x01 4 0x02 2 0xCC)
  = Some (Z.min (Z.max 0 7)
            (Z.of_nat (length (serialized
               (Packet.mk Packet.IDLE 1 [0x2B; 0] 0x01 4 0x02 2 0xCC)))),
          take (Z.to_nat 7)
            (serialized (Packet.mk Packet.IDLE 1 [0x2B; 0] 0x01 4 0x02 2 0xCC))).
Proof.
  apply (X1_data_is_prefix (Packet.mk Packet.IDLE 1 [0x2B; 0] 0x01 4 0x02 2 0xCC) 7).
  - simpl. lia.
  - vm_compute. discriminate.
Defined.

Lemma sum8_mod ps : forall acc,
  0 <= acc < 256 -> sum8 acc ps = (acc + byte_sum ps) mod 256.
Proof.
  unfold sum8. induction ps as [|v ps IH]; intros acc Hacc;
    cbn [fold_left byte_sum foldr].
  - rewrite Z.add_0_r, Z.mod_small; lia.
  - rewrite IH by apply uint8_range. unfold uint8. fold (byte_sum ps).
    rewrite Zplus_mod_idemp_l. f_equal. lia.
Qed.

Lemma not8_spec x : 0 <= x < 256 -> not8 x = 255 - x.
Proof.
  intros Hx. unfold not8, uint8, Z.lnot.
  replace (Z.pred (- x)) with ((255 - x) + (-1) * 256) by lia.
  rewrite Z_mod_plus_full. apply Z.mod_small. lia.
Qed.

(** X2.  [update_checksum] touches nothing but the checksum, and the
    checksum it stores makes id, length, command, the declared parameters
    and the checksum itself add up to [0xFF] modulo 256. *)
Theorem X2_checksum_completes_sum (p : Packet.t) :
  Packet.numParams p <= Z.of_nat (length (Packet.m_params p)) ->
  exists x,
    Packet.update_checksum p = Some (Packet.with_checksum x p) /\
    is_byte x /\
    (Packet.id p + Packet.length p + Packet.command p
     + byte_sum (take (Z.to_nat (Packet.numParams p)) (Packet.m_params p))
     + x) mod 256 = 0xFF.
Proof.
  intros HN. pose proof (numParams_range p) as HNr.
  unfold Packet.update_checksum.
  rewrite (sum_params_spec _ _ 0) by lia.
  cbn [mbind option_bind]. rewrite drop_0.
  eexists. split; [reflexivity|].
  set (ps := take _ _).
  rewrite sum8_mod by apply uint8_range.
  set (s := (uint8 (uint8 (Packet.id p + Packet.length p) + Packet.command p)
             + byte_sum ps) mod 256).
  assert (Hs : 0 <= s < 256) by (apply Z.mod_pos_bound; lia).
  rewrite not8_spec by done.
  split; [unfold is_byte; lia|].
  assert (Hcong : s = (Packet.id p + Packet.length p + Packet.command p + byte_sum ps)
                        mod 256).
  { unfold s, uint8. rewrite Zplus_mod_idemp_l.
    rewrite <- Z.add_assoc, Zplus_mod_idemp_l, Z.add_assoc. reflexivity. }
  rewrite Hcong.
  set (t := Packet.id p + Packet.length p + Packet.command p + byte_sum ps).
  replace (t + (255 - t mod 256)) with (255 + (t / 256) * 256)
    by (pose proof (Z.div_mod t 256); lia).
  rewrite Z_mod_plus_full. reflexivity.
Qed.

Lemma X2_checksum_completes_sum_witness :
  exists x,
    Packet.update_checksum (Packet.mk Packet.IDLE 8 [0x03; 0x01; 0; 0] 0xFE 4 0x03 0 0)
    = Some (Packet.with_checksum x
              (Packet.mk Packet.IDLE 8 [0x03; 0x01; 0; 0] 0xFE 4 0x03 0 0)) /\
    is_byte x /\
    (0xFE + 4 + 0x03 + byte_sum (take (Z.to_nat 2) [0x03; 0x01; 0; 0]) + x) mod 256
    = 0xFF.
Proof.
  apply (X2_checksum_completes_sum
           (Packet.mk Packet.IDLE 8 [0x03; 0x01; 0; 0] 0xFE 4 0x03 0 0)).
  vm_compute. discriminate.
Defined.

(** X3.  [params(numParams, params)] with a count within the capacity
    copies that many bytes to the front of the storage, leaves the rest of
    the storage and every other field alone, and sets the length to the
    count plus two; with a count above the capacity both [params]
    overloads abort. *)
Theorem X3_params_copies_or_aborts (numParams : Z) (src : list Z) (p : Packet.t) :
  0 <= numParams <= Z.of_nat (length src) ->
  0 <= Packet.m_maxParams p <= Packet.MAX_PARAMS ->
  Packet.m_maxParams p <= Z.of_nat (length (Packet.m_params p)) ->
  (numParams <= Packet.m_maxParams p ->
   exists p',
     Packet.params numParams src p = Some p' /\
     Packet.numParams p' = numParams /\
     Packet.length p' = numParams + 2 /\
     Packet.m_params p'
     = take (Z.to_nat numParams) src ++ drop (Z.to_nat numParams) (Packet.m_params p) /\
     Packet.params_n numParams p = Some (Packet.with_length (numParams + 2) p) /\
     p' = Packet.with_length (numParams + 2) (Packet.with_params (Packet.m_params p') p)) /\
  (Packet.m_maxParams p < numParams ->
   Packet.params numParams src p = None /\ Packet.params_n numParams p = None).
Proof.
  intros [HN0 HNs] [Hmx0 Hmx] Hbuf. unfold Packet.MAX_PARAMS in Hmx.
  unfold Packet.params, Packet.params_n. split.
  - intros HN.
    destruct (Z.leb_spec numParams (Packet.m_maxParams p)); [|lia].
    assert (Hsel : (if Packet.m_maxParams p <=? numParams
                    then Packet.m_maxParams p else numParams) = numParams).
    { destruct (Z.leb_spec (Packet.m_maxParams p) numParams); lia. }
    rewrite Hsel. unfold memcpy.
    destruct (Z.leb_spec 0 numParams); [|lia].
    destruct (Z.leb_spec numParams (Z.of_nat (length src))); [|lia].
    destruct (Z.leb_spec numParams (Z.of_nat (length (Packet.m_params p)))); [|lia].
    cbn [andb mbind option_bind].
    rewrite (uint8_small numParams) by lia.
    rewrite Z.min_l by lia.
    rewrite (uint8_small (2 + numParams)) by lia.
    replace (2 + numParams) with (numParams + 2) by lia.
    eexists. split; [reflexivity|].
    unfold Packet.numParams, Packet.length. destruct p. pk_simpl.
    split.
    { destruct (Z.leb_spec (numParams + 2) 2); [lia|]. rewrite uint8_small; lia. }
    repeat split.
  - intros HN.
    destruct (Z.leb_spec numParams (Packet.m_maxParams p)); [lia|]. done.
Qed.

Lemma X3_params_copies_or_aborts_witness :
  let p := Packet.mk Packet.IDLE 8 (replicate 8 0) 0 2 1 0 0 in
  (2 <= Packet.m_maxParams p ->
   exists p',
     Packet.params 2 [0x03; 0x01] p = Some p' /\
     Packet.numParams p' = 2 /\
     Packet.length p' = 2 + 2 /\
     Packet.m_params p'
     = take (Z.to_nat 2) [0x03; 0x01] ++ drop (Z.to_nat 2) (Packet.m_params p) /\
     Packet.params_n 2 p = Some (Packet.with_length (2 + 2) p) /\
     p' = Packet.with_length (2 + 2) (Packet.with_params (Packet.m_params p') p)) /\
  (Packet.m_maxParams p < 2 ->
   Packet.params 2 [0x03; 0x01] p = None /\ Packet.params_n 2 p = None).
Proof.
  apply (X3_params_copies_or_aborts 2 [0x03; 0x01]
           (Packet.mk Packet.IDLE 8 (replicate 8 0) 0 2 1 0 0)).
  - simpl. lia.
  - simpl. unfold Packet.MAX_PARAMS. lia.
  - simpl. lia.
Defined.

(** X4.  [processByte] answers [NOT_DONE], [NONE], [CHECKSUM] or
    [TOO_MUCH_DATA] and nothing else; an answer other than [NOT_DONE] comes
    only from the byte that follows the last declared parameter, leaves
    the codec idle with the received byte in the checksum register, and
    changes neither id, length, command nor the parameter storage; and no
    call ever changes the capacity. *)
Theorem X4_processByte_results (byte : Z) (p : Packet.t) (e : Z) (p' : Packet.t) :
  Packet.processByte byte p = Some (e, p') ->
  Packet.m_maxParams p' = Packet.m_maxParams p /\
  (e = Error.NOT_DONE \/
   ((e = Error.NONE \/ e = Error.CHECKSUM \/ e = Error.TOO_MUCH_DATA) /\
    Packet.m_state p = Packet.COMMAND_RCVD /\
    Packet.numParams p <= Packet.m_paramIdx p /\
    Packet.m_state p' = Packet.IDLE /\
    Packet.checksum p' = byte /\
    Packet.id p' = Packet.id p /\
    Packet.length p' = Packet.length p /\
    Packet.command p' = Packet.command p /\
    Packet.m_params p' = Packet.m_params p)).
Proof.
  destruct p as [st mx buf i len cmd idx cks].
  unfold Packet.processByte. cbn [Packet.m_state].
  destruct st.
  1-3: destruct (byte =? 255); intros [= <- <-]; (split; [reflexivity|left; reflexivity]).
  1-2: intros [= <- <-]; (split; [reflexivity|left; reflexivity]).
  pk_simpl.
  destruct (Z.leb_spec (Packet.numParams (Packet.mk Packet.COMMAND_RCVD mx buf i len
                                            cmd idx cks)) idx) as [Hfin|Hmore].
  - pk_simpl.
    destruct (Z.eqb_spec (not8 cks) byte) as [Heq|Hne].
    + destruct (idx <=? mx); intros [= <- <-]; (split; [reflexivity|]); right;
        (split; [auto|]); repeat split; auto.
    + intros [= <- <-]. split; [reflexivity|]. right.
      split; [auto|]. repeat split; auto.
  - pk_simpl. destruct (idx <? mx).
    + destruct (store8 buf idx byte); cbn [mbind option_bind]; [|discriminate].
      intros [= <- <-]. split; [reflexivity|left; reflexivity].
    + cbn [mbind option_bind]. intros [= <- <-]. split; [reflexivity|left; reflexivity].
Qed.

Lemma X4_processByte_results_witness :
  let p := Packet.mk Packet.COMMAND_RCVD 32 [0x2B; 0x01] 0x01 4 0x02 2 0x33 in
  let p' := Packet.mk Packet.IDLE 32 [0x2B; 0x01] 0x01 4 0x02 2 0xCC in
  Packet.m_maxParams p' = Packet.m_maxParams p /\
  (Error.NONE = Error.NOT_DONE \/
   ((Error.NONE = Error.NONE \/ Error.NONE = Error.CHECKSUM
     \/ Error.NONE = Error.TOO_MUCH_DATA) /\
    Packet.m_state p = Packet.COMMAND_RCVD /\
    Packet.numParams p <= Packet.m_paramIdx p /\
    Packet.m_state p' = Packet.IDLE /\
    Packet.checksum p' = 0xCC /\
    Packet.id p' = Packet.id p /\
    Packet.length p' = Packet.length p /\
    Packet.command p' = Packet.command p /\
    Packet.m_params p' = Packet.m_params p)).
Proof.
  apply (X4_processByte_results 0xCC
           (Packet.mk Packet.COMMAND_RCVD 32 [0x2B; 0x01] 0x01 4 0x02 2 0x33)).
  vm_compute. reflexivity.
Defined.

Lemma sum8_app acc a b : sum8 acc (a ++ b) = sum8 (sum8 acc a) b.
Proof. unfold sum8. apply fold_left_app. Qed.

(** Parameter bytes that arrive when the storage is full are counted and
    summed, and dropped. *)
Lemma feed_params_dropped ps : forall (k : nat) mx buf i len cmd cks,
  Z.of_nat (k + length ps) <= (if len <=? 2 then 0 else uint8 (len - 2)) ->
  mx <= Z.of_nat k ->
  Packet.feed (Packet.mk Packet.COMMAND_RCVD mx buf i len cmd (Z.of_nat k) cks) ps
  = Some (replicate (length ps) Error.NOT_DONE,
          Packet.mk Packet.COMMAND_RCVD mx buf i len cmd
            (Z.of_nat (k + length ps)) (sum8 cks ps)).
Proof.
  induction ps as [|v ps IH]; intros k mx buf i len cmd cks HN Hmx.
  - simpl. by rewrite Nat.add_0_r.
  - simpl in HN. cbn [Packet.feed].
    unfold Packet.processByte, Packet.numParams. pk_simpl.
    pose proof (uint8_range (len - 2)) as Hu.
    destruct (Z.leb_spec (if len <=? 2 then 0 else uint8 (len - 2)) (Z.of_nat k));
      [lia|].
    destruct (Z.ltb_spec (Z.of_nat k) mx); [lia|].
    cbn [mbind option_bind]. pk_simpl.
    rewrite (uint8_small (Z.of_nat k + 1)) by (destruct (len <=? 2); lia).
    replace (Z.of_nat k + 1) with (Z.of_nat (S k)) by lia.
    rewrite IH by (simpl in *; lia).
    cbn [mbind option_bind]. do 3 f_equal. cbn [length]. lia.
Qed.

(** An idle codec, whatever it holds, fed the wire bytes of a frame with
    any checksum byte. *)
Lemma feed_frame_bytes mx buf i0 len0 cmd0 idx0 cks0 i c ps x :
  i <> 0xFF ->
  Z.of_nat (length ps) <= 253 ->
  0 <= mx <= Z.of_nat (length buf) ->
  Packet.feed (Packet.mk Packet.IDLE mx buf i0 len0 cmd0 idx0 cks0)
    (frame_bytes i c ps x)
  = Some (replicate (5 + length ps) Error.NOT_DONE
            ++ [if x =? frame_checksum i (Z.of_nat (length ps) + 2) c ps
                then if Z.of_nat (length ps) <=? mx
                     then Error.NONE else Error.TOO_MUCH_DATA
                else Error.CHECKSUM],
          Packet.mk Packet.IDLE mx
            (take (Z.to_nat mx) ps ++ drop (length ps `min` Z.to_nat mx) buf) i
            (Z.of_nat (length ps) + 2) c (Z.of_nat (length ps)) x).
Proof.
  intros Hi HN [Hmx0 Hmx].
  set (N := length ps) in *. set (M := Z.to_nat mx).
  unfold frame_bytes. fold N.
  rewrite feed_app, feed_header by done.
  cbn [mbind option_bind].
  rewrite feed_app.
  rewrite <- (take_drop M ps) at 1.
  rewrite feed_app.
  assert (Hl1 : length (take M ps) = (N `min` M)%nat)
    by (rewrite length_take; unfold N; lia).
  assert (Hl2 : length (drop M ps) = (N - M)%nat)
    by (rewrite length_drop; unfold N; lia).
  rewrite (feed_params (take M ps) 0);
    [| rewrite Hl1, declared_count by lia; lia | rewrite Hl1; lia | lia].
  cbn [mbind option_bind Nat.add take app]. rewrite Hl1.
  destruct (decide (N <= M)%nat) as [Hfit|Hover].
  - rewrite (drop_ge ps M) by (fold N; lia).
    cbn [Packet.feed mbind option_bind].
    unfold Packet.processByte, Packet.numParams. pk_simpl.
    rewrite declared_count by lia.
    replace (N `min` M)%nat with N by lia.
    rewrite Z.leb_refl.
    rewrite (take_ge ps M) by (fold N; lia).
    unfold frame_checksum.
    set (s := not8 _).
    destruct (Z.leb_spec (Z.of_nat N) mx); [|lia].
    rewrite (Z.eqb_sym x s).
    destruct (Z.eqb_spec s x) as [->|Hne];
      cbn [mbind option_bind]; change (S (S (S (S (S N))))) with (5 + N)%nat;
      rewrite app_nil_r, replicate_add, <- !app_assoc; reflexivity.
  - rewrite (feed_params_dropped (drop M ps) (N `min` M));
      [| rewrite Hl2, declared_count by lia; lia | lia].
    cbn [mbind option_bind]. rewrite Hl2.
    cbn [Packet.feed mbind option_bind].
    unfold Packet.processByte, Packet.numParams. pk_simpl.
    rewrite declared_count by lia.
    replace (N `min` M + (N - M))%nat with N by lia.
    rewrite Z.leb_refl.
    rewrite <- sum8_app, take_drop.
    unfold frame_checksum.
    set (s := not8 _).
    destruct (Z.leb_spec (Z.of_nat N) mx); [lia|].
    rewrite (Z.eqb_sym x s).
    assert (HR : replicate N Error.NOT_DONE
                 = replicate (N `min` M) Error.NOT_DONE
                     ++ replicate (N - M) Error.NOT_DONE).
    { rewrite <- replicate_add. f_equal. lia. }
    change (S (S (S (S (S N))))) with (5 + N)%nat.
    destruct (Z.eqb_spec s x) as [->|Hne];
      cbn [mbind option_bind]; rewrite replicate_add, HR, <- !app_assoc;
      reflexivity.
Qed.

(** C2.  A codec constructed with capacity [C] over a buffer of at least
    [C] bytes accepts every byte sequence without ever faulting, in
    particular over a buffer of exactly [C] bytes, where a store at any
    index [>= C] would fault; every cell of the buffer from index [C] on
    keeps its content; whatever byte comes next, the call stores nothing
    or stores that byte at an index below [C]; at every finalize step
    with a declared parameter count [length - 2] above [C] and a matching
    checksum byte the answer is [TOO_MUCH_DATA]; and the codec, fed the
    bytes of any frame that carries more than [C] parameters and a valid
    checksum, answers [NOT_DONE] to every byte but the last and
    [TOO_MUCH_DATA] to the last, having stored the first [C] parameters
    and nothing else. *)
Theorem C2_param_writes_bounded (C : Z) (buf bytes : list Z) :
  0 <= C <= Packet.MAX_PARAMS ->
  C <= Z.of_nat (length buf) ->
  exists p0 es q,
    Packet.new C buf = Some p0 /\
    Packet.feed p0 bytes = Some (es, q) /\
    length (Packet.m_params q) = length buf /\
    drop (Z.to_nat C) (Packet.m_params q) = drop (Z.to_nat C) buf /\
    (forall byte, exists e q',
        Packet.processByte byte q = Some (e, q') /\
        (Packet.m_params q' = Packet.m_params q \/
         exists i, 0 <= i < C /\
                   Packet.m_params q' = <[Z.to_nat i := byte]> (Packet.m_params q))) /\
    (forall byte,
        Forall is_byte bytes ->
        Packet.m_state q = Packet.COMMAND_RCVD ->
        Packet.numParams q <= Packet.m_paramIdx q ->
        C < Packet.length q - 2 ->
        not8 (Packet.m_checksum q) = byte ->
        exists q', Packet.processByte byte q = Some (Error.TOO_MUCH_DATA, q') /\
                   Packet.m_state q' = Packet.IDLE) /\
    (forall i c ps,
        i <> 0xFF ->
        C < Z.of_nat (length ps) <= Packet.MAX_PARAMS ->
        exists q1,
          Packet.feed p0 (wire (i, c, ps))
          = Some (replicate (5 + length ps) Error.NOT_DONE ++ [Error.TOO_MUCH_DATA],
                  q1) /\
          Packet.m_state q1 = Packet.IDLE /\
          Packet.m_params q1 = take (Z.to_nat C) ps ++ drop (Z.to_nat C) buf).
Proof.
  intros HC HL.
  destruct (new_inv C buf HC) as (p0 & Hnew & Hinv0 & Hbuf0 & Hst0).
  destruct (feed_inv C (length buf) bytes p0 HL Hinv0) as (es & q & Hfeed & Hinv & Hdrop).
  exists p0, es, q. split; [done|]. split; [done|].
  pose proof Hinv as (HmC & Hlen & Hidx & Hcmd).
  split; [done|]. split; [by rewrite Hdrop, Hbuf0|].
  split; [|split].
  { intros byte.
    destruct (processByte_inv C (length buf) q byte HL Hinv) as (e & q' & Hstep & _).
    exists e, q'. split; [exact Hstep|].
    rewrite <- HmC. exact (processByte_store q byte e q' Hstep). }
  { intros byte Hbytes Hst Hfin Hdecl Hck.
    assert (Hlb : is_byte (Packet.m_length q)).
    { eapply feed_length_byte; [exact Hbytes| |exact Hfeed].
      unfold Packet.new in Hnew. destruct (_ <=? _); [|done].
      injection Hnew as <-. simpl. unfold is_byte. lia. }
    specialize (Hcmd Hst).
    destruct q as [st mx b i len cmd idx cks].
    unfold Packet.processByte, Packet.numParams, Packet.length, is_byte in *;
      simpl in *; subst st mx byte.
    destruct (Z.leb_spec len 2) as [|Hlen2]; [lia|].
    rewrite uint8_small in * by lia.
    destruct (Z.leb_spec (len - 2) idx); [|lia].
    rewrite Z.eqb_refl.
    destruct (Z.leb_spec idx C); [lia|].
    eexists; split; reflexivity. }
  intros i c ps Hi [HN1 HN2].
  destruct Hinv0 as (HmC0 & Hlen0 & _ & _).
  destruct p0 as [st0 mx0 b0 i0 len0 cmd0 idx0 cks0].
  cbn [Packet.m_state Packet.m_maxParams Packet.m_params] in *. subst st0 mx0 b0.
  change (wire (i, c, ps))
    with (frame_bytes i c ps (frame_checksum i (Z.of_nat (length ps) + 2) c ps)).
  unfold Packet.MAX_PARAMS in *.
  rewrite feed_frame_bytes by (done || lia).
  rewrite Z.eqb_refl.
  destruct (Z.leb_spec (Z.of_nat (length ps)) C); [lia|].
  eexists. split; [reflexivity|]. split; [reflexivity|].
  cbn [Packet.m_params]. do 2 f_equal. lia.
Qed.

Lemma C2_param_writes_bounded_witness :
  exists p0 es q q' q1,
    Packet.new 1 [0] = Some p0 /\
    Packet.feed p0 [0xFF; 0xFF; 0x01; 0x04; 0x02; 0x2B; 0x01] = Some (es, q) /\
    length (Packet.m_params q) = length [0] /\
    drop (Z.to_nat 1) (Packet.m_params q) = drop (Z.to_nat 1) [0] /\
    (forall byte, exists e q',
        Packet.processByte byte q = Some (e, q') /\
        (Packet.m_params q' = Packet.m_params q \/
         exists i, 0 <= i < 1 /\
                   Packet.m_params q' = <[Z.to_nat i := byte]> (Packet.m_params q))) /\
    Packet.processByte 0xCC q = Some (Error.TOO_MUCH_DATA, q') /\
    Packet.m_state q' = Packet.IDLE /\
    Packet.feed p0 (wire (0x01, 0x02, [0x2B; 0x01]))
    = Some (replicate (5 + length [0x2B; 0x01]) Error.NOT_DONE ++ [Error.TOO_MUCH_DATA],
            q1) /\
    Packet.m_state q1 = Packet.IDLE /\
    Packet.m_params q1 = take (Z.to_nat 1) [0x2B; 0x01] ++ drop (Z.to_nat 1) [0].
Proof.
  destruct (C2_param_writes_bounded 1 [0] [0xFF; 0xFF; 0x01; 0x04; 0x02; 0x2B; 0x01])
    as (p0 & es & q & Hnew & Hfeed & Hlen & Hdrop & Hstore & Hfin & Hframe).
  - unfold Packet.MAX_PARAMS. lia.
  - simpl. lia.
  - pose proof Hnew as Hp0. vm_compute in Hp0. injection Hp0 as Hp0. subst p0.
    pose proof Hfeed as Hq. vm_compute in Hq. injection Hq as Hes Hq. subst es q.
    destruct (Hfin 0xCC) as (q' & Hstep & Hidle).
    + repeat constructor; unfold is_byte; lia.
    + reflexivity.
    + vm_compute. discriminate.
    + vm_compute. reflexivity.
    + reflexivity.
    + destruct (Hframe 0x01 0x02 [0x2B; 0x01]) as (q1 & Hq1 & Hst1 & Hpar1).
      * discriminate.
      * unfold Packet.MAX_PARAMS. simpl. lia.
      * eexists _, _, _, q', q1.
        split; [exact Hnew|]. split; [exact Hfeed|]. split; [exact Hlen|].
        split; [exact Hdrop|]. split; [exact Hstore|]. split; [exact Hstep|].
        split; [exact Hidle|]. split; [exact Hq1|]. split; [exact Hst1|exact Hpar1].
Defined.

(** X5.  An idle codec, whatever earlier frames left in it, fed the sync
    bytes, an id other than [0xFF], a length byte that counts the
    parameters plus two, a command, the parameters and one more byte,
    answers [NOT_DONE] to all but the last byte.  The last answer is
    [CHECKSUM] if that byte is not the frame's checksum, else [NONE] if the
    parameters fit the capacity and [TOO_MUCH_DATA] if not.  In every case
    the codec is idle again and holds the id, the length, the command, the
    received last byte as checksum, and as many leading parameters as the
    capacity allows, the rest of the storage being untouched. *)
Theorem X5_frame_outcome (p : Packet.t) (i c : Z) (ps : list Z) (x : Z) :
  Packet.m_state p = Packet.IDLE ->
  i <> 0xFF ->
  Z.of_nat (length ps) <= Packet.MAX_PARAMS ->
  0 <= Packet.m_maxParams p <= Z.of_nat (length (Packet.m_params p)) ->
  exists q,
    Packet.feed p (frame_bytes i c ps x)
    = Some (replicate (5 + length ps) Error.NOT_DONE
              ++ [if x =? frame_checksum i (Z.of_nat (length ps) + 2) c ps
                  then if Z.of_nat (length ps) <=? Packet.m_maxParams p
                       then Error.NONE else Error.TOO_MUCH_DATA
                  else Error.CHECKSUM],
            q) /\
    Packet.m_state q = Packet.IDLE /\
    Packet.id q = i /\
    Packet.length q = Z.of_nat (length ps) + 2 /\
    Packet.command q = c /\
    Packet.numParams q = Z.of_nat (length ps) /\
    Packet.checksum q = x /\
    Packet.m_maxParams q = Packet.m_maxParams p /\
    Packet.m_params q
    = take (Z.to_nat (Packet.m_maxParams p)) ps
        ++ drop (length ps `min` Z.to_nat (Packet.m_maxParams p)) (Packet.m_params p).
Proof.
  intros Hst Hi HN Hmx. unfold Packet.MAX_PARAMS in HN.
  destruct p as [st mx buf i0 len0 cmd0 idx0 cks0]. cbn in Hst, Hmx. subst st.
  eexists. split; [apply feed_frame_bytes; done || lia|].
  unfold Packet.numParams, Packet.id, Packet.length, Packet.command, Packet.checksum.
  pk_simpl. rewrite declared_count by lia. repeat split.
Qed.

Lemma X5_frame_outcome_witness :
  let p := Packet.mk Packet.IDLE 1 [0; 0] 0 2 1 0 0 in
  exists q,
    Packet.feed p (frame_bytes 0x01 0x02 [0x2B; 0x01] 0xCC)
    = Some (replicate (5 + length [0x2B; 0x01]) Error.NOT_DONE
              ++ [if 0xCC =? frame_checksum 0x01 (Z.of_nat (length [0x2B; 0x01]) + 2)
                               0x02 [0x2B; 0x01]
                  then if Z.of_nat (length [0x2B; 0x01]) <=? Packet.m_maxParams p
                       then Error.NONE else Error.TOO_MUCH_DATA
                  else Error.CHECKSUM],
            q) /\
    Packet.m_state q = Packet.IDLE /\
    Packet.id q = 0x01 /\
    Packet.length q = Z.of_nat (length [0x2B; 0x01]) + 2 /\
    Packet.command q = 0x02 /\
    Packet.numParams q = Z.of_nat (length [0x2B; 0x01]) /\
    Packet.checksum q = 0xCC /\
    Packet.m_maxParams q = Packet.m_maxParams p /\
    Packet.m_params q
    = take (Z.to_nat (Packet.m_maxParams p)) [0x2B; 0x01]
        ++ drop (length [0x2B; 0x01] `min` Z.to_nat (Packet.m_maxParams p))
             (Packet.m_params p).
Proof.
  apply (X5_frame_outcome (Packet.mk Packet.IDLE 1 [0; 0] 0 2 1 0 0)
           0x01 0x02 [0x2B; 0x01] 0xCC).
  - reflexivity.
  - discriminate.
  - simpl. unfold Packet.MAX_PARAMS. lia.
  - simpl. lia.
Defined.

(** X6.  Parsing and then serializing gives the input back: after an idle
    codec has read a frame whose parameters fit its capacity, with a right
    or a wrong checksum byte, [data] with room for the whole frame writes
    exactly the bytes that were read. *)
Theorem X6_parse_then_data (p : Packet.t) (i c : Z) (ps : list Z) (x maxLen : Z) :
  Packet.m_state p = Packet.IDLE ->
  i <> 0xFF ->
  Z.of_nat (length ps) <= Packet.m_maxParams p <= Packet.MAX_PARAMS ->
  Packet.m_maxParams p <= Z.of_nat (length (Packet.m_params p)) ->
  Z.of_nat (length ps) + 6 <= maxLen ->
  exists es q,
    Packet.feed p (frame_bytes i c ps x) = Some (es, q) /\
    (list.last es = Some Error.NONE \/ list.last es = Some Error.CHECKSUM) /\
    Packet.data maxLen q
    = Some (Z.of_nat (length (frame_bytes i c ps x)), frame_bytes i c ps x).
Proof.
  intros Hst Hi [HN Hmx] Hbuf Hmax. unfold Packet.MAX_PARAMS in Hmx.
  destruct p as [st mx buf i0 len0 cmd0 idx0 cks0]. cbn in Hst, HN, Hmx, Hbuf. subst st.
  eexists _, _. split; [apply feed_frame_bytes; done || lia|].
  split.
  { rewrite last_snoc.
    destruct (Z.leb_spec (Z.of_nat (length ps)) mx); [|lia].
    destruct (_ =? _); auto. }
  rewrite (data_frame _ maxLen (length ps)).
  - unfold Packet.id, Packet.length, Packet.command, Packet.checksum. pk_simpl.
    rewrite (take_ge ps) by lia.
    rewrite take_app_length. unfold frame_bytes.
    do 2 f_equal. rewrite !length_app. cbn [length]. lia.
  - unfold Packet.numParams. pk_simpl. apply declared_count. lia.
  - pk_simpl. lia.
  - pk_simpl. rewrite (take_ge ps) by lia. rewrite length_app. lia.
  - lia.
Qed.

Lemma X6_parse_then_data_witness :
  exists es q,
    Packet.feed (Packet.mk Packet.IDLE 8 (replicate 8 0) 0 2 1 0 0)
      (frame_bytes 0x01 0x02 [0x2B; 0x01] 0xEE) = Some (es, q) /\
    (list.last es = Some Error.NONE \/ list.last es = Some Error.CHECKSUM) /\
    Packet.data 20 q
    = Some (Z.of_nat (length (frame_bytes 0x01 0x02 [0x2B; 0x01] 0xEE)),
            frame_bytes 0x01 0x02 [0x2B; 0x01] 0xEE).
Proof.
  apply (X6_parse_then_data (Packet.mk Packet.IDLE 8 (replicate 8 0) 0 2 1 0 0)
           0x01 0x02 [0x2B; 0x01] 0xEE 20).
  - reflexivity.
  - discriminate.
  - simpl. unfold Packet.MAX_PARAMS. lia.
  - simpl. lia.
  - simpl. lia.
Defined.

(** X7.  Well-formed frames that fit the capacity, sent one after another
    without anything in between, are each answered with [NONE] on their
    last byte; the codec ends idle and holds the last frame. *)
Theorem X7_frames_back_to_back (frames : list (Z * Z * list Z)) (p : Packet.t) :
  Packet.m_state p = Packet.IDLE ->
  0 <= Packet.m_maxParams p <= Packet.MAX_PARAMS ->
  Packet.m_maxParams p <= Z.of_nat (length (Packet.m_params p)) ->
  Forall (fun f => f.1.1 <> 0xFF /\ Z.of_nat (length f.2) <= Packet.m_maxParams p)
    frames ->
  exists q,
    Packet.feed p (concat (wire <$> frames)) = Some (concat (accepted <$> frames), q) /\
    Packet.m_state q = Packet.IDLE /\
    (forall i c ps, list.last frames = Some (i, c, ps) ->
       Packet.id q = i /\ Packet.command q = c /\
       Packet.numParams q = Z.of_nat (length ps) /\
       take (length ps) (Packet.m_params q) = ps).
Proof.
  intros Hst Hmx Hbuf Hall. revert p Hst Hmx Hbuf Hall.
  induction frames as [|[[i c] ps] frames IH]; intros p Hst Hmx Hbuf Hall.
  - exists p. split; [reflexivity|]. split; [done|]. intros i c ps [=].
  - inversion Hall as [|? ? [Hi HN] Hrest]; subst. cbn in Hi, HN.
    unfold Packet.MAX_PARAMS in *.
    destruct p as [st mx buf i0 len0 cmd0 idx0 cks0].
    cbn in Hst, Hmx, Hbuf, HN, Hrest. subst st.
    cbn [fmap list_fmap concat]. rewrite feed_app.
    change (wire (i, c, ps))
      with (frame_bytes i c ps (frame_checksum i (Z.of_nat (length ps) + 2) c ps)).
    rewrite feed_frame_bytes by (done || lia).
    rewrite Z.eqb_refl.
    destruct (Z.leb_spec (Z.of_nat (length ps)) mx); [|lia].
    cbn [mbind option_bind].
    rewrite (take_ge ps) by lia.
    replace (length ps `min` Z.to_nat mx)%nat with (length ps) by lia.
    set (q1 := Packet.mk _ _ _ _ _ _ _ _).
    destruct (IH q1) as (q & Hfeed & Hq & Hlast).
    { reflexivity. }
    { cbn. lia. }
    { cbn. rewrite length_app, length_drop. lia. }
    { exact Hrest. }
    rewrite Hfeed. exists q. split; [reflexivity|]. split; [exact Hq|].
    intros i' c' ps' Hl.
    destruct frames as [|f frames'].
    + cbn in Hl. injection Hl as <- <- <-.
      cbn in Hfeed. injection Hfeed as <-. subst q1.
      unfold Packet.id, Packet.command, Packet.numParams. pk_simpl.
      rewrite declared_count by lia. rewrite take_app_length. done.
    + apply Hlast. exact Hl.
Qed.

Lemma X7_frames_back_to_back_witness :
  let p := Packet.mk Packet.IDLE 8 (replicate 8 0) 0 2 1 0 0 in
  let frames := [(0xFE, 0x03, [0x03; 0x01]); (0x01, 0x01, [])] in
  exists q,
    Packet.feed p (concat (wire <$> frames)) = Some (concat (accepted <$> frames), q) /\
    Packet.m_state q = Packet.IDLE /\
    (forall i c ps, list.last frames = Some (i, c, ps) ->
       Packet.id q = i /\ Packet.command q = c /\
       Packet.numParams q = Z.of_nat (length ps) /\
       take (length ps) (Packet.m_params q) = ps).
Proof.
  apply (X7_frames_back_to_back [(0xFE, 0x03, [0x03; 0x01]); (0x01, 0x01, [])]
           (Packet.mk Packet.IDLE 8 (replicate 8 0) 0 2 1 0 0)).
  - reflexivity.
  - simpl. unfold Packet.MAX_PARAMS. lia.
  - simpl. lia.
  - repeat constructor; simpl; (discriminate || lia).
Defined.

(** X8.  A length byte of 0, 1 or 2 declares no parameters: after the
    command the very next byte is taken as the checksum, so an idle codec
    fed sync bytes, id, such a length, command and the complement of their
    sum answers [NONE], with any other last byte [CHECKSUM], and reports the
    length byte as received. *)
Theorem X8_short_length (p : Packet.t) (i len c x : Z) :
  Packet.m_state p = Packet.IDLE ->
  i <> 0xFF ->
  len <= 2 ->
  0 <= Packet.m_maxParams p ->
  exists q,
    Packet.feed p [0xFF; 0xFF; i; len; c; x]
    = Some (replicate 5 Error.NOT_DONE
              ++ [if x =? not8 (uint8 (uint8 (i + len) + c))
                  then Error.NONE else Error.CHECKSUM],
            q) /\
    Packet.m_state q = Packet.IDLE /\
    Packet.id q = i /\ Packet.length q = len /\ Packet.command q = c /\
    Packet.numParams q = 0 /\
    Packet.m_params q = Packet.m_params p.
Proof.
  intros Hst Hi Hlen Hmx.
  destruct p as [st mx buf i0 len0 cmd0 idx0 cks0]. cbn in Hst, Hmx. subst st.
  change [255; 255; i; len; c; x] with ([255; 255; i; len; c] ++ [x]).
  rewrite feed_app, feed_header by done.
  cbn [mbind option_bind Packet.feed].
  unfold Packet.processByte, Packet.numParams. pk_simpl.
  destruct (Z.leb_spec len 2); [|lia].
  change (0 <=? 0) with true. cbv iota.
  destruct (Z.leb_spec 0 mx); [|lia].
  set (s := not8 _). rewrite (Z.eqb_sym x s).
  destruct (Z.eqb_spec s x); cbn [mbind option_bind]; eexists;
    (split; [reflexivity|]); pk_simpl;
    unfold Packet.id, Packet.length, Packet.command; pk_simpl;
    destruct (Z.leb_spec len 2); try lia; repeat split.
Qed.

Lemma X8_short_length_witness :
  exists q,
    Packet.feed Packet.new0 [0xFF; 0xFF; 0x01; 0x00; 0x01; 0xFD]
    = Some (replicate 5 Error.NOT_DONE
              ++ [if 0xFD =? not8 (uint8 (uint8 (0x01 + 0x00) + 0x01))
                  then Error.NONE else Error.CHECKSUM],
            q) /\
    Packet.m_state q = Packet.IDLE /\
    Packet.id q = 0x01 /\ Packet.length q = 0x00 /\ Packet.command q = 0x01 /\
    Packet.numParams q = 0 /\
    Packet.m_params q = Packet.m_params Packet.new0.
Proof.
  apply (X8_short_length Packet.new0 0x01 0x00 0x01 0xFD).
  - reflexivity.
  - discriminate.
  - lia.
  - simpl. lia.
Defined.

(** A codec that waits for the first or the second sync byte, fed bytes
    that never complete a sync pair. *)
Lemma feed_no_sync s : forall p,
  (Packet.m_state p = Packet.IDLE \/
   (Packet.m_state p = Packet.FF_1ST_RCVD /\ head s <> Some 0xFF)) ->
  has_sync s = false ->
  exists st,
    Packet.feed p s
    = Some (replicate (length s) Error.NOT_DONE, Packet.with_state st p) /\
    (st = Packet.IDLE \/ st = Packet.FF_1ST_RCVD).
Proof.
  induction s as [|a s IH]; intros p Hp Hs.
  - exists (Packet.m_state p). split; [|destruct Hp as [->|[-> _]]; auto].
    cbn. by rewrite with_state_same.
  - assert (Hs' : has_sync s = false).
    { destruct s as [|b s']; [done|]. cbn [has_sync] in Hs.
      by apply orb_false_iff in Hs as [_ ?]. }
    cbn [Packet.feed]. unfold Packet.processByte at 1.
    destruct (Z.eqb_spec a 255) as [->|Ha].
    + (* a sync byte: only possible when idle *)
      destruct Hp as [Hst|[_ Hhd]]; [|by cbn in Hhd].
      rewrite Hst. cbn [mbind option_bind].
      destruct (IH (Packet.with_state Packet.FF_1ST_RCVD p)) as (st & Hfeed & Hst');
        [|exact Hs'|].
      { right. split; [by destruct p|].
        destruct s as [|b s']; [done|]. cbn [has_sync] in Hs. cbn.
        destruct (Z.eqb_spec b 255) as [->|Hb]; [done|]. congruence. }
      rewrite Hfeed. exists st. split; [|exact Hst'].
      cbn [mbind option_bind]. by destruct p.
    + assert (Hidle : (if Packet.m_state p is Packet.IDLE
                       then Some (Error.NOT_DONE, Packet.with_state Packet.IDLE p)
                       else Some (Error.NOT_DONE, Packet.with_state Packet.IDLE p))
                      = Some (Error.NOT_DONE, Packet.with_state Packet.IDLE p))
        by (by destruct (Packet.m_state p)).
      destruct (IH (Packet.with_state Packet.IDLE p)) as (st & Hfeed & Hst');
        [left; by destruct p|exact Hs'|].
      exists st. split; [|exact Hst'].
      destruct Hp as [Hst|[Hst _]]; rewrite Hst; cbn [mbind option_bind];
        rewrite Hfeed; cbn [mbind option_bind]; by destruct p.
Qed.

(** X9.  Without two [0xFF] bytes in a row nothing happens: an idle codec
    answers [NOT_DONE] to every byte of such a stream and keeps every frame
    field, the storage and the capacity as they were; it ends waiting for
    the first or for the second sync byte. *)
Theorem X9_no_sync_no_frame (p : Packet.t) (s : list Z) :
  Packet.m_state p = Packet.IDLE ->
  has_sync s = false ->
  exists q,
    Packet.feed p s = Some (replicate (length s) Error.NOT_DONE, q) /\
    (Packet.m_state q = Packet.IDLE \/ Packet.m_state q = Packet.FF_1ST_RCVD) /\
    Packet.id q = Packet.id p /\
    Packet.length q = Packet.length p /\
    Packet.command q = Packet.command p /\
    Packet.checksum q = Packet.checksum p /\
    Packet.m_params q = Packet.m_params p /\
    Packet.m_maxParams q = Packet.m_maxParams p.
Proof.
  intros Hst Hs.
  destruct (feed_no_sync s p (or_introl Hst) Hs) as (st & Hfeed & Hst').
  exists (Packet.with_state st p). split; [exact Hfeed|].
  split; [exact Hst'|]. repeat split.
Qed.

Lemma X9_no_sync_no_frame_witness :
  exists q,
    Packet.feed Packet.new0 [0xFF; 0x00; 0x17; 0xFF]
    = Some (replicate (length [0xFF; 0x00; 0x17; 0xFF]) Error.NOT_DONE, q) /\
    (Packet.m_state q = Packet.IDLE \/ Packet.m_state q = Packet.FF_1ST_RCVD) /\
    Packet.id q = Packet.id Packet.new0 /\
    Packet.length q = Packet.length Packet.new0 /\
    Packet.command q = Packet.command Packet.new0 /\
    Packet.checksum q = Packet.checksum Packet.new0 /\
    Packet.m_params q = Packet.m_params Packet.new0 /\
    Packet.m_maxParams q = Packet.m_maxParams Packet.new0.
Proof.
  apply (X9_no_sync_no_frame Packet.new0 [0xFF; 0x00; 0x17; 0xFF]).
  - reflexivity.
  - reflexivity.
Defined.

(** * Further facts about the control table *)

(** ** Two's complement and base-256 arithmetic *)

Lemma pow256 (w : Z) : 0 <= w -> 2 ^ (8 * w) = 256 ^ w.
Proof. intros Hw. rewrite Z.pow_mul_r by lia. reflexivity. Qed.

Lemma cast_cong T x y :
  1 <= ControlTable.sizeof T ->
  x mod 2 ^ (8 * ControlTable.sizeof T) = y mod 2 ^ (8 * ControlTable.sizeof T) ->
  ControlTable.cast T x = ControlTable.cast T y.
Proof.
  intros Hw Hxy. unfold ControlTable.cast.
  set (M := 2 ^ (8 * ControlTable.sizeof T)) in *.
  assert (HM : 0 < M) by (apply Z.pow_pos_nonneg; lia).
  destruct (ControlTable.is_signed T); [|done].
  f_equal. rewrite <- (Zplus_mod_idemp_l x), <- (Zplus_mod_idemp_l y). by rewrite Hxy.
Qed.

Lemma cast_mod T x :
  1 <= ControlTable.sizeof T ->
  ControlTable.cast T x mod 2 ^ (8 * ControlTable.sizeof T)
  = x mod 2 ^ (8 * ControlTable.sizeof T).
Proof.
  intros Hw. unfold ControlTable.cast.
  set (M := 2 ^ (8 * ControlTable.sizeof T)) in *.
  assert (HM : 0 < M) by (apply Z.pow_pos_nonneg; lia).
  destruct (ControlTable.is_signed T); [|apply Z.mod_mod; lia].
  assert (Heven : M = 2 * (M / 2)).
  { unfold M. replace (8 * ControlTable.sizeof T) with (1 + (8 * ControlTable.sizeof T - 1)) by lia.
    rewrite Z.pow_add_r by lia. change (2 ^ 1) with 2.
    rewrite (Z.mul_comm 2), Z.div_mul by lia. lia. }
  rewrite <- Zminus_mod_idemp_l, Z.mod_mod by lia.
  rewrite Zminus_mod_idemp_l. f_equal. lia.
Qed.

Lemma half_pow T :
  1 <= ControlTable.sizeof T ->
  let M := 2 ^ (8 * ControlTable.sizeof T) in
  0 < M /\ M = 2 * (M / 2) /\ M = 256 * (M / 256) /\ 256 <= M.
Proof.
  intros Hw M. unfold M.
  replace (8 * ControlTable.sizeof T) with (8 + (8 * ControlTable.sizeof T - 8)) by lia.
  rewrite Z.pow_add_r by lia. change (2 ^ 8) with 256.
  set (K := 2 ^ (8 * ControlTable.sizeof T - 8)).
  assert (HK : 0 < K) by (apply Z.pow_pos_nonneg; lia).
  replace (256 * K / 2) with (128 * K)
    by (replace (256 * K) with ((128 * K) * 2) by lia; by rewrite Z.div_mul).
  replace (256 * K / 256) with K
    by (rewrite (Z.mul_comm 256); by rewrite Z.div_mul).
  lia.
Qed.

Lemma cast_in_range T x : 1 <= ControlTable.sizeof T -> in_range T (ControlTable.cast T x).
Proof.
  intros Hw. destruct (half_pow T Hw) as (HM & Heven & _).
  unfold in_range, ControlTable.cast.
  set (M := 2 ^ (8 * ControlTable.sizeof T)) in *.
  destruct (ControlTable.is_signed T).
  - pose proof (Z.mod_pos_bound (x + M / 2) M HM). lia.
  - apply Z.mod_pos_bound. lia.
Qed.

Lemma cast_id T x : 1 <= ControlTable.sizeof T -> in_range T x -> ControlTable.cast T x = x.
Proof.
  intros Hw. destruct (half_pow T Hw) as (HM & Heven & _).
  unfold in_range, ControlTable.cast.
  set (M := 2 ^ (8 * ControlTable.sizeof T)) in *.
  destruct (ControlTable.is_signed T); intros Hx.
  - rewrite Z.mod_small by lia. lia.
  - apply Z.mod_small. lia.
Qed.

Lemma in_range_div T x :
  1 <= ControlTable.sizeof T -> in_range T x -> in_range T (x / 256).
Proof.
  intros Hw. destruct (half_pow T Hw) as (HM & Heven & _).
  unfold in_range.
  set (M := 2 ^ (8 * ControlTable.sizeof T)) in *.
  destruct (ControlTable.is_signed T); intros Hx.
  - split.
    + apply Z.div_le_lower_bound; lia.
    + apply Z.div_lt_upper_bound; lia.
  - split.
    + apply Z.div_pos; lia.
    + apply Z.div_lt_upper_bound; lia.
Qed.

Lemma land_255 v : Z.land v 255 = v mod 256.
Proof. change 255 with (Z.ones 8). rewrite Z.land_ones by lia. reflexivity. Qed.

Lemma shiftr_8 v : Z.shiftr v 8 = v / 256.
Proof. rewrite Z.shiftr_div_pow2 by lia. reflexivity. Qed.

Lemma shiftl_8 v : Z.shiftl v 8 = v * 256.
Proof. rewrite Z.shiftl_mul_pow2 by lia. reflexivity. Qed.

Lemma lor_low y b : y mod 256 = 0 -> 0 <= b < 256 -> Z.lor y b = y + b.
Proof.
  intros Hy Hb.
  assert (Hland : Z.land y b = 0).
  { apply Z.bits_inj'. intros n Hn. rewrite Z.land_spec, Z.bits_0.
    destruct (Z.lt_ge_cases n 8) as [Hlt|Hge].
    - replace y with (Z.shiftl (y / 256) 8)
        by (rewrite shiftl_8; pose proof (Z.div_mod y 256); lia).
      rewrite Z.shiftl_spec_low by lia. reflexivity.
    - rewrite (Z.bits_above_log2 b n), andb_false_r; [done|lia|].
      destruct (Z.eq_dec b 0) as [->|Hb0]; [simpl; lia|].
      apply Z.log2_lt_pow2; [lia|].
      apply Z.lt_le_trans with (2 ^ 8); [simpl; lia|].
      apply Z.pow_le_mono_r; lia. }
  rewrite <- Z.lxor_lor by done. symmetry. by apply Z.add_nocarry_lxor.
Qed.

(** The value of base-256 digits, lowest first. *)
Lemma horner_digits n : forall v,
  foldr (fun b acc => b + 256 * acc) 0 (digits n v) = v mod 256 ^ Z.of_nat n.
Proof.
  induction n as [|n IH]; intros v.
  - cbn. by rewrite Z.mod_1_r.
  - cbn [digits foldr]. rewrite IH.
    replace (Z.of_nat (S n)) with (1 + Z.of_nat n) by lia.
    rewrite Z.pow_add_r by lia. change (256 ^ 1) with 256.
    assert (Hp : 0 < 256 ^ Z.of_nat n) by (apply Z.pow_pos_nonneg; lia).
    rewrite Z.rem_mul_r by lia. reflexivity.
Qed.

Lemma digits_bytes n : forall v, Forall (fun b => 0 <= b < 256) (digits n v).
Proof.
  induction n as [|n IH]; intros v; cbn [digits]; constructor; [|apply IH].
  apply Z.mod_pos_bound. lia.
Qed.

Lemma length_digits n v : length (digits n v) = n.
Proof. revert v. induction n as [|n IH]; intros v; cbn [digits length]; [done|by rewrite IH]. Qed.

(** One step of the reading loop of [get]. *)
Lemma dec_step_spec T A b :
  1 <= ControlTable.sizeof T -> 0 <= b < 256 ->
  ControlTable.cast T
    (Z.lor (ControlTable.cast T (Z.shiftl (ControlTable.cast T A) 8)) b)
  = ControlTable.cast T (A * 256 + b).
Proof.
  intros Hw Hb. destruct (half_pow T Hw) as (HM & _ & H256 & _).
  set (M := 2 ^ (8 * ControlTable.sizeof T)) in *.
  rewrite shiftl_8.
  set (y := ControlTable.cast T (ControlTable.cast T A * 256)).
  assert (Hymod : y mod M = (A * 256) mod M).
  { unfold y. rewrite cast_mod by done. fold M.
    rewrite <- Zmult_mod_idemp_l. unfold M at 1. rewrite cast_mod by done. fold M.
    by rewrite Zmult_mod_idemp_l. }
  assert (Hy256 : y mod 256 = 0).
  { pose proof (Z.div_mod y M ltac:(lia)) as Hy.
    rewrite Hymod in Hy.
    pose proof (Z.div_mod (A * 256) M ltac:(lia)) as HA.
    assert (y = 256 * (A + (M / 256) * (y / M) - (M / 256) * (A * 256 / M))) as ->
      by nia.
    rewrite Z.mul_comm. apply Z.mod_mul. lia. }
  rewrite lor_low by done.
  apply cast_cong; [done|]. fold M.
  rewrite <- Zplus_mod_idemp_l, Hymod, Zplus_mod_idemp_l. reflexivity.
Qed.

Lemma fold_dec_step T rest : forall A,
  1 <= ControlTable.sizeof T ->
  Forall (fun b => 0 <= b < 256) rest ->
  fold_left (dec_step T) rest (ControlTable.cast T A)
  = ControlTable.cast T (fold_left (fun a b => a * 256 + b) rest A).
Proof.
  induction rest as [|b rest IH]; intros A Hw Hall; [done|].
  inversion Hall as [|? ? Hb Hrest]; subst.
  cbn [fold_left]. unfold dec_step at 2. rewrite dec_step_spec by done.
  by apply IH.
Qed.

Lemma fold_horner l : forall A,
  fold_left (fun a b => a * 256 + b) (reverse l) A
  = foldr (fun b acc => b + 256 * acc) A l.
Proof.
  induction l as [|b l IH]; intros A; [done|].
  rewrite reverse_cons, fold_left_app. cbn [fold_left foldr]. rewrite IH. lia.
Qed.

(** Reading back the digits of a value of type [T] gives the value. *)
Lemma decode_digits T (w : nat) v :
  (1 <= w)%nat -> ControlTable.sizeof T = Z.of_nat w -> in_range T v ->
  match reverse (digits w v) with
  | hi :: rest => fold_left (dec_step T) rest (ControlTable.cast T hi)
  | [] => 0
  end = v.
Proof.
  intros Hw HT Hv.
  assert (Hw' : 1 <= ControlTable.sizeof T) by lia.
  pose proof (digits_bytes w v) as Hbytes.
  pose proof (horner_digits w v) as Hh.
  apply Forall_reverse in Hbytes.
  rewrite <- fold_horner in Hh.
  destruct (reverse (digits w v)) as [|hi rest] eqn:Hrev.
  - apply (f_equal length) in Hrev. rewrite length_reverse, length_digits in Hrev.
    simpl in Hrev. lia.
  - inversion Hbytes as [|? ? Hhi Hrest]; subst.
    rewrite fold_dec_step by done.
    cbn [fold_left] in Hh. rewrite Z.mul_0_l, Z.add_0_l in Hh.
    rewrite Hh. rewrite <- (cast_id T v) at 2 by done.
    apply cast_cong; [done|].
    rewrite HT, pow256 by lia. apply Z.mod_mod.
    apply Z.pow_nonzero; lia.
Qed.

(** ** The buffer of a table under [set] and [get] *)

Lemma length_splice buf offset bytes :
  0 <= offset ->
  (Z.to_nat offset + length bytes <= length buf)%nat ->
  length (splice buf offset bytes) = length buf.
Proof.
  intros H0 Hl. unfold splice.
  rewrite !length_app, length_take, length_drop. lia.
Qed.

Lemma splice_nil buf offset : splice buf offset [] = buf.
Proof. unfold splice. cbn [app length]. rewrite Nat.add_0_r. apply take_drop. Qed.

Lemma splice_insert buf offset b rest :
  0 <= offset < Z.of_nat (length buf) ->
  splice (<[Z.to_nat offset := b]> buf) (offset + 1) rest
  = splice buf offset (b :: rest).
Proof.
  intros Ho. unfold splice.
  replace (Z.to_nat (offset + 1)) with (S (Z.to_nat offset)) by lia.
  rewrite (take_S_r (<[Z.to_nat offset := b]> buf) (Z.to_nat offset) b)
    by (apply list_lookup_insert_eq; lia).
  rewrite take_insert_ge by lia.
  rewrite drop_insert_lt by lia.
  rewrite <- app_assoc. cbn [app length].
  replace (S (Z.to_nat offset) + length rest)%nat
    with (Z.to_nat offset + S (length rest))%nat by lia.
  reflexivity.
Qed.

Lemma lookup_splice_in buf offset bytes (k : nat) :
  0 <= offset ->
  (Z.to_nat offset + length bytes <= length buf)%nat ->
  (k < length bytes)%nat ->
  splice buf offset bytes !! (Z.to_nat offset + k)%nat = bytes !! k.
Proof.
  intros H0 Hl Hk. unfold splice.
  rewrite lookup_app_r by (rewrite length_take; lia).
  rewrite length_take.
  replace (Z.to_nat offset + k - Z.to_nat offset `min` length buf)%nat with k by lia.
  by rewrite lookup_app_l by lia.
Qed.

Lemma lookup_splice_out buf offset bytes (i : nat) :
  0 <= offset ->
  (Z.to_nat offset + length bytes <= length buf)%nat ->
  (i < Z.to_nat offset \/ Z.to_nat offset + length bytes <= i)%nat ->
  splice buf offset bytes !! i = buf !! i.
Proof.
  intros H0 Hl Hi. unfold splice. destruct Hi as [Hi|Hi].
  - rewrite lookup_app_l by (rewrite length_take; lia).
    by rewrite lookup_take_lt.
  - rewrite lookup_app_r by (rewrite length_take; lia).
    rewrite lookup_app_r by (rewrite length_take; lia).
    rewrite length_take, lookup_drop. f_equal. lia.
Qed.

Lemma splice_cells buf offset bytes :
  0 <= offset ->
  (Z.to_nat offset + length bytes <= length buf)%nat ->
  take (length bytes) (drop (Z.to_nat offset) (splice buf offset bytes)) = bytes.
Proof.
  intros H0 Hl. unfold splice.
  rewrite drop_app_length' by (rewrite length_take; lia).
  by rewrite take_app_length.
Qed.

Section ControlTableMore.
Context {S : Type} `{IControlTableStorage S}.
Import ControlTable.

Implicit Types c : ControlTable.t S.

Ltac mt_cbn :=
  unfold bind, this, assert, emit, ret, populateEntry,
    with_ctlBytes, with_storage, with_event;
  cbv beta iota;
  cbn [m_numCtlBytes m_numPersistentBytes m_ctlBytes m_storage events].
Ltac mt_leb :=
  match goal with
  | |- context [?a <=? ?b] => destruct (Z.leb_spec a b); [|lia]
  end; mt_cbn.
Ltac mt_read b Hb :=
  match goal with
  | |- context [read ?i ?st] =>
      destruct (read_spec st i) as (b & Hb & ->); [mt_cbn; lia|]
  end; mt_cbn.
Ltac mt_write :=
  match goal with
  | |- context [write ?i ?v ?st] =>
      rewrite (write_spec st i v)
        by (mt_cbn; rewrite ?length_insert, ?length_splice; lia)
  end; mt_cbn.

(** The base hook, with what it does spelled out by [hook_tail]. *)
Lemma entryModified_tail h c :
  Offset.BAUD + 1 <= m_numCtlBytes c ->
  m_numCtlBytes c <= Z.of_nat (length (m_ctlBytes c)) ->
  entryModified h c
  = Some (tt, mk (m_numCtlBytes c) (m_numPersistentBytes c) (m_ctlBytes c)
                 (m_storage c)
                 (events c ++ EvEntryModified h :: hook_tail h (m_ctlBytes c))).
Proof.
  intros HB Hlen.
  destruct (entryModified_spec h c HB Hlen) as (tail & -> & Htail).
  do 3 f_equal. unfold hook_tail.
  destruct Htail as [[Hne ->]|(-> & b & Hb & ->)].
  - destruct (Z.eqb_spec h Offset.BAUD); done.
  - rewrite Z.eqb_refl, Hb.
    change (cast uint8_t b) with (b mod 256).
    pose proof (Z.mod_pos_bound b 256 ltac:(lia)) as Hb8.
    rewrite (cast_unsigned_small uint32_t (b mod 256 + 1));
      [| done | change (2 ^ (8 * sizeof uint32_t)) with 4294967296; lia].
    assert (Hq : 0 <= 2000000 / (b mod 256 + 1) <= 2000000).
    { split; [apply Z.div_pos; lia|]. apply Z.div_le_upper_bound; nia. }
    rewrite (cast_unsigned_small uint32_t (2000000 / (b mod 256 + 1)));
      [| done | change (2 ^ (8 * sizeof uint32_t)) with 4294967296; lia].
    reflexivity.
Qed.

(** The loop of [set] on a value of type [T]: it writes the digits that
    follow the lowest one. *)
Lemma set_loop_full T n : forall offset val c,
  1 <= sizeof T -> in_range T val ->
  0 <= offset -> offset + Z.of_nat n <= 255 ->
  offset + Z.of_nat n <= Z.of_nat (length (m_ctlBytes c)) ->
  set_loop T n offset val c
  = Some (offset + Z.of_nat n,
          mk (m_numCtlBytes c) (m_numPersistentBytes c)
             (splice (m_ctlBytes c) offset (digits n (val / 256))) (m_storage c)
             (events c
                ++ zip_with EvWrite (seqZ offset (Z.of_nat n)) (digits n (val / 256)))).
Proof.
  induction n as [|n IH]; intros offset val c Hw Hval H0 H255 Hlen.
  - cbn [set_loop digits zip_with]. unfold ret.
    rewrite splice_nil, app_nil_r, Z.add_0_r. by destruct c.
  - cbn [set_loop]. rewrite shiftr_8.
    rewrite (cast_id T (val / 256)) by (done || by apply in_range_div).
    rewrite land_255. mt_cbn. mt_write.
    rewrite (uint8_small (offset + 1)) by lia.
    rewrite IH;
      [| done | by apply in_range_div | lia | lia
       | mt_cbn; rewrite length_insert; lia].
    mt_cbn. cbn [digits]. rewrite splice_insert by lia.
    do 2 f_equal; [lia|]. f_equal.
    rewrite <- app_assoc. f_equal.
    replace (Z.of_nat (Datatypes.S n)) with (Z.succ (Z.of_nat n)) by lia.
    rewrite (seqZ_cons offset) by lia. cbn [zip_with app].
    replace (Z.succ offset) with (offset + 1) by lia.
    replace (Z.pred (Z.succ (Z.of_nat n))) with (Z.of_nat n) by lia. done.
Qed.

(** [set], completely: the digits of the converted value go to the cells
    of the field, lowest first, and the hook follows. *)
Lemma set_full T (w : nat) offset val c :
  (1 <= w)%nat -> sizeof T = Z.of_nat w -> 0 <= offset ->
  offset + sizeof T <= m_numCtlBytes c <= 255 ->
  Offset.BAUD + 1 <= m_numCtlBytes c ->
  m_numCtlBytes c <= Z.of_nat (length (m_ctlBytes c)) ->
  let bytes := digits w (cast T val) in
  let buf := splice (m_ctlBytes c) offset bytes in
  let h := if sizeof T =? 1 then offset else offset + sizeof T in
  set T offset val c
  = Some (tt, mk (m_numCtlBytes c) (m_numPersistentBytes c) buf (m_storage c)
                 (events c ++ zip_with EvWrite (seqZ offset (sizeof T)) bytes
                    ++ EvEntryModified h :: hook_tail h buf)).
Proof.
  intros Hw HT H0 [Hend H255] HB Hlen bytes buf h.
  assert (Hw' : 1 <= sizeof T) by lia.
  pose proof (cast_in_range T val Hw') as Hv.
  assert (Hbl : length bytes = w) by apply length_digits.
  assert (Hbuf : length buf = length (m_ctlBytes c))
    by (apply length_splice; lia).
  unfold set. mt_cbn. mt_leb.
  set (v := cast T val) in *.
  assert (Hwrites :
    (if sizeof T =? 1
     then fun c0 => match write offset (uint8 v) c0 with
                    | Some (_, c') => Some (offset, c')
                    | None => None
                    end
     else if sizeof T =? 2
     then fun c0 => match write offset (Z.land v 255) c0 with
                    | Some (_, c') =>
                        match write (uint8 (offset + 1))
                                (Z.land (cast T (Z.shiftr v 8)) 255) c' with
                        | Some (_, c'0) => Some (uint8 (uint8 (offset + 1) + 1), c'0)
                        | None => None
                        end
                    | None => None
                    end
     else fun c0 => match write offset (Z.land v 255) c0 with
                    | Some (_, c') =>
                        set_loop T (Z.to_nat (sizeof T - 1)) (uint8 (offset + 1)) v c'
                    | None => None
                    end) c
    = Some (h, mk (m_numCtlBytes c) (m_numPersistentBytes c) buf (m_storage c)
                  (events c ++ zip_with EvWrite (seqZ offset (sizeof T)) bytes))).
  { unfold h, buf, bytes.
    destruct (Z.eqb_spec (sizeof T) 1) as [E1|N1].
    { assert (w = 1%nat) as -> by lia. rewrite E1, seqZ_1.
      mt_write. cbn [digits zip_with]. unfold uint8.
      rewrite <- (splice_insert _ offset _ []) by lia. rewrite splice_nil.
      reflexivity. }
    destruct (Z.eqb_spec (sizeof T) 2) as [E2|N2].
    { assert (w = 2%nat) as -> by lia. rewrite E2, seqZ_2.
      mt_write. rewrite (uint8_small (offset + 1)) by lia. mt_write.
      rewrite (uint8_small (offset + 1 + 1)) by lia.
      rewrite shiftr_8, (cast_id T (v / 256)) by (done || by apply in_range_div).
      rewrite !land_255. cbn [digits zip_with].
      rewrite <- (splice_insert _ offset _ [_]) by lia.
      rewrite <- (splice_insert _ (offset + 1) _ []) by (rewrite length_insert; lia).
      rewrite splice_nil.
      replace (Z.to_nat (offset + 1)) with (Datatypes.S (Z.to_nat offset)) by lia.
      rewrite <- !app_assoc.
      replace (offset + 1 + 1) with (offset + 2) by lia. reflexivity. }
    mt_write. rewrite (uint8_small (offset + 1)) by lia.
    rewrite set_loop_full;
      [| done | done | lia | lia | mt_cbn; rewrite length_insert; lia].
    mt_cbn. rewrite land_255.
    replace w with (Datatypes.S (Z.to_nat (sizeof T - 1))) by lia.
    cbn [digits]. rewrite splice_insert by lia.
    rewrite Z2Nat.id by lia.
    do 2 f_equal; [lia|]. f_equal.
    rewrite <- app_assoc. f_equal.
    rewrite (seqZ_cons offset (sizeof T)) by lia. cbn [zip_with app].
    replace (Z.succ offset) with (offset + 1) by lia.
    replace (Z.pred (sizeof T)) with (sizeof T - 1) by lia. done. }
  destruct (sizeof T =? 1) eqn:E1; [|destruct (sizeof T =? 2) eqn:E2];
    rewrite Hwrites;
    (rewrite entryModified_tail by (mt_cbn; lia));
    mt_cbn; by rewrite <- app_assoc.
Qed.

Lemma load8_lookup buf i v :
  load8 buf i = Some v -> 0 <= i /\ buf !! Z.to_nat i = Some v.
Proof. unfold load8. destruct (Z.leb_spec 0 i); [done|discriminate]. Qed.

Lemma take_snoc_lookup (buf : list Z) (o n : nat) b :
  buf !! (o + n)%nat = Some b ->
  take (Datatypes.S n) (drop o buf) = take n (drop o buf) ++ [b].
Proof. intros Hb. apply take_S_r. by rewrite lookup_drop. Qed.

(** The loop of [get]: the value it builds from the cells below [offset]. *)
Lemma get_loop_val T n : forall offset val c,
  Z.of_nat n <= offset <= 256 ->
  offset <= Z.of_nat (length (m_ctlBytes c)) ->
  exists c',
    get_loop T n offset val c
    = Some (fold_left (dec_step T)
              (reverse (take n (drop (Z.to_nat offset - n) (m_ctlBytes c)))) val,
            c') /\
    m_ctlBytes c' = m_ctlBytes c /\ m_numCtlBytes c' = m_numCtlBytes c.
Proof.
  induction n as [|n IH]; intros offset val c Hoff Hlen.
  - exists c. cbn [get_loop take reverse fold_left]. done.
  - cbn [get_loop]. mt_cbn.
    rewrite (uint8_small (offset - 1)) by lia.
    mt_read b Hb. apply load8_lookup in Hb as [_ Hb].
    match goal with
    | |- context [get_loop T n ?o ?v ?st] =>
        destruct (IH o v st) as (c' & -> & Hbuf & Hn); [lia | mt_cbn; lia |]
    end.
    cbn [m_ctlBytes m_numCtlBytes] in Hbuf, Hn.
    exists c'. split; [|done]. do 2 f_equal.
    rewrite (take_snoc_lookup _ _ n b)
      by (rewrite <- Hb; f_equal; lia).
    rewrite reverse_app. cbn [reverse rev_append app fold_left].
    replace (Z.to_nat (offset - 1) - n)%nat
      with (Z.to_nat offset - Datatypes.S n)%nat by lia.
    reflexivity.
Qed.

(** [get]: the value it returns, from the cells of the field. *)
Lemma get_val T (w : nat) offset c :
  (1 <= w)%nat -> sizeof T = Z.of_nat w -> 0 <= offset ->
  offset + sizeof T <= m_numCtlBytes c <= 255 ->
  m_numCtlBytes c <= Z.of_nat (length (m_ctlBytes c)) ->
  exists c',
    get T offset c
    = Some (match reverse (take w (drop (Z.to_nat offset) (m_ctlBytes c))) with
            | hi :: rest => fold_left (dec_step T) rest (cast T hi)
            | [] => 0
            end, c') /\
    m_ctlBytes c' = m_ctlBytes c /\ m_numCtlBytes c' = m_numCtlBytes c.
Proof.
  intros Hw HT H0 [Hend H255] Hlen.
  unfold get. mt_cbn. mt_leb.
  destruct (Z.eqb_spec (sizeof T) 1) as [E1|N1].
  { assert (w = 1%nat) as -> by lia.
    mt_read b Hb. apply load8_lookup in Hb as [_ Hb]. cbn [m_ctlBytes] in Hb.
    eexists. split; [do 2 f_equal|split; reflexivity].
    rewrite (take_snoc_lookup _ _ 0 b) by (rewrite <- Hb; f_equal; lia).
    reflexivity. }
  destruct (Z.eqb_spec (sizeof T) 2) as [E2|N2].
  { assert (w = 2%nat) as -> by lia.
    mt_read b1 Hb1. mt_read b0 Hb0.
    apply load8_lookup in Hb1 as [_ Hb1]. apply load8_lookup in Hb0 as [_ Hb0].
    cbn [m_ctlBytes] in Hb1, Hb0.
    eexists. split; [do 2 f_equal|split; reflexivity].
    rewrite (take_snoc_lookup _ _ 1 b1) by (rewrite <- Hb1; f_equal; lia).
    rewrite (take_snoc_lookup _ _ 0 b0) by (rewrite <- Hb0; f_equal; lia).
    reflexivity. }
  rewrite (uint8_small (offset + sizeof T)) by lia.
  rewrite (uint8_small (offset + sizeof T - 1)) by lia.
  mt_read hi Hhi. apply load8_lookup in Hhi as [_ Hhi]. cbn [m_ctlBytes] in Hhi.
  match goal with
  | |- context [get_loop T ?n ?o ?v ?st] =>
      destruct (get_loop_val T n o v st) as (c' & -> & Hbuf & Hn);
      [lia | mt_cbn; lia |]
  end.
  cbn [m_ctlBytes m_numCtlBytes] in Hbuf, Hn.
  exists c'. split; [|done]. do 2 f_equal.
  replace w with (Datatypes.S (Z.to_nat (sizeof T - 1))) at 1 by lia.
  rewrite (take_snoc_lookup _ _ _ hi) by (rewrite <- Hhi; f_equal; lia).
  rewrite reverse_app. cbn [reverse rev_append app].
  replace (Z.to_nat (offset + sizeof T - 1) - Z.to_nat (sizeof T - 1))%nat
    with (Z.to_nat offset) by lia.
  reflexivity.
Qed.

End ControlTableMore.

Lemma digits_lookup n : forall v (k : nat),
  (k < n)%nat -> digits n v !! k = Some ((v / 256 ^ Z.of_nat k) mod 256).
Proof.
  induction n as [|n IH]; intros v k Hk; [lia|].
  destruct k as [|k]; cbn [digits lookup list_lookup].
  - by rewrite Z.div_1_r.
  - rewrite IH by lia. do 2 f_equal.
    replace (Z.of_nat (S k)) with (1 + Z.of_nat k) by lia.
    rewrite Z.pow_add_r by lia. change (256 ^ 1) with 256.
    rewrite Z.div_div by (try apply Z.pow_pos_nonneg; lia). reflexivity.
Qed.

Section ControlTableAccessors.
Context {S : Type} `{IControlTableStorage S}.
Import ControlTable.

Implicit Types c : ControlTable.t S.

(** X10.  [set] followed by [get] of the same type at the same offset
    returns the value that was set, converted to that type: the bytes are
    laid down and picked up in the same order, for every width and for
    signed and unsigned types alike. *)
Theorem X10_set_get_roundtrip (T : IntType) (offset val : Z) (c : ControlTable.t S) :
  1 <= sizeof T -> 0 <= offset ->
  offset + sizeof T <= m_numCtlBytes c <= 255 ->
  Offset.BAUD + 1 <= m_numCtlBytes c ->
  m_numCtlBytes c <= Z.of_nat (length (m_ctlBytes c)) ->
  exists c1 c2,
    set T offset val c = Some (tt, c1) /\
    get T offset c1 = Some (cast T val, c2) /\
    m_ctlBytes c2 = m_ctlBytes c1.
Proof.
  intros Hw H0 Hend HB Hlen.
  assert (HT : sizeof T = Z.of_nat (Z.to_nat (sizeof T))) by lia.
  pose proof (set_full T (Z.to_nat (sizeof T)) offset val c ltac:(lia) HT H0 Hend HB Hlen)
    as Hset. cbv zeta in Hset.
  pose proof (length_digits (Z.to_nat (sizeof T)) (cast T val)) as Hbl.
  match type of Hset with
  | _ = Some (tt, ?st) =>
      destruct (get_val T (Z.to_nat (sizeof T)) offset st ltac:(lia) HT H0)
        as (c2 & Hget & Hbuf & _)
  end.
  { cbn [m_numCtlBytes]. lia. }
  { cbn [m_numCtlBytes m_ctlBytes]. rewrite length_splice by lia. lia. }
  eexists _, c2. split; [exact Hset|]. split; [|exact Hbuf].
  rewrite Hget. do 2 f_equal. cbn [m_ctlBytes].
  rewrite <- Hbl at 1. rewrite splice_cells by lia.
  apply decode_digits; [lia | exact HT | by apply cast_in_range].
Qed.

(** X11.  [set] stores the value little-endian and touches nothing else:
    cell [offset + k] of the field receives digit [k] of the converted
    value in base 256, every cell outside the field keeps its content, and
    the sizes of the table and its buffer stay the same. *)
Theorem X11_set_little_endian (T : IntType) (offset val : Z) (c : ControlTable.t S) :
  1 <= sizeof T -> 0 <= offset ->
  offset + sizeof T <= m_numCtlBytes c <= 255 ->
  Offset.BAUD + 1 <= m_numCtlBytes c ->
  m_numCtlBytes c <= Z.of_nat (length (m_ctlBytes c)) ->
  exists c1,
    set T offset val c = Some (tt, c1) /\
    (forall k, 0 <= k < sizeof T ->
       m_ctlBytes c1 !! Z.to_nat (offset + k) = Some ((cast T val / 256 ^ k) mod 256)) /\
    (forall i : nat, Z.of_nat i < offset \/ offset + sizeof T <= Z.of_nat i ->
       m_ctlBytes c1 !! i = m_ctlBytes c !! i) /\
    length (m_ctlBytes c1) = length (m_ctlBytes c) /\
    m_numCtlBytes c1 = m_numCtlBytes c /\
    m_numPersistentBytes c1 = m_numPersistentBytes c.
Proof.
  intros Hw H0 Hend HB Hlen.
  assert (HT : sizeof T = Z.of_nat (Z.to_nat (sizeof T))) by lia.
  pose proof (set_full T (Z.to_nat (sizeof T)) offset val c ltac:(lia) HT H0 Hend HB Hlen)
    as Hset. cbv zeta in Hset.
  pose proof (length_digits (Z.to_nat (sizeof T)) (cast T val)) as Hbl.
  eexists. split; [exact Hset|]. cbn [m_ctlBytes m_numCtlBytes m_numPersistentBytes].
  split; [|split; [|split; [|done]]].
  - intros k Hk.
    replace (Z.to_nat (offset + k)) with (Z.to_nat offset + Z.to_nat k)%nat by lia.
    rewrite lookup_splice_in by lia.
    rewrite digits_lookup by lia. by rewrite Z2Nat.id by lia.
  - intros i Hi. apply lookup_splice_out; lia.
  - apply length_splice; lia.
Qed.

(** X12.  The bounds check of the accessors: a field that ends beyond
    [m_numCtlBytes] makes [get], [set] and the typed getters abort, and a
    field that ends at or before it, the last cell included, is read and
    written. *)
Theorem X12_accessor_bounds (T : IntType) (offset val : Z) (c : ControlTable.t S) :
  1 <= sizeof T -> 0 <= offset ->
  Offset.BAUD + 1 <= m_numCtlBytes c <= 255 ->
  m_numCtlBytes c <= Z.of_nat (length (m_ctlBytes c)) ->
  (m_numCtlBytes c < offset + sizeof T ->
   get T offset c = None /\ get_as T offset c = None /\ set T offset val c = None) /\
  (offset + sizeof T <= m_numCtlBytes c ->
   is_Some (get T offset c) /\ is_Some (get_as T offset c) /\
   is_Some (set T offset val c)).
Proof.
  intros Hw H0 [HB H255] Hlen. split.
  - intros Hout. unfold get_as, get, set, bind, this, assert.
    destruct (Z.leb_spec (offset + sizeof T) (m_numCtlBytes c)); [lia|]. done.
  - intros Hin.
    destruct (get_spec T offset c Hw H0 (conj Hin H255) Hlen) as [v Hget].
    destruct (set_spec T offset val c Hw H0 (conj Hin H255) HB Hlen)
      as (bytes & buf & tail & _ & _ & Hset & _).
    split; [by rewrite Hget|]. split; [|by rewrite Hset].
    unfold get_as, bind, this, assert.
    destruct (Z.leb_spec (offset + sizeof T) (m_numCtlBytes c)); [|lia].
    by rewrite Hget.
Qed.

(** X16.  When [set] tells the port.  The base hook compares the offset
    it is handed with [BAUD]: a one-byte [set] therefore notifies the port
    exactly when it writes the baud divisor, while a wider [set] notifies
    it exactly when the field ends just below [BAUD], and not when it
    covers [BAUD].  The rate is always computed from the byte found at
    [BAUD] after the write. *)
Theorem X16_port_notification (T : IntType) (offset val : Z) (c : ControlTable.t S) :
  1 <= sizeof T -> 0 <= offset ->
  offset + sizeof T <= m_numCtlBytes c <= 255 ->
  Offset.BAUD + 1 <= m_numCtlBytes c ->
  m_numCtlBytes c <= Z.of_nat (length (m_ctlBytes c)) ->
  let h := if sizeof T =? 1 then offset else offset + sizeof T in
  exists bytes c1,
    set T offset val c = Some (tt, c1) /\
    length bytes = Z.to_nat (sizeof T) /\
    (h <> Offset.BAUD ->
     events c1 = events c ++ zip_with EvWrite (seqZ offset (sizeof T)) bytes
                   ++ [EvEntryModified h]) /\
    (h = Offset.BAUD ->
     exists b,
       m_ctlBytes c1 !! Z.to_nat Offset.BAUD = Some b /\
       events c1 = events c ++ zip_with EvWrite (seqZ offset (sizeof T)) bytes
                     ++ [EvEntryModified h; EvPopulateEntry Offset.BAUD;
                         EvRead Offset.BAUD;
                         EvSetBaudRate (2000000 / (b mod 256 + 1))]).
Proof.
  intros Hw H0 Hend HB Hlen h.
  assert (HT : sizeof T = Z.of_nat (Z.to_nat (sizeof T))) by lia.
  pose proof (set_full T (Z.to_nat (sizeof T)) offset val c ltac:(lia) HT H0 Hend HB Hlen)
    as Hset. cbv zeta in Hset. fold h in Hset.
  eexists _, _. split; [exact Hset|].
  split; [apply length_digits|]. cbn [events m_ctlBytes].
  unfold hook_tail. split.
  - intros Hne. destruct (Z.eqb_spec h Offset.BAUD); done.
  - intros ->. rewrite Z.eqb_refl.
    set (buf := splice _ _ _).
    assert (Hbuf : length buf = length (m_ctlBytes c)).
    { apply length_splice; [lia|]. rewrite length_digits. lia. }
    destruct (load8_in_range buf Offset.BAUD) as [b Hb];
      [unfold Offset.BAUD in *; lia|].
    rewrite Hb. apply load8_lookup in Hb as [_ Hb]. by exists b.
Qed.

Lemma memset_ctlBytes_spec c :
  0 <= m_numCtlBytes c <= Z.of_nat (length (m_ctlBytes c)) ->
  memset_ctlBytes c
  = Some (tt, mk (m_numCtlBytes c) (m_numPersistentBytes c)
                 (replicate (Z.to_nat (m_numCtlBytes c)) 0
                    ++ drop (Z.to_nat (m_numCtlBytes c)) (m_ctlBytes c))
                 (m_storage c) (events c ++ [EvMemset (m_numCtlBytes c)])).
Proof.
  intros [H0 Hlen]. unfold memset_ctlBytes, memset0.
  destruct (Z.leb_spec 0 (m_numCtlBytes c)); [|lia].
  destruct (Z.leb_spec (m_numCtlBytes c) (Z.of_nat (length (m_ctlBytes c)))); [|lia].
  reflexivity.
Qed.

(** A one-byte [set]. *)
Lemma set_u8 offset b c :
  0 <= offset -> offset + 1 <= m_numCtlBytes c <= 255 ->
  Offset.BAUD + 1 <= m_numCtlBytes c ->
  m_numCtlBytes c <= Z.of_nat (length (m_ctlBytes c)) ->
  0 <= b < 256 ->
  set uint8_t offset b c
  = Some (tt, mk (m_numCtlBytes c) (m_numPersistentBytes c)
                 (<[Z.to_nat offset := b]> (m_ctlBytes c)) (m_storage c)
                 (events c ++ [EvWrite offset b; EvEntryModified offset]
                    ++ hook_tail offset (<[Z.to_nat offset := b]> (m_ctlBytes c)))).
Proof.
  intros H0 Hend HB Hlen Hb.
  rewrite (set_full uint8_t 1 offset b c) by (done || lia).
  change (sizeof uint8_t =? 1) with true. cbv iota.
  change (cast uint8_t b) with (b mod 256). rewrite (Z.mod_small b 256) by lia.
  cbn [digits]. rewrite (Z.mod_small b 256) by lia.
  rewrite <- (splice_insert _ offset b []) by lia. rewrite splice_nil.
  change (sizeof uint8_t) with 1. rewrite seqZ_1. reflexivity.
Qed.

(** [setToInitialValues] on a table that holds the base layout. *)
Lemma setToInitialValues_spec c :
  6 <= m_numCtlBytes c <= 255 ->
  m_numCtlBytes c <= Z.of_nat (length (m_ctlBytes c)) ->
  setToInitialValues c
  = Some (tt, mk (m_numCtlBytes c) (m_numPersistentBytes c)
                 (initial_bytes (m_numCtlBytes c)
                    ++ drop (Z.to_nat (m_numCtlBytes c)) (m_ctlBytes c))
                 (m_storage c)
                 (events c ++
                  [EvMemset (m_numCtlBytes c);
                   EvWrite Offset.ID DEFAULT_DEVICE_ID; EvEntryModified Offset.ID;
                   EvWrite Offset.BAUD DEFAULT_BAUD; EvEntryModified Offset.BAUD;
                   EvPopulateEntry Offset.BAUD; EvRead Offset.BAUD;
                   EvSetBaudRate 1000000;
                   EvWrite Offset.RDT DEFAULT_RDT; EvEntryModified Offset.RDT])).
Proof.
  intros [H6 H255] Hlen.
  set (n := m_numCtlBytes c) in *.
  unfold setToInitialValues. unfold bind at 1.
  rewrite memset_ctlBytes_spec by lia. fold n.
  set (m := (Z.to_nat n - 6)%nat).
  assert (Hz : replicate (Z.to_nat n) 0 = [0; 0; 0; 0; 0; 0] ++ replicate m 0).
  { replace (Z.to_nat n) with (6 + m)%nat by lia. by rewrite replicate_add. }
  rewrite Hz. cbn [app].
  set (rest := replicate m 0 ++ drop (Z.to_nat n) (m_ctlBytes c)).
  assert (Hrest : Z.of_nat (length rest) = Z.of_nat (length (m_ctlBytes c)) - 6).
  { unfold rest. rewrite length_app, length_replicate, length_drop. lia. }
  unfold Offset.ID, Offset.BAUD, Offset.RDT, DEFAULT_DEVICE_ID, DEFAULT_BAUD,
    DEFAULT_RDT, initial_bytes.
  unfold bind at 1.
  rewrite set_u8;
    [| lia | cbn [m_numCtlBytes]; lia | cbn [m_numCtlBytes]; unfold Offset.BAUD; lia
     | cbn [m_numCtlBytes m_ctlBytes length]; lia | lia].
  cbn [m_numCtlBytes m_numPersistentBytes m_ctlBytes m_storage events].
  change (Z.to_nat 3) with 3%nat. cbn [insert list_insert].
  unfold bind at 1.
  rewrite set_u8;
    [| lia | cbn [m_numCtlBytes]; lia | cbn [m_numCtlBytes]; unfold Offset.BAUD; lia
     | cbn [m_numCtlBytes m_ctlBytes length]; lia | lia].
  cbn [m_numCtlBytes m_numPersistentBytes m_ctlBytes m_storage events].
  change (Z.to_nat 4) with 4%nat. cbn [insert list_insert].
  rewrite set_u8;
    [| lia | cbn [m_numCtlBytes]; lia | cbn [m_numCtlBytes]; unfold Offset.BAUD; lia
     | cbn [m_numCtlBytes m_ctlBytes length]; lia | lia].
  cbn [m_numCtlBytes m_numPersistentBytes m_ctlBytes m_storage events].
  change (Z.to_nat 5) with 5%nat. cbn [insert list_insert].
  fold m. unfold rest.
  do 3 f_equal. rewrite <- !app_assoc. reflexivity.
Qed.

End ControlTableAccessors.

Section ControlTableInit.
Context {S : Type} `{IControlTableStorage S}.
Import ControlTable.

Implicit Types c : ControlTable.t S.

(** A one-byte [set] that returns leaves [m_numCtlBytes] as it was. *)
Lemma set_u8_numCtlBytes offset b c c' :
  set uint8_t offset b c = Some (tt, c') -> m_numCtlBytes c' = m_numCtlBytes c.
Proof.
  unfold set. change (sizeof uint8_t =? 1) with true. cbv iota.
  unfold bind at 1, this. unfold bind at 1, assert.
  destruct (offset + sizeof uint8_t <=? m_numCtlBytes c); [|done].
  unfold bind at 1. unfold bind at 1, write.
  destruct (store8 (m_ctlBytes c) offset _) as [buf|]; [|done].
  unfold ret, with_ctlBytes, with_event.
  cbn [m_numCtlBytes m_numPersistentBytes m_ctlBytes m_storage events].
  unfold entryModified. unfold bind at 1, emit, with_event.
  cbn [m_numCtlBytes m_numPersistentBytes m_ctlBytes m_storage events].
  destruct (offset =? Offset.BAUD); [|by intros [= <-]].
  unfold bind at 1, get_u8, get_as. unfold bind at 1, this. unfold bind at 1, assert.
  cbn [m_numCtlBytes].
  destruct (Offset.BAUD + sizeof uint8_t <=? m_numCtlBytes c) eqn:E; [|done].
  unfold get. unfold bind at 1, this. unfold bind at 1, assert.
  cbn [m_numCtlBytes]. rewrite E.
  unfold bind at 1, populateEntry, emit, with_event.
  cbn [m_numCtlBytes m_numPersistentBytes m_ctlBytes m_storage events].
  change (sizeof uint8_t =? 1) with true. cbv iota.
  unfold bind at 1, read.
  cbn [m_numCtlBytes m_numPersistentBytes m_ctlBytes m_storage events].
  destruct (load8 buf Offset.BAUD); [|done].
  unfold ret, with_event.
  cbn [m_numCtlBytes m_numPersistentBytes m_ctlBytes m_storage events].
  by intros [= <-].
Qed.

(** [load] when the storage object reports success. *)
Lemma load_ok_spec c rc bytes s' :
  0 <= m_numPersistentBytes c <= m_numCtlBytes c ->
  m_numCtlBytes c <= Z.of_nat (length (m_ctlBytes c)) ->
  storage_load (m_storage c) 0 (m_numPersistentBytes c) = (rc, bytes, s') ->
  rc = STORAGE_NONE ->
  load c
  = Some (tt, mk (m_numCtlBytes c) (m_numPersistentBytes c)
                 (bytes ++ replicate (Z.to_nat (m_numCtlBytes c) - length bytes) 0
                    ++ drop (Z.to_nat (m_numCtlBytes c)) (m_ctlBytes c))
                 s'
                 (events c ++ [EvMemset (m_numCtlBytes c);
                               EvStorageLoad 0 (m_numPersistentBytes c)])).
Proof.
  intros [Hp0 Hpn] Hlen Eload ->.
  pose proof (storage_load_bound (m_storage c) 0 (m_numPersistentBytes c) Hp0) as Hbound.
  rewrite Eload in Hbound. cbn [fst snd] in Hbound.
  set (n := m_numCtlBytes c) in *. set (np := m_numPersistentBytes c) in *.
  unfold load. unfold bind at 1.
  rewrite memset_ctlBytes_spec by (fold n; lia). fold n np.
  unfold bind at 1, this. unfold bind at 1, call_storage_load.
  cbn [m_numCtlBytes m_numPersistentBytes m_ctlBytes m_storage events].
  rewrite Eload.
  set (zeroed := replicate (Z.to_nat n) 0 ++ drop (Z.to_nat n) (m_ctlBytes c)).
  assert (Hz : length zeroed = length (m_ctlBytes c)).
  { unfold zeroed. rewrite length_app, length_replicate, length_drop. lia. }
  unfold memcpy. rewrite Hz.
  destruct (Z.leb_spec 0 (Z.of_nat (length bytes))); [|lia].
  destruct (Z.leb_spec (Z.of_nat (length bytes)) (Z.of_nat (length bytes))); [|lia].
  destruct (Z.leb_spec (Z.of_nat (length bytes)) (Z.of_nat (length (m_ctlBytes c))));
    [|lia].
  cbn [andb]. cbv beta iota. rewrite Nat2Z.id, firstn_all.
  unfold ret, with_storage, with_ctlBytes, with_event.
  cbn [m_numCtlBytes m_numPersistentBytes m_ctlBytes m_storage events].
  do 3 f_equal.
  - f_equal. unfold zeroed.
    rewrite drop_app_le by (rewrite length_replicate; lia).
    by rewrite drop_replicate.
  - by rewrite <- !app_assoc.
Qed.

(** X13.  [setToInitialValues] on a table of at least six bytes: the
    table is cleared and the three defaults are written, so its bytes are
    three zeros, the default id, baud divisor and return delay, and zeros
    up to [m_numCtlBytes]; bytes of the buffer beyond the table are not
    touched; the hooks run in the order of the writes and the port is told
    the rate 1000000 once. *)
Theorem X13_initial_values c :
  6 <= m_numCtlBytes c <= 255 ->
  m_numCtlBytes c <= Z.of_nat (length (m_ctlBytes c)) ->
  exists c',
    setToInitialValues c = Some (tt, c') /\
    take (Z.to_nat (m_numCtlBytes c)) (m_ctlBytes c')
      = initial_bytes (m_numCtlBytes c) /\
    drop (Z.to_nat (m_numCtlBytes c)) (m_ctlBytes c')
      = drop (Z.to_nat (m_numCtlBytes c)) (m_ctlBytes c) /\
    events c'
      = events c ++
        [EvMemset (m_numCtlBytes c);
         EvWrite Offset.ID DEFAULT_DEVICE_ID; EvEntryModified Offset.ID;
         EvWrite Offset.BAUD DEFAULT_BAUD; EvEntryModified Offset.BAUD;
         EvPopulateEntry Offset.BAUD; EvRead Offset.BAUD;
         EvSetBaudRate 1000000;
         EvWrite Offset.RDT DEFAULT_RDT; EvEntryModified Offset.RDT].
Proof.
  intros Hn Hlen. eexists. split; [by apply setToInitialValues_spec|].
  cbn [m_ctlBytes events].
  assert (Hib : length (initial_bytes (m_numCtlBytes c))
                = Z.to_nat (m_numCtlBytes c)).
  { unfold initial_bytes. rewrite length_app, length_replicate. cbn [length]. lia. }
  split; [|split; [|reflexivity]].
  - rewrite <- Hib at 1. by rewrite take_app_length.
  - rewrite <- Hib at 1. by rewrite drop_app_length.
Qed.

(** X14.  A table with fewer than six bytes has no room for the base
    layout: [setToInitialValues] does not return on it, because one of the
    three writes fails the bounds check of [set]. *)
Theorem X14_initial_values_short c :
  m_numCtlBytes c < 6 -> setToInitialValues c = None.
Proof.
  intros Hn. unfold setToInitialValues.
  unfold bind at 1. destruct (memset_ctlBytes c) as [[[] c0]|] eqn:E0; [|done].
  assert (H0 : m_numCtlBytes c0 = m_numCtlBytes c).
  { revert E0. unfold memset_ctlBytes. destruct (memset0 _ _); [|done].
    by intros [= <-]. }
  unfold bind at 1.
  destruct (set uint8_t Offset.ID DEFAULT_DEVICE_ID c0) as [[[] c1]|] eqn:E1; [|done].
  apply set_u8_numCtlBytes in E1.
  unfold bind at 1.
  destruct (set uint8_t Offset.BAUD DEFAULT_BAUD c1) as [[[] c2]|] eqn:E2; [|done].
  apply set_u8_numCtlBytes in E2.
  unfold set, bind at 1, this. unfold bind at 1, assert.
  destruct (Z.leb_spec (Offset.RDT + sizeof uint8_t) (m_numCtlBytes c2)); [|done].
  unfold Offset.RDT in *. change (sizeof uint8_t) with 1 in *. lia.
Qed.

(** X15.  When the storage object reports a failure, [load] falls back
    to the initial values: whatever the failed load left in the buffer is
    cleared again, and the table ends with the initial layout. *)
Theorem X15_load_fallback c :
  0 <= m_numPersistentBytes c <= m_numCtlBytes c ->
  6 <= m_numCtlBytes c <= 255 ->
  m_numCtlBytes c <= Z.of_nat (length (m_ctlBytes c)) ->
  (storage_load (m_storage c) 0 (m_numPersistentBytes c)).1.1 = STORAGE_FAILED ->
  exists c',
    load c = Some (tt, c') /\
    take (Z.to_nat (m_numCtlBytes c)) (m_ctlBytes c')
      = initial_bytes (m_numCtlBytes c) /\
    drop (Z.to_nat (m_numCtlBytes c)) (m_ctlBytes c')
      = drop (Z.to_nat (m_numCtlBytes c)) (m_ctlBytes c) /\
    events c'
      = events c ++
        [EvMemset (m_numCtlBytes c);
         EvStorageLoad 0 (m_numPersistentBytes c);
         EvMemset (m_numCtlBytes c);
         EvWrite Offset.ID DEFAULT_DEVICE_ID; EvEntryModified Offset.ID;
         EvWrite Offset.BAUD DEFAULT_BAUD; EvEntryModified Offset.BAUD;
         EvPopulateEntry Offset.BAUD; EvRead Offset.BAUD;
         EvSetBaudRate 1000000;
         EvWrite Offset.RDT DEFAULT_RDT; EvEntryModified Offset.RDT].
Proof.
  intros [Hp0 Hpn] Hn Hlen Hrc.
  pose proof (storage_load_bound (m_storage c) 0 (m_numPersistentBytes c) Hp0) as Hbound.
  set (n := m_numCtlBytes c) in *. set (np := m_numPersistentBytes c) in *.
  unfold load. unfold bind at 1.
  rewrite memset_ctlBytes_spec by (fold n; lia). fold n np.
  unfold bind at 1, this. unfold bind at 1, call_storage_load.
  cbn [m_numCtlBytes m_numPersistentBytes m_ctlBytes m_storage events].
  destruct (storage_load (m_storage c) 0 np) as [[rc bytes] s'] eqn:Eload.
  cbn [fst snd] in Hrc, Hbound. subst rc.
  set (zeroed := replicate (Z.to_nat n) 0 ++ drop (Z.to_nat n) (m_ctlBytes c)).
  assert (Hz : length zeroed = length (m_ctlBytes c)).
  { unfold zeroed. rewrite length_app, length_replicate, length_drop. lia. }
  unfold memcpy. rewrite Hz.
  destruct (Z.leb_spec 0 (Z.of_nat (length bytes))); [|lia].
  destruct (Z.leb_spec (Z.of_nat (length bytes)) (Z.of_nat (length bytes))); [|lia].
  destruct (Z.leb_spec (Z.of_nat (length bytes)) (Z.of_nat (length (m_ctlBytes c))));
    [|lia].
  cbn [andb]. cbv beta iota. rewrite Nat2Z.id, firstn_all.
  unfold with_storage, with_ctlBytes, with_event.
  cbn [m_numCtlBytes m_numPersistentBytes m_ctlBytes m_storage events].
  set (loaded := bytes ++ drop (length bytes) zeroed).
  assert (Hl : length loaded = length (m_ctlBytes c)).
  { unfold loaded. rewrite length_app, length_drop. lia. }
  rewrite setToInitialValues_spec;
    cbn [m_numCtlBytes m_numPersistentBytes m_ctlBytes m_storage events];
    [| fold n; lia | fold n; lia].
  assert (Hdrop : drop (Z.to_nat n) loaded = drop (Z.to_nat n) (m_ctlBytes c)).
  { unfold loaded. rewrite drop_app_ge by lia. rewrite drop_drop.
    unfold zeroed. rewrite drop_app_ge by (rewrite length_replicate; lia).
    rewrite length_replicate, drop_drop. f_equal. lia. }
  assert (Hib : length (initial_bytes n) = Z.to_nat n).
  { unfold initial_bytes. rewrite length_app, length_replicate. cbn [length]. lia. }
  eexists. split; [reflexivity|]. cbn [m_ctlBytes events].
  split; [|split].
  - rewrite <- Hib at 1. by rewrite take_app_length.
  - rewrite <- Hib at 1. by rewrite drop_app_length.
  - rewrite <- !app_assoc. reflexivity.
Qed.

End ControlTableInit.

(** ** The file storage *)

(** Reading back what [store_at] has put. *)
Lemma store_at_read content pos data :
  0 <= pos ->
  take (length data) (drop (Z.to_nat pos) (store_at content pos data)) = data.
Proof.
  intros Hpos. destruct data as [|b data]; [done|].
  unfold store_at.
  set (head := take (Z.to_nat pos) content
                 ++ replicate (Z.to_nat pos - length content) 0).
  assert (Hh : length head = Z.to_nat pos).
  { unfold head. rewrite length_app, length_take, length_replicate. lia. }
  rewrite <- Hh at 1. rewrite drop_app_length. by rewrite take_app_length.
Qed.

(** When [load] succeeds. *)
Lemma FileStorage_load_NONE s offset numBytes :
  0 <= offset -> 0 <= numBytes ->
  (FileStorage_load s offset numBytes).1.1 = STORAGE_NONE <->
  exists content,
    file s = Some content /\ readable s = true /\ seekable s = true /\
    (numBytes = 0 \/ offset + numBytes <= Z.of_nat (length content)).
Proof.
  intros Ho Hn.
  assert (Hgot : forall content : list Z,
            Z.of_nat (length (take (Z.to_nat numBytes)
                                (drop (Z.to_nat offset) content))) = numBytes
            <-> numBytes = 0 \/ offset + numBytes <= Z.of_nat (length content)).
  { intros content. rewrite length_take, length_drop.
    destruct (Nat.min_spec (Z.to_nat numBytes) (length content - Z.to_nat offset))
      as [[? ->]|[? ->]]; lia. }
  unfold FileStorage_load, sys_open_rdonly, sys_lseek, sys_read.
  destruct (file s) as [content|]; [|split; [done|by intros (? & ? & _)]].
  destruct (readable s); [|split; [done|by intros (? & _ & ? & _)]].
  destruct (seekable s); cbn [andb].
  - destruct (Z.leb_spec 0 offset); [|lia].
    destruct (Z.eqb_spec offset (-1)); [lia|].
    pose proof (Hgot content) as Hc.
    destruct (Z.eqb_spec
                (Z.of_nat (length (take (Z.to_nat numBytes)
                                     (drop (Z.to_nat offset) content)))) numBytes)
      as [E|E]; cbn [negb fst snd].
    + split; [|done]. intros _. exists content. by rewrite <- Hc.
    + split; [done|]. intros (content' & [= <-] & _ & _ & Hle). by apply Hc in Hle.
  - change (-1 =? -1) with true. cbv iota. cbn [fst snd].
    split; [done|]. by intros (? & _ & _ & ? & _).
Qed.

(** What [write] answers when handed [numBytes] bytes. *)
Lemma sys_write_spec s pos data numBytes :
  Z.of_nat (length data) = numBytes ->
  (numBytes <= Z.of_nat (room s) ->
   sys_write s pos data numBytes
   = (numBytes,
      {| file := Some (store_at (default [] (file s)) pos data);
         readable := readable s; writable := writable s;
         seekable := seekable s; room := room s |})) /\
  (Z.of_nat (room s) < numBytes -> (sys_write s pos data numBytes).1 <> numBytes).
Proof.
  intros Hd.
  assert (Ht : take (Z.to_nat numBytes) data = data) by (apply take_ge; lia).
  unfold sys_write. rewrite Ht. split; intros Hroom.
  - replace (length data `min` room s)%nat with (length data) by lia.
    rewrite firstn_all.
    destruct (Z.ltb_spec 0 numBytes), (Nat.eqb_spec (length data) 0);
      cbn [andb]; try lia; by rewrite Hd.
  - destruct (_ && _); cbn [fst]; lia.
Qed.

(** When [save] succeeds. *)
Lemma FileStorage_save_NONE s offset numBytes data :
  0 <= offset -> Z.of_nat (length data) = numBytes ->
  (FileStorage_save s offset numBytes data).1 = STORAGE_NONE <->
  (match file s with
   | Some _ => readable s && writable s && seekable s
   | None => writable s
   end = true /\ numBytes <= Z.of_nat (room s)).
Proof.
  intros Ho Hd.
  assert (Hw : forall s1, room s1 = room s -> seekable s1 = true ->
            (let '(n, s2) := sys_write s1 offset data numBytes in
             if negb (n =? numBytes) then (STORAGE_FAILED, s2)
             else (STORAGE_NONE, s2)).1 = STORAGE_NONE
            <-> numBytes <= Z.of_nat (room s)).
  { intros s1 Hr _. destruct (sys_write_spec s1 offset data numBytes Hd) as [Hin Hout].
    rewrite Hr in Hin, Hout.
    destruct (Z.le_gt_cases numBytes (Z.of_nat (room s))) as [Hle|Hgt].
    - rewrite (Hin Hle), Z.eqb_refl. done.
    - specialize (Hout ltac:(lia)).
      destruct (sys_write s1 offset data numBytes) as [n s2]. cbn [fst] in Hout.
      destruct (Z.eqb_spec n numBytes); [done|]. cbn [negb fst]. split; [done|lia]. }
  unfold FileStorage_save, sys_open_rdwr_creat, sys_lseek.
  destruct (file s) as [content|].
  - destruct (readable s), (writable s); cbn [andb fst];
      try (split; [done|by intros [? _]]).
    destruct (seekable s) eqn:Es; cbn [andb].
    + destruct (Z.leb_spec 0 offset); [|lia].
      destruct (Z.eqb_spec offset (-1)); [lia|].
      rewrite (Hw s eq_refl Es). split; [done|by intros [_ ?]].
    + change (-1 =? -1) with true. cbv iota. cbn [fst].
      split; [done|by intros [? _]].
  - destruct (writable s); cbn [fst]; [|split; [done|by intros [? _]]].
    cbn [seekable andb].
    destruct (Z.leb_spec 0 offset); [|lia].
    destruct (Z.eqb_spec offset (-1)); [lia|].
    rewrite Hw by done. split; [done|by intros [_ ?]].
Qed.

(** After a [save] that succeeded, [load] of the same place gives the
    saved bytes back. *)
Lemma FileStorage_save_load s offset numBytes data s' :
  0 <= offset -> Z.of_nat (length data) = numBytes ->
  FileStorage_save s offset numBytes data = (STORAGE_NONE, s') ->
  FileStorage_load s' offset numBytes = (STORAGE_NONE, data, s').
Proof.
  intros Ho Hd Hsave.
  assert (Hw : forall s1, readable s1 = true -> seekable s1 = true ->
            (let '(n, s2) := sys_write s1 offset data numBytes in
             if negb (n =? numBytes) then (STORAGE_FAILED, s2)
             else (STORAGE_NONE, s2)) = (STORAGE_NONE, s') ->
            exists content,
              file s' = Some (store_at content offset data) /\
              readable s' = true /\ seekable s' = true).
  { intros s1 Hr Hs. destruct (sys_write_spec s1 offset data numBytes Hd) as [Hin Hout].
    destruct (Z.le_gt_cases numBytes (Z.of_nat (room s1))) as [Hle|Hgt].
    - rewrite (Hin Hle), Z.eqb_refl. cbn [negb]. intros [= <-].
      by exists (default [] (file s1)).
    - specialize (Hout ltac:(lia)).
      destruct (sys_write s1 offset data numBytes) as [n s2]. cbn [fst] in Hout.
      by destruct (Z.eqb_spec n numBytes). }
  assert (Hs' : exists content,
            file s' = Some (store_at content offset data) /\
            readable s' = true /\ seekable s' = true).
  { revert Hsave. unfold FileStorage_save, sys_open_rdwr_creat, sys_lseek.
    destruct (file s) as [content|].
    - destruct (readable s) eqn:Er, (writable s); cbn [andb]; try done.
      destruct (seekable s) eqn:Es; cbn [andb];
        [|change (-1 =? -1) with true; done].
      destruct (Z.leb_spec 0 offset); [|lia].
      destruct (Z.eqb_spec offset (-1)); [lia|].
      by apply Hw.
    - destruct (writable s); [|done]. cbn [seekable andb].
      destruct (Z.leb_spec 0 offset); [|lia].
      destruct (Z.eqb_spec offset (-1)); [lia|].
      by apply Hw. }
  destruct Hs' as (content & Hf & Hr & Hsk).
  unfold FileStorage_load, sys_open_rdonly, sys_lseek, sys_read.
  rewrite Hf, Hr, Hsk. cbn [andb].
  destruct (Z.leb_spec 0 offset); [|lia].
  destruct (Z.eqb_spec offset (-1)); [lia|].
  replace (Z.to_nat numBytes) with (length data) by lia.
  rewrite store_at_read by done.
  destruct (Z.eqb_spec (Z.of_nat (length data)) numBytes); [reflexivity|lia].
Qed.

(** X17.  Saving a table to a file and loading it back.  When [save]
    reports success, it has changed no byte of the table, and a later
    [load] on a table of the same sizes over the same file restores the
    persistent bytes as they were when saved and leaves every volatile
    byte zero, whatever the buffer held in between; that [load] leaves the
    file as it is. *)
Theorem X17_save_then_load (c c1 d : ControlTable.t FileStorage) :
  0 <= ControlTable.m_numPersistentBytes c <= ControlTable.m_numCtlBytes c ->
  ControlTable.m_numCtlBytes c <= Z.of_nat (length (ControlTable.m_ctlBytes c)) ->
  ControlTable.save c = Some (STORAGE_NONE, c1) ->
  ControlTable.m_numCtlBytes d = ControlTable.m_numCtlBytes c ->
  ControlTable.m_numPersistentBytes d = ControlTable.m_numPersistentBytes c ->
  ControlTable.m_storage d = ControlTable.m_storage c1 ->
  ControlTable.m_numCtlBytes c <= Z.of_nat (length (ControlTable.m_ctlBytes d)) ->
  ControlTable.m_ctlBytes c1 = ControlTable.m_ctlBytes c /\
  exists d',
    ControlTable.load d = Some (tt, d') /\
    take (Z.to_nat (ControlTable.m_numCtlBytes c)) (ControlTable.m_ctlBytes d')
      = take (Z.to_nat (ControlTable.m_numPersistentBytes c)) (ControlTable.m_ctlBytes c)
          ++ replicate (Z.to_nat (ControlTable.m_numCtlBytes c)
                        - Z.to_nat (ControlTable.m_numPersistentBytes c)) 0 /\
    ControlTable.m_storage d' = ControlTable.m_storage c1.
Proof.
  destruct c as [n np buf s ev], d as [dn dnp dbuf ds dev].
  cbn [ControlTable.m_numCtlBytes ControlTable.m_numPersistentBytes
       ControlTable.m_ctlBytes ControlTable.m_storage].
  intros [Hp0 Hpn] Hlen Hsave -> -> -> Hdlen.
  revert Hsave.
  unfold ControlTable.save, ControlTable.bind, ControlTable.this,
    ControlTable.call_storage_save.
  cbn [ControlTable.m_numCtlBytes ControlTable.m_numPersistentBytes
       ControlTable.m_ctlBytes ControlTable.m_storage].
  destruct (Z.leb_spec 0 np); [|lia].
  destruct (Z.leb_spec np (Z.of_nat (length buf))); [|lia].
  cbn [andb]. cbv beta iota.
  set (data := take (Z.to_nat np) buf).
  assert (Hd : Z.of_nat (length data) = np).
  { unfold data. rewrite length_take. lia. }
  destruct (storage_save s 0 np data) as [rc s'] eqn:Esave.
  unfold ControlTable.with_storage, ControlTable.with_event.
  cbn [ControlTable.m_numCtlBytes ControlTable.m_numPersistentBytes
       ControlTable.m_ctlBytes ControlTable.m_storage ControlTable.events].
  intros [= -> <-].
  cbn [ControlTable.m_ctlBytes ControlTable.m_storage].
  split; [reflexivity|].
  assert (Eload : storage_load s' 0 np = (STORAGE_NONE, data, s')).
  { apply (FileStorage_save_load s 0 np data s'); [lia | exact Hd | exact Esave]. }
  eexists. split.
  { apply (load_ok_spec _ STORAGE_NONE data s');
      cbn [ControlTable.m_numCtlBytes ControlTable.m_numPersistentBytes
           ControlTable.m_ctlBytes ControlTable.m_storage];
      [lia | lia | exact Eload | reflexivity]. }
  cbn [ControlTable.m_ctlBytes ControlTable.m_storage].
  split; [|reflexivity].
  rewrite app_assoc.
  replace (length data) with (Z.to_nat np) by lia.
  assert (Hl : length (data ++ replicate (Z.to_nat n - Z.to_nat np) 0) = Z.to_nat n).
  { rewrite length_app, length_replicate. lia. }
  rewrite <- Hl at 1. by rewrite take_app_length.
Qed.

(** X18.  [FileStorage::load] succeeds exactly when the file exists, may
    be read and positioned, and either no byte is asked for or the file
    holds [numBytes] bytes from [offset] on; on success it delivers those
    bytes, and it never changes the file.  [FileStorage::save] succeeds
    exactly when the file may be opened for reading and writing, or
    created when missing, can be positioned, and the device stores all
    [numBytes] bytes.  After a [save] that succeeded, a [load] of the same
    place returns the bytes that were saved. *)
Theorem X18_file_storage (s : FileStorage) (offset numBytes : Z) (data : list Z) :
  0 <= offset -> 0 <= numBytes ->
  Z.of_nat (length data) = numBytes ->
  (FileStorage_load s offset numBytes).2 = s /\
  ((FileStorage_load s offset numBytes).1.1 = STORAGE_NONE <->
   exists content,
     file s = Some content /\ readable s = true /\ seekable s = true /\
     (numBytes = 0 \/ offset + numBytes <= Z.of_nat (length content))) /\
  (forall content,
     file s = Some content ->
     (FileStorage_load s offset numBytes).1.1 = STORAGE_NONE ->
     (FileStorage_load s offset numBytes).1.2
     = take (Z.to_nat numBytes) (drop (Z.to_nat offset) content)) /\
  ((FileStorage_save s offset numBytes data).1 = STORAGE_NONE <->
   (match file s with
    | Some _ => readable s && writable s && seekable s
    | None => writable s
    end = true /\ numBytes <= Z.of_nat (room s))) /\
  (forall s', FileStorage_save s offset numBytes data = (STORAGE_NONE, s') ->
     FileStorage_load s' offset numBytes = (STORAGE_NONE, data, s')).
Proof.
  intros Ho Hn Hd.
  split; [|split; [|split; [|split]]].
  - unfold FileStorage_load, sys_read.
    destruct (sys_open_rdonly s); [|done].
    destruct (_ =? -1); [done|]. by destruct (negb _).
  - by apply FileStorage_load_NONE.
  - intros content Hf. unfold FileStorage_load, sys_open_rdonly, sys_read.
    rewrite Hf. destruct (readable s); [|done].
    destruct (_ =? -1); [done|]. by destruct (negb _).
  - by apply FileStorage_save_NONE.
  - intros s'. by apply FileStorage_save_load.
Qed.

(** ** The statements above at concrete tables *)

Lemma X10_set_get_roundtrip_witness :
  exists c1 c2,
    ControlTable.set ControlTable.int32_t 0x06 (-2) test_table = Some (tt, c1) /\
    ControlTable.get ControlTable.int32_t 0x06 c1 = Some (ControlTable.cast ControlTable.int32_t (-2), c2) /\
    ControlTable.m_ctlBytes c2 = ControlTable.m_ctlBytes c1.
Proof.
  apply (X10_set_get_roundtrip ControlTable.int32_t 0x06 (-2) test_table).
  - simpl. lia.
  - lia.
  - simpl. lia.
  - simpl. unfold ControlTable.Offset.BAUD. lia.
  - simpl. lia.
Defined.

Lemma X11_set_little_endian_witness :
  exists c1,
    ControlTable.set ControlTable.uint32_t 0x06 0x11223344 test_table = Some (tt, c1) /\
    (forall k, 0 <= k < ControlTable.sizeof ControlTable.uint32_t ->
       ControlTable.m_ctlBytes c1 !! Z.to_nat (0x06 + k)
       = Some ((ControlTable.cast ControlTable.uint32_t 0x11223344 / 256 ^ k) mod 256)) /\
    (forall i : nat, Z.of_nat i < 0x06 \/ 0x06 + ControlTable.sizeof ControlTable.uint32_t <= Z.of_nat i ->
       ControlTable.m_ctlBytes c1 !! i = ControlTable.m_ctlBytes test_table !! i) /\
    length (ControlTable.m_ctlBytes c1) = length (ControlTable.m_ctlBytes test_table) /\
    ControlTable.m_numCtlBytes c1 = ControlTable.m_numCtlBytes test_table /\
    ControlTable.m_numPersistentBytes c1 = ControlTable.m_numPersistentBytes test_table.
Proof.
  apply (X11_set_little_endian ControlTable.uint32_t 0x06 0x11223344 test_table).
  - simpl. lia.
  - lia.
  - simpl. lia.
  - simpl. unfold ControlTable.Offset.BAUD. lia.
  - simpl. lia.
Defined.

Lemma X12_accessor_bounds_witness :
  (ControlTable.m_numCtlBytes test_table < 0x1C + ControlTable.sizeof ControlTable.uint32_t ->
   ControlTable.get ControlTable.uint32_t 0x1C test_table = None /\
   ControlTable.get_as ControlTable.uint32_t 0x1C test_table = None /\
   ControlTable.set ControlTable.uint32_t 0x1C 1 test_table = None) /\
  (0x1C + ControlTable.sizeof ControlTable.uint32_t <= ControlTable.m_numCtlBytes test_table ->
   is_Some (ControlTable.get ControlTable.uint32_t 0x1C test_table) /\
   is_Some (ControlTable.get_as ControlTable.uint32_t 0x1C test_table) /\
   is_Some (ControlTable.set ControlTable.uint32_t 0x1C 1 test_table)).
Proof.
  apply (X12_accessor_bounds ControlTable.uint32_t 0x1C 1 test_table).
  - simpl. lia.
  - lia.
  - simpl. unfold ControlTable.Offset.BAUD. lia.
  - simpl. lia.
Defined.

Lemma X13_initial_values_witness :
  exists c',
    ControlTable.setToInitialValues test_table = Some (tt, c') /\
    take (Z.to_nat (ControlTable.m_numCtlBytes test_table)) (ControlTable.m_ctlBytes c')
      = initial_bytes (ControlTable.m_numCtlBytes test_table) /\
    drop (Z.to_nat (ControlTable.m_numCtlBytes test_table)) (ControlTable.m_ctlBytes c')
      = drop (Z.to_nat (ControlTable.m_numCtlBytes test_table)) (ControlTable.m_ctlBytes test_table) /\
    ControlTable.events c'
      = ControlTable.events test_table ++
        [ControlTable.EvMemset (ControlTable.m_numCtlBytes test_table);
         ControlTable.EvWrite ControlTable.Offset.ID ControlTable.DEFAULT_DEVICE_ID; ControlTable.EvEntryModified ControlTable.Offset.ID;
         ControlTable.EvWrite ControlTable.Offset.BAUD ControlTable.DEFAULT_BAUD; ControlTable.EvEntryModified ControlTable.Offset.BAUD;
         ControlTable.EvPopulateEntry ControlTable.Offset.BAUD; ControlTable.EvRead ControlTable.Offset.BAUD;
         ControlTable.EvSetBaudRate 1000000;
         ControlTable.EvWrite ControlTable.Offset.RDT ControlTable.DEFAULT_RDT; ControlTable.EvEntryModified ControlTable.Offset.RDT].
Proof.
  apply (X13_initial_values test_table).
  - simpl. lia.
  - simpl. lia.
Defined.

Lemma X14_initial_values_short_witness :
  ControlTable.setToInitialValues
    (ControlTable.mk 5 5 [1; 2; 3; 4; 5] missing_file []) = None.
Proof.
  apply (X14_initial_values_short (ControlTable.mk 5 5 [1; 2; 3; 4; 5] missing_file [])).
  simpl. lia.
Defined.

Lemma X15_load_fallback_witness :
  let c := ControlTable.mk 0x20 0x10 (replicate 32 0x5A) missing_file [] in
  exists c',
    ControlTable.load c = Some (tt, c') /\
    take (Z.to_nat (ControlTable.m_numCtlBytes c)) (ControlTable.m_ctlBytes c')
      = initial_bytes (ControlTable.m_numCtlBytes c) /\
    drop (Z.to_nat (ControlTable.m_numCtlBytes c)) (ControlTable.m_ctlBytes c')
      = drop (Z.to_nat (ControlTable.m_numCtlBytes c)) (ControlTable.m_ctlBytes c) /\
    ControlTable.events c'
      = ControlTable.events c ++
        [ControlTable.EvMemset (ControlTable.m_numCtlBytes c);
         ControlTable.EvStorageLoad 0 (ControlTable.m_numPersistentBytes c);
         ControlTable.EvMemset (ControlTable.m_numCtlBytes c);
         ControlTable.EvWrite ControlTable.Offset.ID ControlTable.DEFAULT_DEVICE_ID; ControlTable.EvEntryModified ControlTable.Offset.ID;
         ControlTable.EvWrite ControlTable.Offset.BAUD ControlTable.DEFAULT_BAUD; ControlTable.EvEntryModified ControlTable.Offset.BAUD;
         ControlTable.EvPopulateEntry ControlTable.Offset.BAUD; ControlTable.EvRead ControlTable.Offset.BAUD;
         ControlTable.EvSetBaudRate 1000000;
         ControlTable.EvWrite ControlTable.Offset.RDT ControlTable.DEFAULT_RDT; ControlTable.EvEntryModified ControlTable.Offset.RDT].
Proof.
  apply (X15_load_fallback
           (ControlTable.mk 0x20 0x10 (replicate 32 0x5A) missing_file [])).
  - simpl. lia.
  - simpl. lia.
  - simpl. lia.
  - reflexivity.
Defined.

Lemma X16_port_notification_witness :
  let h := if ControlTable.sizeof ControlTable.uint16_t =? 1 then 0x02 else 0x02 + ControlTable.sizeof ControlTable.uint16_t in
  exists bytes c1,
    ControlTable.set ControlTable.uint16_t 0x02 0x0107 test_table = Some (tt, c1) /\
    length bytes = Z.to_nat (ControlTable.sizeof ControlTable.uint16_t) /\
    (h <> ControlTable.Offset.BAUD ->
     ControlTable.events c1
     = ControlTable.events test_table
         ++ zip_with ControlTable.EvWrite (seqZ 0x02 (ControlTable.sizeof ControlTable.uint16_t)) bytes
         ++ [ControlTable.EvEntryModified h]) /\
    (h = ControlTable.Offset.BAUD ->
     exists b,
       ControlTable.m_ctlBytes c1 !! Z.to_nat ControlTable.Offset.BAUD = Some b /\
       ControlTable.events c1
       = ControlTable.events test_table
           ++ zip_with ControlTable.EvWrite (seqZ 0x02 (ControlTable.sizeof ControlTable.uint16_t)) bytes
           ++ [ControlTable.EvEntryModified h; ControlTable.EvPopulateEntry ControlTable.Offset.BAUD;
               ControlTable.EvRead ControlTable.Offset.BAUD;
               ControlTable.EvSetBaudRate (2000000 / (b mod 256 + 1))]).
Proof.
  apply (X16_port_notification ControlTable.uint16_t 0x02 0x0107 test_table).
  - simpl. lia.
  - lia.
  - simpl. lia.
  - simpl. unfold ControlTable.Offset.BAUD. lia.
  - simpl. lia.
Defined.

Lemma X17_save_then_load_witness :
  let c1 := ControlTable.mk 0x20 0x10 (replicate 32 0x5A)
              (regular_file (replicate 16 0x5A)) [ControlTable.EvStorageSave 0 0x10] in
  let d := ControlTable.mk 0x20 0x10 (replicate 32 0x77) (ControlTable.m_storage c1) [] in
  ControlTable.m_ctlBytes c1 = ControlTable.m_ctlBytes test_table /\
  exists d',
    ControlTable.load d = Some (tt, d') /\
    take (Z.to_nat (ControlTable.m_numCtlBytes test_table)) (ControlTable.m_ctlBytes d')
      = take (Z.to_nat (ControlTable.m_numPersistentBytes test_table)) (ControlTable.m_ctlBytes test_table)
          ++ replicate (Z.to_nat (ControlTable.m_numCtlBytes test_table)
                        - Z.to_nat (ControlTable.m_numPersistentBytes test_table)) 0 /\
    ControlTable.m_storage d' = ControlTable.m_storage c1.
Proof.
  apply (X17_save_then_load test_table
           (ControlTable.mk 0x20 0x10 (replicate 32 0x5A)
              (regular_file (replicate 16 0x5A)) [ControlTable.EvStorageSave 0 0x10])
           (ControlTable.mk 0x20 0x10 (replicate 32 0x77)
              (regular_file (replicate 16 0x5A)) [])).
  - simpl. lia.
  - simpl. lia.
  - vm_compute. reflexivity.
  - reflexivity.
  - reflexivity.
  - reflexivity.
  - simpl. lia.
Defined.

Lemma X18_file_storage_witness :
  let s := regular_file (Z.of_nat <$> seq 0 32) in
  (FileStorage_load s 10 4).2 = s /\
  ((FileStorage_load s 10 4).1.1 = STORAGE_NONE <->
   exists content,
     file s = Some content /\ readable s = true /\ seekable s = true /\
     (4 = 0 \/ 10 + 4 <= Z.of_nat (length content))) /\
  (forall content,
     file s = Some content ->
     (FileStorage_load s 10 4).1.1 = STORAGE_NONE ->
     (FileStorage_load s 10 4).1.2
     = take (Z.to_nat 4) (drop (Z.to_nat 10) content)) /\
  ((FileStorage_save s 10 4 [7; 8; 9; 10]).1 = STORAGE_NONE <->
   (match file s with
    | Some _ => readable s && writable s && seekable s
    | None => writable s
    end = true /\ 4 <= Z.of_nat (room s))) /\
  (forall s', FileStorage_save s 10 4 [7; 8; 9; 10] = (STORAGE_NONE, s') ->
     FileStorage_load s' 10 4 = (STORAGE_NONE, [7; 8; 9; 10], s')).
Proof.
  apply (X18_file_storage (regular_file (Z.of_nat <$> seq 0 32)) 10 4 [7; 8; 9; 10]).
  - lia.
  - lia.
  - reflexivity.
Defined.

(** From [LoadTest]: a missing file fails, a load that runs past the end
    of a 32-byte file fails, and a load of the whole file delivers it. *)
Example LoadTest :
  let bytes := Z.of_nat <$> seq 0 32 in
  (FileStorage_load missing_file 0 32).1.1 = STORAGE_FAILED /\
  (FileStorage_load (regular_file bytes) 10 32).1.1 = STORAGE_FAILED /\
  (FileStorage_load (regular_file bytes) 0 32).1 = (STORAGE_NONE, bytes).
Proof. repeat split; vm_compute; reflexivity. Qed.

(** From [SaveFailTest]: a name that refers to no file and cannot be
    created. *)
Example SaveFailTest :
  (FileStorage_save {| file := None; readable := false; writable := false;
                       seekable := true; room := 255 |}
     0 32 (replicate 32 0)).1 = STORAGE_FAILED.
Proof. reflexivity. Qed.

(** From [SaveFullTest]: a device that opens and stores nothing. *)
Example SaveFullTest :
  (FileStorage_save {| file := Some []; readable := true; writable := true;
                       seekable := true; room := 0 |}
     0 32 (replicate 32 0)).1 = STORAGE_FAILED.
Proof. reflexivity. Qed.

(** From [SaveSeekFail]: an object that opens and cannot be positioned. *)
Example SaveSeekFail :
  let tty := {| file := Some []; readable := true; writable := true;
                seekable := false; room := 255 |} in
  (FileStorage_load tty 255 32).1.1 = STORAGE_FAILED /\
  (FileStorage_save tty 255 32 (replicate 32 0)).1 = STORAGE_FAILED.
Proof. split; reflexivity. Qed.

(** From [TestSave]: load from a missing file, change a field, save, reset,
    load again; the field reads back as saved. *)
Example TestSave :
  let c0 := ControlTable.mk 0x20 0x10 (replicate 32 0x5A) missing_file [] in
  match
    (ControlTable.bind ControlTable.load (fun _ =>
     ControlTable.bind (ControlTable.set ControlTable.uint32_t 0x06 0x01020304) (fun _ =>
     ControlTable.bind ControlTable.save (fun rc =>
     ControlTable.bind ControlTable.setToInitialValues (fun _ =>
     ControlTable.bind ControlTable.load (fun _ =>
     ControlTable.bind (ControlTable.get_u32 0x06) (fun v => ControlTable.ret (rc, v)))))))) c0
  with
  | Some (r, _) => r = (STORAGE_NONE, 0x01020304)
  | None => False
  end.
Proof. vm_compute. reflexivity. Qed.
